(** * microkube: process supervision and health orchestration

    A shallow embedding of the supervision core of microkubed:

    - [Handlers]      pkg/handlers/ServiceHandler.go
    - [Orchestrator]  cmd/microkubed/cmd/Microkubed.go
    - [Helpers]       the process handle of pkg/helpers
    - [Kube]          pkg/handlers/kube/KubeletHandler.go
    - [GoStrings]     what the sources use of Go's strings package
    - [KubeLog]       the parser for kubernetes log lines
    - [KubeletProbe]  the health probe of the kubelet handler
    - [Banner]        the banner of Microkubed.go
    - [IPRanges]      the cluster range of debian/microkube
    - [DnsMain]       internal/manifests/dns/main.go

    Effects (logging, sleeping, starting and stopping services, process
    exit) are recorded as a chronological trace of events; everything the
    operating system decides (whether a binary starts, what a health probe
    answers) is read from a [World]. *)

From Stdlib Require Import ZArith List String Ascii Bool Lia.
Import ListNotations.
Local Open Scope string_scope.
Local Open Scope Z_scope.
Local Open Scope list_scope.

(* ===================================================================== *)
(** ** pkg/handlers/ServiceHandler.go *)
(* ===================================================================== *)

Module Handlers.

(** [HealthMessage]: the result of one health probe. [Error] is the
    text of the Go [error], [None] for [nil]. *)
Record HealthMessage : Type := mkHealthMessage {
  IsHealthy : bool;
  Error : option string
}.

(** [net.IP] is a byte slice. *)
Definition IP : Type := list Byte.byte.

Section ExecutionEnvironment.

(** The two callback types are function values in Go; the record is
    parametric in what they are. *)
Variables OutputFn ExitFn : Type.

Record ExecutionEnvironment : Type := mkExecutionEnvironment {
  Binary : string;
  SudoMethod : string;
  Workdir : string;
  ListenAddress : IP;
  ServiceAddress : IP;
  DNSAddress : IP;
  OutputHandler : OutputFn;
  ExitHandler : ExitFn;
  EtcdClientPort : Z;
  EtcdPeerPort : Z;
  KubeApiPort : Z;
  KubeNodeApiPort : Z;
  KubeControllerManagerPort : Z;
  KubeletHealthPort : Z;
  KubeProxyHealthPort : Z;
  KubeProxyMetricsPort : Z;
  KubeSchedulerHealthPort : Z;
  KubeSchedulerMetricsPort : Z
}.

(** Go's [int] on the supported platform is a 64-bit two's complement
    integer; [wrap] is its overflow behaviour. *)
Definition wrap (z : Z) : Z := (z + 2 ^ 63) mod 2 ^ 64 - 2 ^ 63.

(** [InitPorts] initializes the ports in [e] starting from [base]. *)
Definition InitPorts (e : ExecutionEnvironment) (base : Z) : ExecutionEnvironment :=
  {| Binary := Binary e;
     SudoMethod := SudoMethod e;
     Workdir := Workdir e;
     ListenAddress := ListenAddress e;
     ServiceAddress := ServiceAddress e;
     DNSAddress := DNSAddress e;
     OutputHandler := OutputHandler e;
     ExitHandler := ExitHandler e;
     EtcdClientPort := base;
     EtcdPeerPort := wrap (base + 1);
     KubeApiPort := wrap (base + 2);
     KubeNodeApiPort := wrap (base + 3);
     KubeControllerManagerPort := wrap (base + 4);
     KubeletHealthPort := wrap (base + 5);
     KubeProxyHealthPort := wrap (base + 6);
     KubeProxyMetricsPort := wrap (base + 7);
     KubeSchedulerHealthPort := wrap (base + 8);
     KubeSchedulerMetricsPort := wrap (base + 9) |}.

(** [CopyInformationFromBase] copies all ports, all addresses and the
    sudo method from [o] to [e]; the receiver is updated in place, so the
    fields that are not assigned keep the receiver's values. *)
Definition CopyInformationFromBase (e o : ExecutionEnvironment) : ExecutionEnvironment :=
  {| Binary := Binary e;
     SudoMethod := SudoMethod o;
     Workdir := Workdir e;
     ListenAddress := ListenAddress o;
     ServiceAddress := ServiceAddress o;
     DNSAddress := DNSAddress o;
     OutputHandler := OutputHandler e;
     ExitHandler := ExitHandler e;
     EtcdClientPort := EtcdClientPort o;
     EtcdPeerPort := EtcdPeerPort o;
     KubeApiPort := KubeApiPort o;
     KubeNodeApiPort := KubeNodeApiPort o;
     KubeControllerManagerPort := KubeControllerManagerPort o;
     KubeletHealthPort := KubeletHealthPort o;
     KubeProxyHealthPort := KubeProxyHealthPort o;
     KubeProxyMetricsPort := KubeProxyMetricsPort o;
     KubeSchedulerHealthPort := KubeSchedulerHealthPort o;
     KubeSchedulerMetricsPort := KubeSchedulerMetricsPort o |}.

(** The ten port fields, in declaration order. *)
Definition ports (e : ExecutionEnvironment) : list Z :=
  [ EtcdClientPort e; EtcdPeerPort e; KubeApiPort e; KubeNodeApiPort e;
    KubeControllerManagerPort e; KubeletHealthPort e; KubeProxyHealthPort e;
    KubeProxyMetricsPort e; KubeSchedulerHealthPort e;
    KubeSchedulerMetricsPort e ].

(** The three address fields. *)
Definition addresses (e : ExecutionEnvironment) : list IP :=
  [ ListenAddress e; ServiceAddress e; DNSAddress e ].

End ExecutionEnvironment.

Arguments Binary {OutputFn ExitFn} _.
Arguments SudoMethod {OutputFn ExitFn} _.
Arguments Workdir {OutputFn ExitFn} _.
Arguments ListenAddress {OutputFn ExitFn} _.
Arguments ServiceAddress {OutputFn ExitFn} _.
Arguments DNSAddress {OutputFn ExitFn} _.
Arguments OutputHandler {OutputFn ExitFn} _.
Arguments ExitHandler {OutputFn ExitFn} _.
Arguments EtcdClientPort {OutputFn ExitFn} _.
Arguments EtcdPeerPort {OutputFn ExitFn} _.
Arguments KubeApiPort {OutputFn ExitFn} _.
Arguments KubeNodeApiPort {OutputFn ExitFn} _.
Arguments KubeControllerManagerPort {OutputFn ExitFn} _.
Arguments KubeletHealthPort {OutputFn ExitFn} _.
Arguments KubeProxyHealthPort {OutputFn ExitFn} _.
Arguments KubeProxyMetricsPort {OutputFn ExitFn} _.
Arguments KubeSchedulerHealthPort {OutputFn ExitFn} _.
Arguments KubeSchedulerMetricsPort {OutputFn ExitFn} _.
Arguments ports {OutputFn ExitFn} _.
Arguments addresses {OutputFn ExitFn} _.
Arguments InitPorts {OutputFn ExitFn} _ _.
Arguments CopyInformationFromBase {OutputFn ExitFn} _ _.

End Handlers.

(* ===================================================================== *)
(** ** cmd/microkubed/cmd/Microkubed.go *)
(* ===================================================================== *)

Module Orchestrator.

Import Handlers.

(** *** Values the orchestrator handles *)

(** A [handlers.ServiceHandler] reference. Handlers are created by the
    service constructors; a reference is identified by the service it
    was constructed for. *)
Inductive ServiceHandler : Type :=
| Handler (service : string).

(** The two channels [startService] makes for a service, and the two
    channels of [waitUntilNodeReady]. *)
Inductive Chan : Type :=
| StateChan (service : string)
| HealthChan (service : string)
| SigChan
| ExitChan.

(** [serviceEntry]: all information about a running service needed to
    check its health and stop it. *)
Record serviceEntry : Type := mkServiceEntry {
  exitChan : Chan;
  healthChan : Chan;
  handler : ServiceHandler;
  name : string
}.

(** The signals a run can receive: [os.Interrupt] (SIGINT), [os.Kill]
    (SIGKILL) and the termination signal SIGTERM, which the code never
    names. *)
Inductive Signal : Type :=
| Interrupt
| Kill
| Terminate.

Definition Signal_eqb (a b : Signal) : bool :=
  match a, b with
  | Interrupt, Interrupt => true
  | Kill, Kill => true
  | Terminate, Terminate => true
  | _, _ => false
  end.

(** SIGKILL cannot be caught: [signal.Notify] has no effect for it. *)
Definition catchable (sig : Signal) : bool :=
  match sig with
  | Kill => false
  | _ => true
  end.

(** The fields of [Microkubed] that the supervision code reads or
    writes. [kubeconfig] is [cred.Kubeconfig]. [sigRelay] is no field of
    the Go struct: it is the runtime's signal table as far as this code
    sets it, the signals [signal.Notify] has asked to relay to
    [sigChan]. *)
Record Microkubed : Type := mkMicrokubed {
  gracefulTerminationMode : bool;
  serviceHandlers : list ServiceHandler;
  baseDir : string;
  etcdBin : string;
  hyperkubeBin : string;
  kubeconfig : string;
  serviceList : list serviceEntry;
  enableKubeDash : bool;
  enableDns : bool;
  sigRelay : list Signal
}.

(** *** Effects *)

(** [time.Second], in nanoseconds as [time.Duration] counts. *)
Definition Second : Z := 1000000000.

Inductive Level : Type :=
| FatalLevel | ErrorLevel | WarnLevel | InfoLevel | DebugLevel.

(** Values of logrus fields; [VErr] is what [WithError] attaches. *)
Inductive Value : Type :=
| VStr (s : string)
| VInt (z : Z)
| VBool (b : bool)
| VErr (e : option string).

Record Entry : Type := mkEntry {
  level : Level;
  fields : list (string * Value);
  message : string
}.

Inductive Event : Type :=
| ELog (e : Entry)
| ESleep (d : Z)
| EStart (h : ServiceHandler)
| EHealthChecks (h : ServiceHandler) (messages : Chan) (forever : bool)
| EStop (h : ServiceHandler)
| EGo (task : string)
| ESend (c : Chan) (v : bool)
| ERecv (c : Chan)
| EWaitForNode
| EDrainNode
| ESignalReset (sigs : list Signal)
| ESignalNotify (c : Chan) (sigs : list Signal)
| ESignalRelay (sig : Signal) (c : Chan)
| ESignalled (sig : Signal)
| ESdNotify (state : string)
| EManifest (addon : string)
| EOsExit (code : Z).

Definition Trace : Type := list Event.

(** What the environment decides. Errors are the text of the Go
    [error]; [None] is [nil]. *)
Record World : Type := mkWorld {
  (** message of the [Fatal] call [createDirectories] reaches while
      copying CNI plugins, if it reaches one *)
  createDirectories_fatal : option string;
  (** result of [cred.CreateOrLoadCertificates] *)
  credentials_err : option string;
  (** error of [helpers.FindBinary] for a binary name *)
  findBinary_err : string -> option string;
  (** error returned by the [New...Handler] function of a service *)
  newHandler_err : string -> option string;
  (** result of [serviceHandler.Start()] for a service *)
  start_err : string -> option string;
  (** the message received from the health channel after the call
      [EnableHealthChecks(healthChan, false)] number [retries] *)
  probe : string -> Z -> HealthMessage;
  (** does [os.Stat(kubeconfig)] fail? *)
  kubeconfig_missing : bool;
  (** result of [kube.CreateClientKubeconfig] *)
  kubeconfig_err : option string;
  (** error of [kube2.NewKubeClient] *)
  kubeClient_err : option string
}.

(** A computation either completes with a value and a new [Microkubed],
    or the process exits ([os.Exit]); both carry the events emitted. *)
Inductive Outcome (A : Type) : Type :=
| Done (a : A) (m : Microkubed) (t : Trace)
| Exited (t : Trace).

Arguments Done {A} a m t.
Arguments Exited {A} t.

Definition Prog (A : Type) : Type := Microkubed -> Outcome A.

Definition ret {A : Type} (a : A) : Prog A :=
  fun m => Done a m [].

Definition bind {A B : Type} (p : Prog A) (k : A -> Prog B) : Prog B :=
  fun m =>
    match p m with
    | Done a m1 t1 =>
        match k a m1 with
        | Done b m2 t2 => Done b m2 (t1 ++ t2)
        | Exited t2 => Exited (t1 ++ t2)
        end
    | Exited t1 => Exited t1
    end.

Declare Scope prog_scope.
Delimit Scope prog_scope with prog.
Notation "x <- c ;; k" := (bind c (fun x => k))
  (at level 61, c at next level, right associativity) : prog_scope.
Notation "c ;; k" := (bind c (fun _ => k))
  (at level 61, right associativity) : prog_scope.
Local Open Scope prog_scope.

Definition get : Prog Microkubed :=
  fun m => Done m m [].

Definition put (m : Microkubed) : Prog unit :=
  fun _ => Done tt m [].

Definition emit (e : Event) : Prog unit :=
  fun m => Done tt m [e].

Definition trace_of {A : Type} (o : Outcome A) : Trace :=
  match o with
  | Done _ _ t => t
  | Exited t => t
  end.

Definition exited {A : Type} (o : Outcome A) : bool :=
  match o with
  | Done _ _ _ => false
  | Exited _ => true
  end.

(** *** logrus *)

Definition log (l : Level) (fs : list (string * Value)) (msg : string) : Prog unit :=
  emit (ELog (mkEntry l fs msg)).

(** The exit handler [Run] registers with [log.RegisterExitHandler]:
    stop every registered service handler, unless graceful termination
    mode has been entered. *)
Definition exitHandlerHook (m : Microkubed) : Trace :=
  if negb (gracefulTerminationMode m)
  then map EStop (serviceHandlers m)
  else [].

(** [log.Fatal]: write the entry, run the registered exit handlers, call
    [os.Exit(1)]. All the code below runs after [Run] has registered its
    handler. *)
Definition Fatal {A : Type} (fs : list (string * Value)) (msg : string) : Prog A :=
  fun m => Exited ([ELog (mkEntry FatalLevel fs msg)] ++ exitHandlerHook m ++ [EOsExit 1]).

(** *** Field updates of [Microkubed] *)

Definition set_gracefulTerminationMode (b : bool) (m : Microkubed) : Microkubed :=
  mkMicrokubed b (serviceHandlers m) (baseDir m) (etcdBin m) (hyperkubeBin m)
    (kubeconfig m) (serviceList m) (enableKubeDash m) (enableDns m)
    (sigRelay m).

Definition set_serviceHandlers (l : list ServiceHandler) (m : Microkubed) : Microkubed :=
  mkMicrokubed (gracefulTerminationMode m) l (baseDir m) (etcdBin m) (hyperkubeBin m)
    (kubeconfig m) (serviceList m) (enableKubeDash m) (enableDns m)
    (sigRelay m).

Definition set_etcdBin (s : string) (m : Microkubed) : Microkubed :=
  mkMicrokubed (gracefulTerminationMode m) (serviceHandlers m) (baseDir m) s
    (hyperkubeBin m) (kubeconfig m) (serviceList m) (enableKubeDash m) (enableDns m)
    (sigRelay m).

Definition set_hyperkubeBin (s : string) (m : Microkubed) : Microkubed :=
  mkMicrokubed (gracefulTerminationMode m) (serviceHandlers m) (baseDir m) (etcdBin m)
    s (kubeconfig m) (serviceList m) (enableKubeDash m) (enableDns m)
    (sigRelay m).

Definition set_kubeconfig (s : string) (m : Microkubed) : Microkubed :=
  mkMicrokubed (gracefulTerminationMode m) (serviceHandlers m) (baseDir m) (etcdBin m)
    (hyperkubeBin m) s (serviceList m) (enableKubeDash m) (enableDns m)
    (sigRelay m).

Definition set_serviceList (l : list serviceEntry) (m : Microkubed) : Microkubed :=
  mkMicrokubed (gracefulTerminationMode m) (serviceHandlers m) (baseDir m) (etcdBin m)
    (hyperkubeBin m) (kubeconfig m) l (enableKubeDash m) (enableDns m)
    (sigRelay m).

Definition set_sigRelay (l : list Signal) (m : Microkubed) : Microkubed :=
  mkMicrokubed (gracefulTerminationMode m) (serviceHandlers m) (baseDir m) (etcdBin m)
    (hyperkubeBin m) (kubeconfig m) (serviceList m) (enableKubeDash m) (enableDns m) l.

Definition modify (f : Microkubed -> Microkubed) : Prog unit :=
  fun m => Done tt (f m) [].

(** [m.serviceHandlers = append(m.serviceHandlers, h)] *)
Definition appendHandler (h : ServiceHandler) : Prog unit :=
  modify (fun m => set_serviceHandlers (serviceHandlers m ++ [h]) m).

(** [m.serviceList = append(m.serviceList, e)] *)
Definition appendEntry (e : serviceEntry) : Prog unit :=
  modify (fun m => set_serviceList (serviceList m ++ [e]) m).

(** *** startService *)

(** A [serviceConstructor] returns the handler and an error; which
    [New...Handler] calls fail is the world's decision. *)
Definition serviceConstructor : Type := World -> ServiceHandler * option string.

(** The [exitHandler] closure [startService] hands to the constructor;
    the process handle calls it when the process of [name] has ended. *)
Definition exitHandler (name : string) (success : bool) (exitError : option string) : Prog unit :=
  log ErrorLevel [("success", VBool success); ("app", VStr name); ("error", VErr exitError)]
      (name ++ " stopped!")%string ;;
  m <- get ;;
  (if negb (gracefulTerminationMode m)
   then Fatal [("success", VBool success); ("app", VStr name); ("error", VErr exitError)]
              "App exitted during startup phase, bailing out _now_"
   else ret tt) ;;
  emit (ESend (StateChan name) success).

(** The retry loop of [startService]:
    [for retries := 0; retries < 8 && !msg.IsHealthy; retries++].
    [fuel] bounds the number of iterations unfolded. *)
Fixpoint healthGate (w : World) (name : string) (serviceHandler : ServiceHandler)
    (fuel : nat) (retries : Z) (msg : HealthMessage) : Prog HealthMessage :=
  match fuel with
  | O => ret msg
  | S fuel' =>
      if (retries <? 8) && negb (IsHealthy msg) then
        emit (ESleep (1 * Second)) ;;
        emit (EHealthChecks serviceHandler (HealthChan name) false) ;;
        emit (ERecv (HealthChan name)) ;;
        let msg' := probe w name retries in
        log DebugLevel [("app", VStr name); ("health", VBool (IsHealthy msg'))] "Healthcheck" ;;
        healthGate w name serviceHandler fuel' (retries + 1) msg'
      else ret msg
  end.

(** The loop leaves after at most eight iterations, so eight units of
    fuel are all it can use. *)
Definition gateFuel : nat := 8.

Definition startService (w : World) (name : string) (constructor : serviceConstructor)
    : Prog (ServiceHandler * Chan * Chan) :=
  let stateChan := StateChan name in
  let healthChan := HealthChan name in
  let '(serviceHandler, err) := constructor w in
  match err with
  | Some e => Fatal [("error", VErr (Some e))] ("Couldn't create " ++ name ++ " handler")%string
  | None =>
      emit (EStart serviceHandler) ;;
      match start_err w name with
      | Some e => Fatal [("error", VErr (Some e))] ("Couldn't start " ++ name)%string
      | None =>
          msg <- healthGate w name serviceHandler gateFuel 0 (mkHealthMessage false None) ;;
          if negb (IsHealthy msg)
          then Fatal [("error", VErr (Error msg))] (name ++ " didn't become healthy in time!")%string
          else ret (serviceHandler, stateChan, healthChan)
      end
  end.

(** *** The six services *)

Definition startEtcd (w : World) : Prog unit :=
  r <- startService w "etcd" (fun _ => (Handler "etcd", None)) ;;
  let '(etcdHandler, etcdChan, etcdHealthChan) := r in
  appendHandler etcdHandler ;;
  log InfoLevel [] "ETCD ready" ;;
  appendEntry (mkServiceEntry etcdChan etcdHealthChan etcdHandler "etcd").

(** [path.Join(m.baseDir, "kube/", "kubeconfig")], for a base directory
    that is already clean. *)
Definition kubeconfigPath (m : Microkubed) : string :=
  (baseDir m ++ "/kube/kubeconfig")%string.

Definition startKubeAPIServer (w : World) : Prog unit :=
  log InfoLevel [] "Starting kube api server..." ;;
  r <- startService w "kube-apiserver" (fun _ => (Handler "kube-apiserver", None)) ;;
  let '(kubeAPIHandler, kubeAPIChan, kubeAPIHealthChan) := r in
  appendHandler kubeAPIHandler ;;
  log InfoLevel [] "Kube api server ready" ;;
  log InfoLevel [] "Generating kubeconfig..." ;;
  (if kubeconfig_missing w then
     log DebugLevel [] "Creating kubeconfig" ;;
     match kubeconfig_err w with
     | Some e => Fatal [("error", VErr (Some e))] "Couldn't create kubeconfig!"
     | None => ret tt
     end
   else ret tt) ;;
  modify (fun m => set_kubeconfig (kubeconfigPath m) m) ;;
  appendEntry (mkServiceEntry kubeAPIChan kubeAPIHealthChan kubeAPIHandler "kube-api").

Definition startKubeControllerManager (w : World) : Prog unit :=
  log InfoLevel [] "Starting controller-manager..." ;;
  r <- startService w "kube-controller-manager"
         (fun _ => (Handler "kube-controller-manager", None)) ;;
  let '(kubeCtrlMgrHandler, kubeCtrlMgrChan, kubeCtrlMgrHealthChan) := r in
  appendHandler kubeCtrlMgrHandler ;;
  log InfoLevel [] "Kube controller-manager ready" ;;
  appendEntry (mkServiceEntry kubeCtrlMgrChan kubeCtrlMgrHealthChan kubeCtrlMgrHandler
                 "kube-controller-manager").

Definition startKubeScheduler (w : World) : Prog unit :=
  log InfoLevel [] "Starting kube-scheduler..." ;;
  r <- startService w "kube-scheduler"
         (fun w => (Handler "kube-scheduler", newHandler_err w "kube-scheduler")) ;;
  let '(kubeSchedHandler, kubeSchedChan, kubeSchedHealthChan) := r in
  appendHandler kubeSchedHandler ;;
  log InfoLevel [] "Kube-scheduler ready" ;;
  appendEntry (mkServiceEntry kubeSchedChan kubeSchedHealthChan kubeSchedHandler
                 "kube-scheduler").

Definition startKubelet (w : World) : Prog unit :=
  log InfoLevel [] "Starting kubelet..." ;;
  r <- startService w "kubelet" (fun w => (Handler "kubelet", newHandler_err w "kubelet")) ;;
  let '(kubeletHandler, kubeletChan, kubeletHealthChan) := r in
  appendHandler kubeletHandler ;;
  log InfoLevel [] "Kubelet ready" ;;
  appendEntry (mkServiceEntry kubeletChan kubeletHealthChan kubeletHandler "kubelet").

(** [startKubeProxy] defers [kubeProxyHandler.Stop()] right after
    [startService] has returned; the deferred call runs when the function
    returns. *)
Definition startKubeProxy (w : World) : Prog unit :=
  log InfoLevel [] "Starting kube-proxy..." ;;
  r <- startService w "kube-proxy"
         (fun w => (Handler "kube-proxy", newHandler_err w "kube-proxy")) ;;
  let '(kubeProxyHandler, kubeProxyChan, kubeProxyHealthChan) := r in
  appendHandler kubeProxyHandler ;;
  log InfoLevel [] "kube-proxy ready" ;;
  appendEntry (mkServiceEntry kubeProxyChan kubeProxyHealthChan kubeProxyHandler
                 "kube-proxy") ;;
  emit (EStop kubeProxyHandler).

(** *** start *)

(** [createDirectories] only touches the file system; of its behaviour
    the supervision code sees whether one of its [Fatal] calls is
    reached. *)
Definition createDirectories (w : World) : Prog unit :=
  match createDirectories_fatal w with
  | Some msg => Fatal [] msg
  | None => ret tt
  end.

Definition findBinaries (w : World) : Prog unit :=
  match findBinary_err w "etcd" with
  | Some e => Fatal [("error", VErr (Some e))] "Couldn't find etcd binary"
  | None => modify (set_etcdBin "etcd")
  end ;;
  match findBinary_err w "hyperkube" with
  | Some e => Fatal [("error", VErr (Some e))] "Couldn't find hyperkube binary"
  | None => modify (set_hyperkubeBin "hyperkube")
  end.

(** [start] starts all cluster services. *)
Definition start (w : World) : Prog unit :=
  createDirectories w ;;
  match credentials_err w with
  | Some e => Fatal [("error", VErr (Some e))] "Couldn't init credentials!"
  | None => ret tt
  end ;;
  findBinaries w ;;
  startEtcd w ;;
  startKubeAPIServer w ;;
  startKubeControllerManager w ;;
  startKubeScheduler w ;;
  startKubelet w ;;
  startKubeProxy w.

(** *** Steady-state monitoring *)

(** What the [select] of [checkService] can receive: a value from
    [handler.exitChan] or a message from [handler.healthChan]. *)
Inductive MonitorEvent : Type :=
| ExitEvent (success : bool)
| HealthEvent (msg : HealthMessage).

(** One iteration of the [for { select { ... } }] loop of [checkService],
    with the current [unhealthyCount]; the result is the new count. *)
Definition checkService_iter (handler : serviceEntry) (unhealthyCount : Z)
    (ev : MonitorEvent) : Prog Z :=
  match ev with
  | ExitEvent _ =>
      m <- get ;;
      (if negb (gracefulTerminationMode m)
       then Fatal [] ("Service " ++ name handler ++ " exitted, aborting!")%string
       else ret tt) ;;
      ret unhealthyCount
  | HealthEvent msg =>
      if negb (IsHealthy msg) then
        log WarnLevel [("app", VStr (name handler)); ("count", VInt unhealthyCount)]
            "unhealthy!" ;;
        let unhealthyCount := unhealthyCount + 1 in
        (if unhealthyCount =? 10
         then Fatal [("app", VStr (name handler)); ("count", VInt unhealthyCount)]
                    "Too many failed health checks, aborting!"
         else ret tt) ;;
        ret unhealthyCount
      else
        log DebugLevel [("app", VStr (name handler))] "healthy" ;;
        ret 0
  end.

(** The loop never leaves by itself; [checkService_loop] runs it over
    the events received so far. *)
Fixpoint checkService_loop (handler : serviceEntry) (unhealthyCount : Z)
    (events : list MonitorEvent) : Prog Z :=
  match events with
  | [] => ret unhealthyCount
  | ev :: rest =>
      c <- checkService_iter handler unhealthyCount ev ;;
      checkService_loop handler c rest
  end.

Definition checkService (handler : serviceEntry) (events : list MonitorEvent) : Prog Z :=
  checkService_loop handler 0 events.

Fixpoint enableHealthChecks_range (l : list serviceEntry) : Prog unit :=
  match l with
  | [] => ret tt
  | handler :: rest =>
      log DebugLevel [("app", VStr (name handler))] "Enabling health check..." ;;
      emit (EHealthChecks (Orchestrator.handler handler) (healthChan handler) true) ;;
      emit (EGo ("checkService " ++ name handler)%string) ;;
      enableHealthChecks_range rest
  end.

(** [enableHealthChecks] starts the periodic health checks and one
    [checkService] goroutine per entry of [m.serviceList]. *)
Definition enableHealthChecks : Prog unit :=
  m <- get ;;
  enableHealthChecks_range (serviceList m).

(** *** Graceful termination *)

(** The goroutine [waitUntilNodeReady] starts: wait for a signal, drain
    the node, then tell [Run]. *)
Definition signalGoroutine : Prog unit :=
  emit (ERecv SigChan) ;;
  log InfoLevel [] "Shutting down..." ;;
  emit EDrainNode ;;
  emit (ESend ExitChan true).

(** [make(chan os.Signal, 1)]: nothing is relayed to a new channel. *)
Definition makeSigChan : Prog Chan :=
  modify (set_sigRelay []) ;;
  ret SigChan.

(** [signal.Reset(sigs...)] undoes every [signal.Notify] for the given
    signals. *)
Definition signalReset (sigs : list Signal) : Prog unit :=
  emit (ESignalReset sigs) ;;
  modify (fun m =>
            set_sigRelay
              (filter (fun s => negb (existsb (Signal_eqb s) sigs)) (sigRelay m)) m).

(** [signal.Notify(c, sigs...)] makes the runtime relay the given
    signals to [c]. *)
Definition signalNotify (c : Chan) (sigs : list Signal) : Prog unit :=
  emit (ESignalNotify c sigs) ;;
  modify (fun m => set_sigRelay (sigRelay m ++ sigs) m).

Definition waitUntilNodeReady (w : World) : Prog Chan :=
  match kubeClient_err w with
  | Some e => Fatal [("error", VErr (Some e))] "Couldn't init kube client"
  | None => ret tt
  end ;;
  log InfoLevel [] "Waiting for node..." ;;
  emit EWaitForNode ;;
  sigChan <- makeSigChan ;;
  let exitChan := ExitChan in
  emit (EGo "signalGoroutine") ;;
  signalReset [Interrupt; Kill] ;;
  signalNotify sigChan [Interrupt; Kill] ;;
  log InfoLevel [] "Exit handler enabled..." ;;
  modify (set_gracefulTerminationMode true) ;;
  ret exitChan.

(** [startServices] applies the manifests of the enabled cluster addons;
    every failure in it is a warning. *)
Definition startServices : Prog unit :=
  m <- get ;;
  (if enableKubeDash m then emit (EManifest "kube-dash") else ret tt) ;;
  (if enableDns m then emit (EManifest "dns") else ret tt).

(** [PrintInfoMessage] writes the banner at [Info] level. *)
Definition PrintInfoMessage : Prog unit :=
  log InfoLevel [] "Microkube is up!".

Fixpoint stopAll (l : list ServiceHandler) : Prog unit :=
  match l with
  | [] => ret tt
  | h :: rest => emit (EStop h) ;; stopAll rest
  end.

(** [Run] up to the point where it waits on [exitChan]. The argument
    handling at its beginning fills the fields of the initial
    [Microkubed]. *)
Definition Run_startup (w : World) : Prog Chan :=
  modify (set_gracefulTerminationMode false) ;;
  start w ;;
  exitChan <- waitUntilNodeReady w ;;
  enableHealthChecks ;;
  startServices ;;
  PrintInfoMessage ;;
  emit (ESdNotify "READY=1") ;;
  ret exitChan.

(** [Run] from the point where [<-exitChan] has delivered. *)
Definition Run_shutdown : Prog unit :=
  log InfoLevel [("app", VStr "microkube")] "Exit signal received, stopping now." ;;
  emit (ESdNotify "STOPPING=1") ;;
  m <- get ;;
  stopAll (serviceHandlers m) ;;
  emit (ESleep (7 * Second)).

(** What the runtime does with a signal the process receives: a signal
    that can be caught and that [signal.Notify] has asked for is sent on
    [sigChan]; any other ends the process there and then, without
    running an exit handler or a deferred call. *)
Definition deliver (sig : Signal) : Prog unit :=
  m <- get ;;
  if catchable sig && existsb (Signal_eqb sig) (sigRelay m)
  then emit (ESignalRelay sig SigChan)
  else fun _ => Exited [ESignalled sig].

(** [Run] in an execution in which the process receives [sig] once [Run]
    has begun to wait on [exitChan]. If the signal gets to [sigChan],
    the goroutine of [waitUntilNodeReady] goes on, and the receive from
    [exitChan] completes after the only send on it, at the end of
    [signalGoroutine]. This is the path of the main goroutine: what the
    monitors and the exit handlers do beside it is [checkService] and
    [exitHandler]. *)
Definition Run (w : World) (sig : Signal) : Prog unit :=
  exitChan <- Run_startup w ;;
  deliver sig ;;
  signalGoroutine ;;
  emit (ERecv exitChan) ;;
  Run_shutdown.

(** *** Observations on traces *)

(** The handlers [Start()] was called on, in order. *)
Fixpoint started (t : Trace) : list ServiceHandler :=
  match t with
  | [] => []
  | EStart h :: rest => h :: started rest
  | _ :: rest => started rest
  end.

(** The handlers [Stop()] was called on, in order. *)
Fixpoint stopped (t : Trace) : list ServiceHandler :=
  match t with
  | [] => []
  | EStop h :: rest => h :: stopped rest
  | _ :: rest => stopped rest
  end.

(** The number of single health probes requested. *)
Fixpoint probes (t : Trace) : nat :=
  match t with
  | [] => O
  | EHealthChecks _ _ false :: rest => S (probes rest)
  | _ :: rest => probes rest
  end.

(** A health message that reports the service as not healthy. *)
Definition unhealthy (msg : HealthMessage) : Prop := IsHealthy msg = false.

(** The fixed order in which [start] starts the services. *)
Definition serviceOrder : list string :=
  [ "etcd"; "kube-apiserver"; "kube-controller-manager"; "kube-scheduler";
    "kubelet"; "kube-proxy" ].

(** What one round of the startup health gate emits. *)
Definition gateRound (w : World) (name : string) (h : ServiceHandler) (retries : Z) : Trace :=
  [ ESleep (1 * Second);
    EHealthChecks h (HealthChan name) false;
    ERecv (HealthChan name);
    ELog (mkEntry DebugLevel
            [("app", VStr name); ("health", VBool (IsHealthy (probe w name retries)))]
            "Healthcheck") ].

(** The rounds [first], [first + 1], ..., [first + n - 1]. *)
Fixpoint gateRounds (w : World) (name : string) (h : ServiceHandler) (first : Z) (n : nat)
    : Trace :=
  match n with
  | O => []
  | S n' => gateRound w name h first ++ gateRounds w name h (first + 1) n'
  end.

(** A log entry names a service when the service's name is part of the
    message or is the value of the [app] field. *)
Definition names_service (e : Entry) (service : string) : Prop :=
  (exists a b, message e = (a ++ service ++ b)%string) \/
  In ("app", VStr service) (fields e).

(** The events of a process exit through [log.Fatal] with [e] as its
    entry that stops the handlers [hs] first. *)
Definition fatalExit (e : Entry) (hs : list ServiceHandler) : Trace :=
  [ELog e] ++ map EStop hs ++ [EOsExit 1].

(** The six calls of [start], in the order of the source. *)
Definition stages (w : World) : list (Prog unit) :=
  [ startEtcd w; startKubeAPIServer w; startKubeControllerManager w;
    startKubeScheduler w; startKubelet w; startKubeProxy w ].

(** The list run in sequence, as [start] runs its six calls. *)
Fixpoint runStages (l : list (Prog unit)) : Prog unit :=
  match l with
  | [] => ret tt
  | p :: rest =>
      match rest with
      | [] => p
      | _ :: _ => p ;; runStages rest
      end
  end.

(** What one of the six calls may do when it is run from [m] for
    [service]: either it returns, and then the service was started, had a
    healthy probe within the retry budget and is registered; or the
    process exits through [log.Fatal], which stops the handlers
    registered at that moment. *)
Definition stageSpec (w : World) (service : string) (m : Microkubed) (o : Outcome unit)
    : Prop :=
  match o with
  | Done _ m' t =>
      started t = [Handler service] /\
      serviceHandlers m' = serviceHandlers m ++ [Handler service] /\
      gracefulTerminationMode m' = gracefulTerminationMode m /\
      (exists i, 0 <= i < 8 /\ IsHealthy (probe w service i) = true)
  | Exited t =>
      exists t0 e hs,
        t = t0 ++ fatalExit e (if gracefulTerminationMode m then [] else hs) /\
        (started t0 = [] \/ started t0 = [Handler service]) /\
        (hs = serviceHandlers m \/ hs = serviceHandlers m ++ [Handler service])
  end.

(** A world in which every step succeeds and every probe is healthy. *)
Definition healthyWorld : World :=
  mkWorld None None (fun _ => None) (fun _ => None) (fun _ => None)
    (fun _ _ => mkHealthMessage true None) false None None.

(** A world like [healthyWorld] in which the probes of [service] are
    never healthy. *)
Definition sickWorld (service : string) : World :=
  mkWorld None None (fun _ => None) (fun _ => None) (fun _ => None)
    (fun s _ => if String.eqb s service
                then mkHealthMessage false (Some "connection refused")
                else mkHealthMessage true None)
    false None None.

(** A world like [healthyWorld] in which [Start()] of [service] fails. *)
Definition brokenWorld (service : string) : World :=
  mkWorld None None (fun _ => None) (fun _ => None)
    (fun s => if String.eqb s service then Some "fork/exec: no such file or directory"
              else None)
    (fun _ _ => mkHealthMessage true None) false None None.

(** A world like [healthyWorld] in which [service] turns healthy with
    its third probe. *)
Definition slowWorld (service : string) : World :=
  mkWorld None None (fun _ => None) (fun _ => None) (fun _ => None)
    (fun s retries => if String.eqb s service && (retries <? 2)
                      then mkHealthMessage false (Some "connection refused")
                      else mkHealthMessage true None)
    false None None.

Definition initial : Microkubed :=
  mkMicrokubed false [] "/var/lib/mukube" "" "" "" [] false false [].

(** The state in which [Run] waits for the exit signal in
    [healthyWorld]: all six services run and the node is ready. *)
Definition readyState : Microkubed :=
  match Run_startup healthyWorld initial with
  | Done _ m _ => m
  | Exited _ => initial
  end.

(** The entry of [m.serviceList] for etcd. *)
Definition etcdEntry : serviceEntry :=
  mkServiceEntry (StateChan "etcd") (HealthChan "etcd") (Handler "etcd") "etcd".

Definition refused : HealthMessage :=
  mkHealthMessage false (Some "connection refused").

End Orchestrator.

(* ===================================================================== *)
(** ** pkg/helpers: the process handle *)
(* ===================================================================== *)

Module Helpers.

(** The file of the process handle, pkg/helpers/CmdHandler.go, is not
    among the sources; its tests and its use in [KubeletHandler] are.
    The handle is modelled from the spec, and the callbacks it is
    constructed with appear as events of its trace. *)

(** How the operating system reports the end of a process. *)
Inductive Termination : Type :=
| Exits (code : Z)
| Signaled (signal : Z).

(** Modelled from the spec: exit code 0 is success; any other value, and
    the end by a signal, is a failure. A process ended by a signal has
    no exit code of its own, it counts as -1. *)
Definition exitCode (tm : Termination) : Z :=
  match tm with
  | Exits code => code
  | Signaled _ => -1
  end.

Inductive Task : Type :=
| StdoutCapture
| StderrCapture
| ExitWait.

Inductive ProcEvent : Type :=
| PSpawn (binary : string) (args : list string)
| PGo (task : Task)
| PKill
| PExitCallback (success : bool) (exitError : option Termination).

(** Modelled from the spec: the process handle ([CmdHandler], file
    pkg/helpers/CmdHandler.go) is missing from the sources, only its
    tests are there. The fields are those of the spec's data model that
    the lifecycle depends on; [process] is the handle of the operating
    system process, released when the exit callback has fired. *)
Record CmdHandler : Type := mkCmdHandler {
  binary : string;
  args : list string;
  process : bool;
  startedFlag : bool;
  stoppedFlag : bool
}.

(** Modelled from the spec: a new handle has no process and is neither
    started nor stopped. *)
Definition NewCmdHandler (binary : string) (args : list string) : CmdHandler :=
  mkCmdHandler binary args false false false.

(** What the operating system decides about starting a binary: can it
    be located and executed? *)
Record OS : Type := mkOS {
  executable : string -> bool
}.

(** Modelled from the spec: [Start()] spawns the binary with the given
    arguments and fails synchronously, with no background task started,
    if the binary cannot be located or executed; on success it starts
    the two capture tasks and the task that waits for the exit. *)
Definition Start (os : OS) (h : CmdHandler) : CmdHandler * option string * list ProcEvent :=
  if executable os (binary h)
  then (mkCmdHandler (binary h) (args h) true true (stoppedFlag h), None,
        [PSpawn (binary h) (args h); PGo StdoutCapture; PGo StderrCapture; PGo ExitWait])
  else (h, Some ("exec: " ++ binary h ++ ": not found")%string, []).

(** Modelled from the spec: [Stop()] requests termination and returns
    without waiting; before [Start()], after the exit, and on a handle
    that was stopped already it sends no signal. *)
Definition Stop (h : CmdHandler) : CmdHandler * list ProcEvent :=
  if startedFlag h && negb (stoppedFlag h) && process h
  then (mkCmdHandler (binary h) (args h) (process h) (startedFlag h) true, [PKill])
  else (h, []).

(** Modelled from the spec: the task that waits for the exit invokes the
    exit callback with success iff the exit code is 0, and with the
    error detail otherwise; the process handle is then released. A
    handle without a process has no such task. *)
Definition onTermination (h : CmdHandler) (tm : Termination) : CmdHandler * list ProcEvent :=
  if process h
  then (mkCmdHandler (binary h) (args h) false (startedFlag h) (stoppedFlag h),
        [PExitCallback (exitCode tm =? 0) (if exitCode tm =? 0 then None else Some tm)])
  else (h, []).

(** What can happen to a handle after [Start()]: its owner calls
    [Stop()], or the operating system reports the end of the process. *)
Inductive Action : Type :=
| AStop
| ATerminate (tm : Termination).

Definition act (h : CmdHandler) (a : Action) : CmdHandler * list ProcEvent :=
  match a with
  | AStop => Stop h
  | ATerminate tm => onTermination h tm
  end.

Fixpoint run (h : CmdHandler) (acts : list Action) : CmdHandler * list ProcEvent :=
  match acts with
  | [] => (h, [])
  | a :: rest =>
      let '(h1, t1) := act h a in
      let '(h2, t2) := run h1 rest in
      (h2, t1 ++ t2)
  end.

(** [Start()] followed by [acts]. *)
Definition lifecycle (os : OS) (h : CmdHandler) (acts : list Action) : option string * list ProcEvent :=
  let '(h1, err, t1) := Start os h in
  (err, t1 ++ snd (run h1 acts)).

(** The success flags of the exit callbacks in a trace. *)
Fixpoint exitCallbacks (t : list ProcEvent) : list bool :=
  match t with
  | [] => []
  | PExitCallback success _ :: rest => success :: exitCallbacks rest
  | _ :: rest => exitCallbacks rest
  end.

(** The number of background tasks started. *)
Fixpoint tasks (t : list ProcEvent) : nat :=
  match t with
  | [] => O
  | PGo _ :: rest => S (tasks rest)
  | _ :: rest => tasks rest
  end.

(** The number of kill signals sent. *)
Fixpoint kills (t : list ProcEvent) : nat :=
  match t with
  | [] => O
  | PKill :: rest => S (kills rest)
  | _ :: rest => kills rest
  end.

Definition isStop (a : Action) : bool :=
  match a with
  | AStop => true
  | ATerminate _ => false
  end.

(** The machine of the tests: the shells exist, [/bin/FooBarBazBash]
    does not. *)
Definition testOS : OS :=
  mkOS (fun b => String.eqb b "/bin/bash" || String.eqb b "/bin/sh"
                 || String.eqb b "/usr/bin/pkexec").

End Helpers.

(* ===================================================================== *)
(** ** pkg/handlers/kube/KubeletHandler.go *)
(* ===================================================================== *)

Module Kube.

Import Helpers.

(** [KubeletHandler]. [cmd] is [nil] until [Start()] has made the
    process handle. [healthChecks] is the state of the embedded
    [BaseServiceHandler]: is the periodic prober running? *)
Record KubeletHandler : Type := mkKubeletHandler {
  cmd : option CmdHandler;
  binary : string;
  sudoBin : string;
  listenAddress : string;
  rootDir : string;
  kubeconfig : string;
  config : string;
  healthChecks : bool
}.

Definition set_cmd (c : option CmdHandler) (handler : KubeletHandler) : KubeletHandler :=
  mkKubeletHandler c (binary handler) (sudoBin handler) (listenAddress handler)
    (rootDir handler) (kubeconfig handler) (config handler) (healthChecks handler).

Definition set_healthChecks (b : bool) (handler : KubeletHandler) : KubeletHandler :=
  mkKubeletHandler (cmd handler) (binary handler) (sudoBin handler) (listenAddress handler)
    (rootDir handler) (kubeconfig handler) (config handler) b.

(** [stop]: stop the child process, if there is a process handle. *)
Definition stop (handler : KubeletHandler) : KubeletHandler * list ProcEvent :=
  match cmd handler with
  | Some c =>
      let '(c', t) := Helpers.Stop c in
      (set_cmd (Some c') handler, t)
  | None => (handler, [])
  end.

(** [path.Join] of a clean directory and a relative path. *)
Definition join (dir rel : string) : string := (dir ++ "/" ++ rel)%string.

(** [Start]: [cniPrepared] says whether [os.Stat] finds the bridge
    plugin under the root directory. *)
Definition Start (os : OS) (cniPrepared : bool) (handler : KubeletHandler)
    : KubeletHandler * option string * list ProcEvent :=
  let cniDir :=
    if cniPrepared then join (rootDir handler) "kubelet/cni"
    else "/usr/lib/x86_64-linux-gnu/libexec/cni-plugins" in
  let c := NewCmdHandler (sudoBin handler)
    [ binary handler; "kubelet";
      "--config"; config handler;
      "--node-ip"; listenAddress handler;
      "--kubeconfig"; kubeconfig handler;
      "--cni-bin-dir"; cniDir;
      "--root-dir"; join (rootDir handler) "kubelet";
      "--seccomp-profile-root"; join (rootDir handler) "kubelet/seccomp";
      "--bootstrap-checkpoint-path"; join (rootDir handler) "kubelet/checkpoint";
      "--network-plugin"; "kubenet";
      "--runtime-cgroups"; "/systemd/system.slice" ] in
  let '(c', err, t) := Helpers.Start os c in
  (set_cmd (Some c') handler, err, t).

(** Modelled from the spec: [Stop()] of the embedded
    [BaseServiceHandler] (pkg/handlers/BaseServiceHandler.go is missing
    from the sources) delegates to the stop hook it was constructed
    with, here [stop], and ends the periodic prober. *)
Definition Stop (handler : KubeletHandler) : KubeletHandler * list ProcEvent :=
  let '(handler', t) := stop handler in
  (set_healthChecks false handler', t).

(** The handler [NewKubeletHandler] returns: no process handle yet. *)
Definition NewKubeletHandler (binary sudoBin listenAddress workdir kubeconfig : string)
    : KubeletHandler :=
  mkKubeletHandler None binary sudoBin listenAddress workdir kubeconfig
    (join workdir "kubelet.cfg") false.

(** The process of a started handler ends as [tm]. *)
Definition terminated (handler : KubeletHandler) (tm : Termination)
    : KubeletHandler * list ProcEvent :=
  match cmd handler with
  | Some c =>
      let '(c', t) := onTermination c tm in
      (set_cmd (Some c') handler, t)
  | None => (handler, [])
  end.

End Kube.

(* ===================================================================== *)
(** ** Go's strings package, as far as the sources use it *)
(* ===================================================================== *)

Module GoStrings.

(** [len(s)]: strings are byte sequences. *)
Definition len (s : string) : Z := Z.of_nat (String.length s).

Fixpoint take (n : nat) (s : string) : string :=
  match n, s with
  | S n', String c s' => String c (take n' s')
  | _, _ => EmptyString
  end.

Fixpoint drop (n : nat) (s : string) : string :=
  match n, s with
  | S n', String _ s' => drop n' s'
  | _, _ => s
  end.

(** [s[:hi]]; out of range the slice expression panics ([None]). *)
Definition sliceTo (s : string) (hi : Z) : option string :=
  if (0 <=? hi) && (hi <=? len s) then Some (take (Z.to_nat hi) s) else None.

(** [s[lo:]]; out of range the slice expression panics ([None]). *)
Definition sliceFrom (s : string) (lo : Z) : option string :=
  if (0 <=? lo) && (lo <=? len s) then Some (drop (Z.to_nat lo) s) else None.

(** [strings.HasPrefix(s, prefix)] *)
Definition HasPrefix (s prefix : string) : bool := String.prefix prefix s.

(** [strings.Index(s, substr)]: the index of the first instance of
    [substr] in [s], or -1 if [substr] is not present in [s]. *)
Fixpoint Index (s substr : string) : Z :=
  if String.prefix substr s then 0
  else match s with
       | EmptyString => -1
       | String _ s' =>
           let i := Index s' substr in
           if i <? 0 then -1 else i + 1
       end.

(** [strings.Repeat(s, count)]; it panics ([None]) if [count] is
    negative. *)
Definition Repeat (s : string) (count : Z) : option string :=
  if count <? 0 then None
  else Some (String.concat EmptyString (List.repeat s (Z.to_nat count))).

Fixpoint contains (cutset : string) (c : Ascii.ascii) : bool :=
  match cutset with
  | EmptyString => false
  | String x rest => Ascii.eqb x c || contains rest c
  end.

(** [strings.TrimLeft(s, cutset)] *)
Fixpoint TrimLeft (s cutset : string) : string :=
  match s with
  | EmptyString => EmptyString
  | String c s' => if contains cutset c then TrimLeft s' cutset else s
  end.

(** [strings.TrimRight(s, cutset)] *)
Fixpoint TrimRight (s cutset : string) : string :=
  match s with
  | EmptyString => EmptyString
  | String c s' =>
      match TrimRight s' cutset with
      | EmptyString => if contains cutset c then EmptyString else String c EmptyString
      | r => String c r
      end
  end.

(** [strings.Trim(s, cutset)]: [s] with all leading and trailing bytes
    contained in [cutset] removed. *)
Definition Trim (s cutset : string) : string :=
  TrimRight (TrimLeft s cutset) cutset.

(** [regexp.MustCompile("[ ]+").ReplaceAllString(s, " ")]: every maximal
    run of spaces becomes one space. *)
Fixpoint collapseSpaces (s : string) : string :=
  match s with
  | EmptyString => EmptyString
  | String c s' =>
      if Ascii.eqb c " "%char then
        match s' with
        | String c' _ =>
            if Ascii.eqb c' " "%char then collapseSpaces s'
            else String c (collapseSpaces s')
        | EmptyString => String c EmptyString
        end
      else String c (collapseSpaces s')
  end.

(** All bytes of [s] satisfy [p]. *)
Fixpoint all (p : Ascii.ascii -> bool) (s : string) : bool :=
  match s with
  | EmptyString => true
  | String c s' => p c && all p s'
  end.

End GoStrings.

(* ===================================================================== *)
(** ** internal/log: the parser for kubernetes log lines *)
(* ===================================================================== *)

Module KubeLog.

Import GoStrings.

Definition bslashN : string := String (Ascii.ascii_of_nat 10) EmptyString.
Definition colonSpace : string := ": ".
Definition lsbrckRestfulRsbrckSpace : string := "[restful] ".
Definition lsbrckRestfulSlashSwaggerRsbrckSpace : string := "[restful/swagger] ".
Definition rsbrckSpace : string := "] ".
Definition space : string := " ".

Record KubeLogLine : Type := mkKubeLogLine {
  rest : string;
  SeverityID : string;
  Time : string;
  UnknownAttribute : string;
  Location : string;
  Message : string
}.

(** The step the generated code repeats for every field:
    [pos = strings.Index(p.rest, sep)]; if [pos >= 0], the field is
    [p.rest[:pos]] and the new rest is [p.rest[pos+len(sep):]]. The outer
    [None] is a panic of a slice expression, the inner one is [pos < 0]. *)
Definition takeUntil (rest sep : string) : option (option (string * string)) :=
  let pos := Index rest sep in
  if 0 <=? pos then
    match sliceTo rest pos, sliceFrom rest (pos + len sep) with
    | Some field, Some rest' => Some (Some (field, rest'))
    | _, _ => None
    end
  else Some None.

(** [KubeLogLine.Extract]: the receiver as it is left, and the boolean
    result; the error result is always [nil]. [None] is a panic. *)
Definition Extract (p : KubeLogLine) (line : string) : option (KubeLogLine * bool) :=
  let p := mkKubeLogLine line (SeverityID p) (Time p) (UnknownAttribute p) (Location p)
             (Message p) in
  match takeUntil (rest p) space with
  | None => None
  | Some None => Some (p, false)
  | Some (Some (f, r)) =>
  let p := mkKubeLogLine r f (Time p) (UnknownAttribute p) (Location p) (Message p) in
  match takeUntil (rest p) space with
  | None => None
  | Some None => Some (p, false)
  | Some (Some (f, r)) =>
  let p := mkKubeLogLine r (SeverityID p) f (UnknownAttribute p) (Location p) (Message p) in
  match takeUntil (rest p) space with
  | None => None
  | Some None => Some (p, false)
  | Some (Some (f, r)) =>
  let p := mkKubeLogLine r (SeverityID p) (Time p) f (Location p) (Message p) in
  match takeUntil (rest p) rsbrckSpace with
  | None => None
  | Some None => Some (p, false)
  | Some (Some (f, r)) =>
  let p := mkKubeLogLine r (SeverityID p) (Time p) (UnknownAttribute p) f (Message p) in
  match takeUntil (rest p) bslashN with
  | None => None
  | Some None => Some (p, false)
  | Some (Some (f, r)) =>
  let p := mkKubeLogLine r (SeverityID p) (Time p) (UnknownAttribute p) (Location p) f in
  Some (p, true)
  end end end end end.

Record KubeLogLineRestful : Type := mkKubeLogLineRestful {
  restR : string;
  Date : string;
  TimeR : string;
  LocationR : string;
  MessageR : string
}.

(** The other step of the generated code: if the rest starts with
    [prefix], pass it: [p.rest = p.rest[len(prefix):]]. *)
Definition passPrefix (rest prefix : string) : option (option string) :=
  if HasPrefix rest prefix then
    match sliceFrom rest (len prefix) with
    | Some rest' => Some (Some rest')
    | None => None
    end
  else Some None.

(** [KubeLogLineRestful.Extract] *)
Definition ExtractRestful (p : KubeLogLineRestful) (line : string)
    : option (KubeLogLineRestful * bool) :=
  let p := mkKubeLogLineRestful line (Date p) (TimeR p) (LocationR p) (MessageR p) in
  match passPrefix (restR p) lsbrckRestfulRsbrckSpace with
  | None => None
  | Some None => Some (p, false)
  | Some (Some r) =>
  let p := mkKubeLogLineRestful r (Date p) (TimeR p) (LocationR p) (MessageR p) in
  match takeUntil (restR p) space with
  | None => None
  | Some None => Some (p, false)
  | Some (Some (f, r)) =>
  let p := mkKubeLogLineRestful r f (TimeR p) (LocationR p) (MessageR p) in
  match takeUntil (restR p) space with
  | None => None
  | Some None => Some (p, false)
  | Some (Some (f, r)) =>
  let p := mkKubeLogLineRestful r (Date p) f (LocationR p) (MessageR p) in
  match takeUntil (restR p) colonSpace with
  | None => None
  | Some None => Some (p, false)
  | Some (Some (f, r)) =>
  let p := mkKubeLogLineRestful r (Date p) (TimeR p) f (MessageR p) in
  match passPrefix (restR p) lsbrckRestfulSlashSwaggerRsbrckSpace with
  | None => None
  | Some None => Some (p, false)
  | Some (Some r) =>
  let p := mkKubeLogLineRestful r (Date p) (TimeR p) (LocationR p) (MessageR p) in
  match takeUntil (restR p) bslashN with
  | None => None
  | Some None => Some (p, false)
  | Some (Some (f, r)) =>
  let p := mkKubeLogLineRestful r (Date p) (TimeR p) (LocationR p) f in
  Some (p, true)
  end end end end end end.

(** The zero values [handleLine] starts from. *)
Definition emptyLine : KubeLogLine :=
  mkKubeLogLine "" "" "" "" "" "".

Definition emptyRestful : KubeLogLineRestful :=
  mkKubeLogLineRestful "" "" "" "" "".

(** What a call of [handleLine] does: it returns its error after having
    written log entries, or it panics. *)
Inductive Handled : Type :=
| Returned (err : option string) (entries : list Orchestrator.Entry)
| Panicked.

(** [s[0]]: the first byte; indexing an empty string panics. *)
Definition first (s : string) : option Ascii.ascii :=
  match s with
  | EmptyString => None
  | String c _ => Some c
  end.

Definition entry (l : Orchestrator.Level) (fs : list (string * Orchestrator.Value))
    (msg : string) : Orchestrator.Entry :=
  Orchestrator.mkEntry l fs msg.

Definition byteValue (c : Ascii.ascii) : Orchestrator.Value :=
  Orchestrator.VInt (Z.of_nat (Ascii.nat_of_ascii c)).

(** [KubeLogParser.handleLine] for the parser of application [app]. *)
Definition handleLine (app : string) (lineStr : string) : Handled :=
  if HasPrefix lineStr "[restful]" then
    match ExtractRestful emptyRestful lineStr with
    | None => Panicked
    | Some (line, ok) =>
        if negb ok then
          Returned None
            [entry Orchestrator.WarnLevel [("app", Orchestrator.VStr app)]
               (Trim lineStr bslashN)]
        else
          Returned None
            [entry Orchestrator.InfoLevel
               [("component", Orchestrator.VStr "restful");
                ("location", Orchestrator.VStr (LocationR line));
                ("app", Orchestrator.VStr app)]
               (MessageR line)]
    end
  else
    let lineStr := collapseSpaces lineStr in
    match Extract emptyLine lineStr with
    | None => Panicked
    | Some (line, ok) =>
        if ok then
          let fs := [("app", Orchestrator.VStr app);
                     ("location", Orchestrator.VStr (Location line))] in
          match first (SeverityID line) with
          | None => Panicked
          | Some c =>
              if Ascii.eqb c "I"%char then
                Returned None [entry Orchestrator.InfoLevel fs (Message line)]
              else if Ascii.eqb c "E"%char then
                Returned None [entry Orchestrator.ErrorLevel fs (Message line)]
              else if Ascii.eqb c "W"%char then
                Returned None [entry Orchestrator.WarnLevel fs (Message line)]
              else if Ascii.eqb c "D"%char then
                Returned None [entry Orchestrator.DebugLevel fs (Message line)]
              else if Ascii.eqb c "N"%char then
                Returned None [entry Orchestrator.InfoLevel fs (Message line)]
              else if Ascii.eqb c "S"%char then
                Returned None [entry Orchestrator.ErrorLevel fs (Message line)]
              else
                Returned None
                  [entry Orchestrator.WarnLevel
                     [("component", Orchestrator.VStr "KubeLogParser");
                      ("app", Orchestrator.VStr "microkube");
                      ("level", byteValue c)]
                     "Unknown severity level in kube log parser";
                   entry Orchestrator.WarnLevel [("app", Orchestrator.VStr app)] lineStr]
          end
        else
          Returned None
            [entry Orchestrator.WarnLevel [("app", Orchestrator.VStr app)]
               (Trim lineStr bslashN)]
    end.

(** The line the kubernetes format describes. *)
Definition format (sev time unk loc msg tail : string) : string :=
  (sev ++ " " ++ time ++ " " ++ unk ++ " " ++ loc ++ "] " ++ msg ++ bslashN ++ tail)%string.

(** The line the restful format describes. *)
Definition formatRestful (date time loc msg tail : string) : string :=
  ("[restful] " ++ date ++ " " ++ time ++ " " ++ loc ++ ": " ++ "[restful/swagger] "
   ++ msg ++ bslashN ++ tail)%string.

(** The level a severity byte stands for: notice counts as info, severe
    as error; the other bytes stand for none. *)
Definition severityLevel (c : Ascii.ascii) : option Orchestrator.Level :=
  if Ascii.eqb c "I"%char || Ascii.eqb c "N"%char then Some Orchestrator.InfoLevel
  else if Ascii.eqb c "E"%char || Ascii.eqb c "S"%char then Some Orchestrator.ErrorLevel
  else if Ascii.eqb c "W"%char then Some Orchestrator.WarnLevel
  else if Ascii.eqb c "D"%char then Some Orchestrator.DebugLevel
  else None.

Definition notSpace (c : Ascii.ascii) : bool := negb (Ascii.eqb c " "%char).
Definition notNewline (c : Ascii.ascii) : bool :=
  negb (Ascii.eqb c (Ascii.ascii_of_nat 10)).

End KubeLog.

(* ===================================================================== *)
(** ** pkg/handlers/kube/KubeletHandler.go: the health probe *)
(* ===================================================================== *)

Module KubeletProbe.

Import GoStrings.

(** The cutset of [healthCheckFun]: space, carriage return, line feed. *)
Definition cutset : string :=
  String " " (String (Ascii.ascii_of_nat 13) (String (Ascii.ascii_of_nat 10) EmptyString)).

(** [KubeletHandler.healthCheckFun]: [body] and [readErr] are what
    [ioutil.ReadAll] returns for the response; the result is the error
    returned, [None] for [nil]. *)
Definition healthCheckFun (body : string) (readErr : option string) : option string :=
  match readErr with
  | Some err => Some err
  | None =>
      if negb (String.eqb (Trim body cutset) "ok")
      then Some ("Health != ok: " ++ body)%string
      else None
  end.

End KubeletProbe.

(* ===================================================================== *)
(** ** cmd/microkubed/cmd/Microkubed.go: the banner *)
(* ===================================================================== *)

Module Banner.

Import GoStrings.

(** [printIndented]: the message it logs at [Info] level; [None] is the
    panic of [strings.Repeat] on a negative count. Go's integer division
    truncates toward zero. *)
Definition printIndented (message : string) : option string :=
  let msg := EmptyString in
  if String.eqb message "" then
    Repeat "#" 120
  else
    let pad := Z.quot (120 - len message - 2) 2 in
    match Repeat "#" pad with
    | None => None
    | Some hashes =>
        let msg := (msg ++ hashes)%string in
        let msg := (msg ++ " " ++ message ++ " ")%string in
        Some (msg ++ hashes)%string
    end.

Definition isHash (c : Ascii.ascii) : bool := Ascii.eqb c "#"%char.

End Banner.

(* ===================================================================== *)
(** ** Observations on the orchestrator's traces and events *)
(* ===================================================================== *)

Module Observe.

Import Handlers Orchestrator.

(** The periodic health checks enabled: handler and channel of every
    call [EnableHealthChecks(ch, true)], in order. *)
Fixpoint armed (t : Trace) : list (ServiceHandler * Chan) :=
  match t with
  | [] => []
  | EHealthChecks h c true :: rest => (h, c) :: armed rest
  | _ :: rest => armed rest
  end.

(** The goroutines started, in order. *)
Fixpoint spawned (t : Trace) : list string :=
  match t with
  | [] => []
  | EGo task :: rest => task :: spawned rest
  | _ :: rest => spawned rest
  end.

(** Does the trace wait for the node, or drain it? *)
Fixpoint waits (t : Trace) : bool :=
  match t with
  | [] => false
  | EWaitForNode :: _ => true
  | _ :: rest => waits rest
  end.

Definition isHealthEvent (ev : MonitorEvent) : bool :=
  match ev with
  | HealthEvent _ => true
  | ExitEvent _ => false
  end.

(** The number of unhealthy messages at the head of a list. *)
Fixpoint leadingUnhealthy (msgs : list HealthMessage) : nat :=
  match msgs with
  | [] => O
  | msg :: rest => if IsHealthy msg then O else S (leadingUnhealthy rest)
  end.

(** The number of unhealthy messages received since the last healthy
    one. *)
Definition streak (msgs : list HealthMessage) : nat :=
  leadingUnhealthy (rev msgs).

(** The entry [start] appends to [m.serviceList] for a service it has
    started under [service], listed under [name]. *)
Definition entryOf (service name : string) : serviceEntry :=
  mkServiceEntry (StateChan service) (HealthChan service) (Handler service) name.

(** The names under which [start] lists the six services. *)
Definition entryNames : list string :=
  [ "etcd"; "kube-api"; "kube-controller-manager"; "kube-scheduler";
    "kubelet"; "kube-proxy" ].

(** The six entries of [m.serviceList] after [start]. *)
Definition entries : list serviceEntry :=
  map (fun p => entryOf (fst p) (snd p)) (combine serviceOrder entryNames).

(** What a stage of [start] leaves behind when it returns: the handlers
    it has stopped by then, its entry in the service list, no periodic
    health check, and no goroutine of its own. *)
Definition stageDetail (service name : string) (deferred : list ServiceHandler)
    (m : Microkubed) (o : Outcome unit) : Prop :=
  match o with
  | Done _ m' t =>
      stopped t = deferred /\
      serviceList m' = serviceList m ++ [entryOf service name] /\
      armed t = [] /\
      spawned t = [] /\
      waits t = false
  | Exited _ => True
  end.

(** The world's part for one service: it can be launched and one of its
    eight startup probes is healthy. *)
Definition comesUp (w : World) (service : string) : Prop :=
  start_err w service = None /\
  newHandler_err w service = None /\
  exists i, 0 <= i < 8 /\ IsHealthy (probe w service i) = true.

(** The world's part for what [start] does before the first service. *)
Definition prepared (w : World) : Prop :=
  createDirectories_fatal w = None /\
  credentials_err w = None /\
  findBinary_err w "etcd" = None /\
  findBinary_err w "hyperkube" = None.

(** A world in which the kubeconfig cannot be written. *)
Definition noKubeconfigWorld : World :=
  mkWorld None None (fun _ => None) (fun _ => None) (fun _ => None)
    (fun _ _ => mkHealthMessage true None) true (Some "permission denied") None.

(** A world in which the kube client cannot be made. *)
Definition noClientWorld : World :=
  mkWorld None None (fun _ => None) (fun _ => None) (fun _ => None)
    (fun _ _ => mkHealthMessage true None) false None (Some "no such file").

(** A world in which the hyperkube binary is missing. *)
Definition noHyperkubeWorld : World :=
  mkWorld None None (fun b => if String.eqb b "hyperkube" then Some "not found" else None)
    (fun _ => None) (fun _ => None)
    (fun _ _ => mkHealthMessage true None) false None None.

End Observe.

(* ===================================================================== *)
(** ** calculateIPRanges, in the copy of Microkubed.go under debian/ *)
(* ===================================================================== *)

Module IPRanges.

(** An octet of a [net.IP] is a [byte]. *)
Definition isByte (z : Z) : bool := (0 <=? z) && (z <? 256).

(** The inner loop [for mask := byte(0x80); mask > 0; mask /= 2]: the
    result is [baseOffset] when the loop is left and, if it is left by
    [break], the value assigned to [serviceBelowPod]. [None] is a loop
    that has not ended when the fuel has. *)
Fixpoint findBit (fuel : nat) (mask baseOffset podOctet octet : Z)
    : option (Z * option bool) :=
  match fuel with
  | O => None
  | S fuel' =>
      if 0 <? mask then
        let baseOffset := baseOffset + 1 in
        if negb (Z.land podOctet mask =? Z.land octet mask)
        then Some (baseOffset, Some (octet <? podOctet))
        else findBit fuel' (mask / 2) baseOffset podOctet octet
      else Some (baseOffset, None)
  end.

(** Nine rounds: eight masks, and the test that ends the loop. *)
Definition maskFuel : nat := 9.

Inductive LoopResult : Type :=
| Finished (baseOffset : Z) (serviceBelowPod : bool)
| IndexOutOfRange
| OutOfFuel.

(** The loop [for idx, octet := range m.serviceRangeNet.IP] from index
    [idx] on, with the current [baseOffset] and [serviceBelowPod];
    [pod] is [m.podRangeNet.IP]. Indexing [pod] beyond its length
    panics. *)
Fixpoint rangeLoop (pod : list Z) (idx : nat) (service : list Z)
    (baseOffset : Z) (serviceBelowPod : bool) : LoopResult :=
  match service with
  | [] => Finished baseOffset serviceBelowPod
  | octet :: rest =>
      match nth_error pod idx with
      | None => IndexOutOfRange
      | Some podOctet =>
          if negb (podOctet =? octet) then
            match findBit maskFuel 128 (Z.of_nat idx * 8) podOctet octet with
            | None => OutOfFuel
            | Some (baseOffset, found) =>
                let serviceBelowPod :=
                  match found with
                  | Some below => below
                  | None => serviceBelowPod
                  end in
                rangeLoop pod (S idx) rest (baseOffset - 1) serviceBelowPod
            end
          else rangeLoop pod (S idx) rest baseOffset serviceBelowPod
      end
  end.

(** [baseOffset] and [serviceBelowPod] after the loop. *)
Definition divergence (pod service : list Z) : LoopResult :=
  rangeLoop pod 0 service 0 false.

(** [^byte(0xff >> n)], for [n] below eight. *)
Definition maskByte (n : Z) : Z := 255 - Z.shiftr 255 n.

(** The loop of [net.CIDRMask] over the [l] bytes of the mask, with [n]
    ones still to set. *)
Fixpoint maskBytes (l : nat) (n : Z) : list Z :=
  match l with
  | O => []
  | S l' =>
      if 8 <=? n then 255 :: maskBytes l' (n - 8)
      else maskByte n :: maskBytes l' 0
  end.

(** [net.CIDRMask(ones, bits)] of Go's net package: [nil] ([None])
    unless [bits] is 32 or 128 and [ones] lies between 0 and [bits];
    otherwise the mask of [bits/8] bytes that begins with [ones] ones. *)
Definition CIDRMask (ones bits : Z) : option (list Z) :=
  if negb (bits =? 32) && negb (bits =? 128) then None
  else if (ones <? 0) || (bits <? ones) then None
  else Some (maskBytes (Z.to_nat (bits / 8)) ones).

(** What [calculateIPRanges] computes once both ranges are parsed:
    [m.clusterIPRange.IP] and [m.clusterIPRange.Mask], each [None] when
    it is [nil]; the outer [None] is a panic. [podRangeIP] is the
    address [net.ParseCIDR] returns for the pod range, [podNet] and
    [serviceNet] are the addresses of the two networks. The local
    variable [serviceRangeIP] is declared and never assigned: the
    address parsed from the service range goes to the field
    [m.serviceRangeIP]. *)
Definition calculateIPRanges (podRangeIP podNet serviceNet : list Z)
    : option (option (list Z) * option (list Z)) :=
  let serviceRangeIP : option (list Z) := None in
  match divergence podNet serviceNet with
  | Finished baseOffset serviceBelowPod =>
      Some (if serviceBelowPod then serviceRangeIP else Some podRangeIP,
            CIDRMask baseOffset 32)
  | _ => None
  end.

(** All values of a [byte]. *)
Definition bytes : list Z := map Z.of_nat (seq 0 256).

(** Does the inner loop, for two different octets, stop at the highest
    bit in which they differ? *)
Definition findBitOk (podOctet octet : Z) : bool :=
  (podOctet =? octet) ||
  match findBit maskFuel 128 0 podOctet octet with
  | Some (baseOffset, Some below) =>
      (baseOffset =? 8 - Z.log2 (Z.lxor podOctet octet)) &&
      Bool.eqb below (octet <? podOctet)
  | _ => false
  end.

End IPRanges.

(* ===================================================================== *)
(** ** internal/manifests/dns/main.go *)
(* ===================================================================== *)

Module DnsMain.

Import Orchestrator.

(** What the cluster and the file system decide. *)
Record Cluster : Type := mkCluster {
  (** [homedir.Expand] *)
  expand : string -> string * option string;
  (** [obj.ApplyToCluster] *)
  applyToCluster_err : option string;
  (** [obj.InitHealthCheck] *)
  initHealthCheck_err : option string;
  (** the result of call number [i] of [obj.IsHealthy()] *)
  isHealthy : Z -> bool * option string
}.

Inductive Step : Type :=
| SLog (e : Entry)
| SApplyToCluster (kubeconfig : string)
| SInitHealthCheck (kubeconfig : string)
| SIsHealthy
| SSleep (d : Z)
| SOsExit (code : Z).

(** [log.WithError(err).WithField("root", *kubeconfig).Fatal(msg)]. *)
Definition fatal (err kubeconfig msg : string) : list Step :=
  [ SLog (mkEntry FatalLevel [("error", VErr (Some err)); ("root", VStr kubeconfig)] msg);
    SOsExit 1 ].

Inductive LoopResult : Type :=
| LoopDone (ok : bool) (t : list Step)
| LoopFatal (t : list Step)
| LoopFuel.

Definition after (t : list Step) (r : LoopResult) : LoopResult :=
  match r with
  | LoopDone ok t' => LoopDone ok (t ++ t')
  | LoopFatal t' => LoopFatal (t ++ t')
  | LoopFuel => LoopFuel
  end.

(** [for i := 0; i < 10 && !ok; i++ { ... }] from the given [i] and
    [ok] on. *)
Fixpoint healthLoop (fuel : nat) (c : Cluster) (kubeconfig : string) (i : Z) (ok : bool)
    : LoopResult :=
  match fuel with
  | O => LoopFuel
  | S fuel' =>
      if (i <? 10) && negb ok then
        let '(ok, err) := isHealthy c i in
        match err with
        | Some e =>
            LoopFatal (SIsHealthy :: fatal e kubeconfig "Couldn't enable health checks")
        | None =>
            if ok then LoopDone ok [SIsHealthy]
            else after [SIsHealthy; SSleep (1 * Second)]
                       (healthLoop fuel' c kubeconfig (i + 1) ok)
        end
      else LoopDone ok []
  end.

(** Ten rounds, and the test that ends the loop. *)
Definition loopFuel : nat := 11.

Inductive Outcome : Type :=
| Returned (t : list Step)
| Exited (t : list Step)
| Diverged.

(** [main], with the value of the [kubeconfig] flag. *)
Definition main (c : Cluster) (flag : string) : Outcome :=
  let '(kubeconfig, err) := expand c flag in
  match err with
  | Some e => Exited (fatal e kubeconfig "Couldn't expand kubeconfig")
  | None =>
      match applyToCluster_err c with
      | Some e =>
          Exited (SApplyToCluster kubeconfig
                  :: fatal e kubeconfig "Couldn't apply object to cluster")
      | None =>
          match initHealthCheck_err c with
          | Some e =>
              Exited ([SApplyToCluster kubeconfig; SInitHealthCheck kubeconfig]
                      ++ fatal e kubeconfig "Couldn't enable health checks")
          | None =>
              match healthLoop loopFuel c kubeconfig 0 false with
              | LoopDone ok t =>
                  Returned ([SApplyToCluster kubeconfig; SInitHealthCheck kubeconfig]
                            ++ t
                            ++ [SLog (mkEntry InfoLevel [("status", VBool ok)]
                                        "Health check done")])
              | LoopFatal t =>
                  Exited ([SApplyToCluster kubeconfig; SInitHealthCheck kubeconfig] ++ t)
              | LoopFuel => Diverged
              end
          end
      end
  end.

(** [k] rounds of the loop in which the answer was neither healthy nor
    an error. *)
Definition rounds (k : nat) : list Step :=
  List.concat (repeat [SIsHealthy; SSleep (1 * Second)] k).

(** The number of calls of [obj.IsHealthy()]. *)
Fixpoint calls (t : list Step) : nat :=
  match t with
  | [] => O
  | SIsHealthy :: rest => S (calls rest)
  | _ :: rest => calls rest
  end.

(** A cluster that answers unhealthy, without an error, up to call [k],
    and then what [answer] says. *)
Definition lateCluster (k : Z) (answer : bool * option string) : Cluster :=
  mkCluster (fun s => (s, None)) None None
    (fun i => if i <? k then (false, None) else answer).

End DnsMain.

(* ===================================================================== *)
(** * Properties *)
(* ===================================================================== *)

Import Handlers Orchestrator.
Local Open Scope prog_scope.

(** ** Runs on concrete inputs *)

Example healthy_run_starts_all :
  started (trace_of (Run healthyWorld Interrupt initial)) = map Handler serviceOrder.
Proof. vm_compute. reflexivity. Qed.

Example healthy_run_returns :
  exited (Run healthyWorld Interrupt initial) = false.
Proof. vm_compute. reflexivity. Qed.

Example slow_kubelet_three_probes :
  probes (trace_of (startService (slowWorld "kubelet") "kubelet"
                      (fun w => (Handler "kubelet", newHandler_err w "kubelet")) initial))
  = 3%nat.
Proof. vm_compute. reflexivity. Qed.

Example sick_kubelet_aborts :
  exited (Run (sickWorld "kubelet") Interrupt initial) = true /\
  started (trace_of (Run (sickWorld "kubelet") Interrupt initial))
    = map Handler ["etcd"; "kube-apiserver"; "kube-controller-manager"; "kube-scheduler";
                   "kubelet"] /\
  stopped (trace_of (Run (sickWorld "kubelet") Interrupt initial))
    = map Handler ["etcd"; "kube-apiserver"; "kube-controller-manager"; "kube-scheduler"].
Proof. vm_compute. auto. Qed.

Example broken_etcd_aborts :
  started (trace_of (Run (brokenWorld "etcd") Interrupt initial)) = [Handler "etcd"] /\
  stopped (trace_of (Run (brokenWorld "etcd") Interrupt initial)) = [].
Proof. vm_compute. auto. Qed.

Example ninth_unhealthy_keeps_running :
  checkService etcdEntry (repeat (HealthEvent refused) 9) readyState
  = Done 9 readyState
      (map (fun c => ELog (mkEntry WarnLevel [("app", VStr "etcd"); ("count", VInt c)]
                             "unhealthy!"))
           [0; 1; 2; 3; 4; 5; 6; 7; 8]).
Proof. vm_compute. reflexivity. Qed.

Example healthy_message_resets :
  exited (checkService etcdEntry
            (repeat (HealthEvent refused) 9 ++ [HealthEvent (mkHealthMessage true None)]
             ++ repeat (HealthEvent refused) 9) readyState) = false.
Proof. vm_compute. reflexivity. Qed.

Example kill_test :
  Helpers.lifecycle Helpers.testOS (Helpers.NewCmdHandler "/bin/bash" ["-c"; "sleep 120"])
    [Helpers.AStop; Helpers.ATerminate (Helpers.Signaled 9)]
  = (None,
     [ Helpers.PSpawn "/bin/bash" ["-c"; "sleep 120"];
       Helpers.PGo Helpers.StdoutCapture; Helpers.PGo Helpers.StderrCapture;
       Helpers.PGo Helpers.ExitWait;
       Helpers.PKill;
       Helpers.PExitCallback false (Some (Helpers.Signaled 9)) ]).
Proof. reflexivity. Qed.

(** ** ExecutionEnvironment *)

Section CopyInformation.

Variables OutputFn ExitFn : Type.
Implicit Types e o : ExecutionEnvironment OutputFn ExitFn.

(** C10. [e.CopyInformationFromBase(o)] sets the ten port fields, the
    three address fields and [SudoMethod] of [e] to the values of [o], and
    leaves [Binary], [Workdir], [OutputHandler] and [ExitHandler] of [e]
    as they were. *)
Theorem CopyInformationFromBase_frame : forall e o,
  let e' := CopyInformationFromBase e o in
  ports e' = ports o /\
  addresses e' = addresses o /\
  SudoMethod e' = SudoMethod o /\
  Binary e' = Binary e /\
  Workdir e' = Workdir e /\
  OutputHandler e' = OutputHandler e /\
  ExitHandler e' = ExitHandler e.
Proof.
  intros e o e'. subst e'. unfold ports, addresses. cbn.
  repeat split; reflexivity.
Qed.

End CopyInformation.

(** ** The effect monad *)

Lemma bind_done : forall (A B : Type) (p : Prog A) (k : A -> Prog B) m a m1 t1,
  p m = Done a m1 t1 ->
  bind p k m =
  match k a m1 with
  | Done b m2 t2 => Done b m2 (t1 ++ t2)
  | Exited t2 => Exited (t1 ++ t2)
  end.
Proof. intros A B p k m a m1 t1 H. unfold bind. rewrite H. reflexivity. Qed.

Lemma bind_exited : forall (A B : Type) (p : Prog A) (k : A -> Prog B) m t1,
  p m = Exited t1 -> bind p k m = Exited t1.
Proof. intros A B p k m t1 H. unfold bind. rewrite H. reflexivity. Qed.

Lemma bind_silent : forall (A B : Type) (p : Prog A) (k : A -> Prog B) m a m1,
  p m = Done a m1 [] -> bind p k m = k a m1.
Proof.
  intros A B p k m a m1 H. unfold bind. rewrite H.
  destruct (k a m1); reflexivity.
Qed.

(** ** Observations on traces *)

Lemma Fatal_fatalExit : forall (A : Type) fs msg m,
  @Fatal A fs msg m =
  Exited (fatalExit (mkEntry FatalLevel fs msg)
            (if gracefulTerminationMode m then [] else serviceHandlers m)).
Proof.
  intros A fs msg m. unfold Fatal, fatalExit, exitHandlerHook.
  destruct (gracefulTerminationMode m); reflexivity.
Qed.

Lemma started_app : forall t1 t2, started (t1 ++ t2) = started t1 ++ started t2.
Proof.
  induction t1 as [|e t1 IH]; intros t2; [reflexivity|].
  destruct e; cbn; rewrite ?IH; reflexivity.
Qed.

Lemma started_map_EStop : forall hs, started (map EStop hs) = [].
Proof. induction hs as [|h hs IH]; [reflexivity|exact IH]. Qed.

Lemma started_fatalExit : forall e hs, started (fatalExit e hs) = [].
Proof.
  intros e hs. unfold fatalExit. rewrite !started_app, started_map_EStop. reflexivity.
Qed.

Lemma started_gateRounds : forall w name h n first,
  started (gateRounds w name h first n) = [].
Proof.
  intros w name h n. induction n as [|n IH]; intros first; [reflexivity|].
  cbn. apply IH.
Qed.

Lemma stopped_app : forall t1 t2, stopped (t1 ++ t2) = stopped t1 ++ stopped t2.
Proof.
  induction t1 as [|e t1 IH]; intros t2; [reflexivity|].
  destruct e; cbn; rewrite ?IH; reflexivity.
Qed.

Lemma stopped_map_EStop : forall hs, stopped (map EStop hs) = hs.
Proof. induction hs as [|h hs IH]; cbn; congruence. Qed.

Lemma stopped_fatalExit : forall e hs, stopped (fatalExit e hs) = hs.
Proof.
  intros e hs. unfold fatalExit. rewrite !stopped_app, stopped_map_EStop.
  cbn. apply app_nil_r.
Qed.

Lemma stopped_gateRounds : forall w name h n first,
  stopped (gateRounds w name h first n) = [].
Proof.
  intros w name h n. induction n as [|n IH]; intros first; [reflexivity|].
  cbn. apply IH.
Qed.

Lemma probes_app : forall t1 t2, (probes (t1 ++ t2) = probes t1 + probes t2)%nat.
Proof.
  induction t1 as [|e t1 IH]; intros t2; [reflexivity|].
  destruct e; cbn; rewrite ?IH; try reflexivity.
  destruct forever; cbn; rewrite ?IH; reflexivity.
Qed.

Lemma probes_gateRounds : forall w name h n first,
  probes (gateRounds w name h first n) = n.
Proof.
  intros w name h n. induction n as [|n IH]; intros first; [reflexivity|].
  cbn. rewrite IH. reflexivity.
Qed.

Lemma probes_fatalExit : forall e hs, probes (fatalExit e hs) = O.
Proof.
  intros e hs. unfold fatalExit. rewrite !probes_app. cbn.
  induction hs as [|x hs IH]; [reflexivity|exact IH].
Qed.

Create Rewrite HintDb trace.
#[global] Hint Rewrite started_app started_map_EStop started_fatalExit started_gateRounds
  stopped_app stopped_map_EStop stopped_fatalExit stopped_gateRounds
  probes_app probes_gateRounds probes_fatalExit app_nil_r : trace.

(** ** Steady-state monitoring *)

Lemma checkService_iter_unhealthy : forall handler c msg m,
  IsHealthy msg = false -> c + 1 <> 10 ->
  checkService_iter handler c (HealthEvent msg) m =
  Done (c + 1) m
    [ELog (mkEntry WarnLevel [("app", VStr (name handler)); ("count", VInt c)] "unhealthy!")].
Proof.
  intros handler c msg m Hu Hc. unfold checkService_iter. rewrite Hu. cbn.
  apply Z.eqb_neq in Hc. unfold bind, log, emit. cbn. rewrite Hc. reflexivity.
Qed.

Lemma checkService_iter_tenth : forall handler msg m,
  IsHealthy msg = false ->
  checkService_iter handler 9 (HealthEvent msg) m =
  Exited
    ([ELog (mkEntry WarnLevel [("app", VStr (name handler)); ("count", VInt 9)] "unhealthy!");
      ELog (mkEntry FatalLevel [("app", VStr (name handler)); ("count", VInt 10)]
              "Too many failed health checks, aborting!")]
     ++ exitHandlerHook m ++ [EOsExit 1]).
Proof.
  intros handler msg m Hu. unfold checkService_iter. rewrite Hu. reflexivity.
Qed.

Lemma checkService_iter_healthy : forall handler c msg m,
  IsHealthy msg = true ->
  checkService_iter handler c (HealthEvent msg) m =
  Done 0 m [ELog (mkEntry DebugLevel [("app", VStr (name handler))] "healthy")].
Proof.
  intros handler c msg m Hh. unfold checkService_iter. rewrite Hh. reflexivity.
Qed.

Lemma checkService_loop_app : forall handler a b c m c' m' t,
  checkService_loop handler c a m = Done c' m' t ->
  checkService_loop handler c (a ++ b) m =
  match checkService_loop handler c' b m' with
  | Done x m2 t2 => Done x m2 (t ++ t2)
  | Exited t2 => Exited (t ++ t2)
  end.
Proof.
  intros handler a b. induction a as [|ev a IH]; intros c m c' m' t H.
  - cbn in H. injection H as <- <- <-. cbn.
    destruct (checkService_loop handler c b m); reflexivity.
  - cbn [checkService_loop app] in *. unfold bind in *.
    destruct (checkService_iter handler c ev m) as [c1 m1 t1|t1]; [|discriminate].
    destruct (checkService_loop handler c1 a m1) as [c2 m2 t2|t2] eqn:E; [|discriminate].
    injection H as <- <- <-.
    rewrite (IH _ _ _ _ _ E).
    destruct (checkService_loop handler c2 b m2); rewrite app_assoc; reflexivity.
Qed.

Lemma checkService_loop_unhealthy : forall handler msgs c m,
  Forall unhealthy msgs -> 0 <= c -> c + Z.of_nat (List.length msgs) <= 9 ->
  exists t, checkService_loop handler c (map HealthEvent msgs) m
            = Done (c + Z.of_nat (List.length msgs)) m t
            /\ stopped t = [] /\ ~ In (EOsExit 1) t.
Proof.
  intros handler msgs. induction msgs as [|msg msgs IH]; intros c m HF Hc Hle.
  - exists []. cbn. rewrite Z.add_0_r. auto.
  - inversion HF as [|? ? Hu HF']; subst.
    cbn [List.length] in Hle. rewrite Nat2Z.inj_succ in Hle.
    destruct (IH (c + 1) m HF' ltac:(lia) ltac:(lia)) as [t [Ht [Hs Hn]]].
    eexists. cbn [map checkService_loop].
    rewrite (bind_done _ _ _ _ _ _ _ _ (checkService_iter_unhealthy handler c msg m Hu ltac:(lia))).
    rewrite Ht. cbn [List.length]. rewrite Nat2Z.inj_succ.
    replace (c + Z.succ (Z.of_nat (List.length msgs))) with (c + 1 + Z.of_nat (List.length msgs)) by lia.
    split; [reflexivity|]. split; [exact Hs|].
    cbn. intros [H|H]; [discriminate|contradiction].
Qed.

Lemma checkService_loop_abort : forall handler msgs c m,
  Forall unhealthy msgs -> 0 <= c <= 9 -> 10 <= c + Z.of_nat (List.length msgs) ->
  exists t0,
    checkService_loop handler c (map HealthEvent msgs) m =
    Exited (t0 ++ fatalExit
              (mkEntry FatalLevel [("app", VStr (name handler)); ("count", VInt 10)]
                 "Too many failed health checks, aborting!")
              (if gracefulTerminationMode m then [] else serviceHandlers m))
    /\ stopped t0 = [].
Proof.
  intros handler msgs. induction msgs as [|msg msgs IH]; intros c m HF Hc Hle.
  - cbn in Hle. lia.
  - inversion HF as [|? ? Hu HF']; subst.
    cbn [List.length] in Hle. rewrite Nat2Z.inj_succ in Hle.
    cbn [map checkService_loop].
    destruct (Z.eq_dec c 9) as [->|Hne].
    + rewrite (bind_exited _ _ _ _ _ _ (checkService_iter_tenth handler msg m Hu)).
      eexists [_]. split;
        [unfold fatalExit, exitHandlerHook;
         destruct (gracefulTerminationMode m); reflexivity
        |reflexivity].
    + rewrite (bind_done _ _ _ _ _ _ _ _
                 (checkService_iter_unhealthy handler c msg m Hu ltac:(lia))).
      destruct (IH (c + 1) m HF' ltac:(lia) ltac:(lia)) as [t0 [Ht Hs]].
      rewrite Ht. eexists (_ :: t0). split; [reflexivity|]. exact Hs.
Qed.

Lemma checkService_iter_done : forall handler ev c m c' m' t,
  checkService_iter handler c ev m = Done c' m' t ->
  m' = m /\ ~ In (EOsExit 1) t.
Proof.
  intros handler ev c m c' m' t E.
  destruct ev as [s|msg]; unfold checkService_iter, bind, get, log, emit, ret, Fatal in E.
  - destruct (negb (gracefulTerminationMode m)); [discriminate|].
    injection E as _ <- <-. split; [reflexivity|intros []].
  - destruct (negb (IsHealthy msg)).
    + destruct (c + 1 =? 10); [discriminate|]. injection E as _ <- <-.
      split; [reflexivity|]. cbn. intros [H|[]]. discriminate.
    + injection E as _ <- <-. split; [reflexivity|]. cbn. intros [H|[]]. discriminate.
Qed.

Lemma checkService_loop_done : forall handler evs c m c' m' t,
  checkService_loop handler c evs m = Done c' m' t ->
  m' = m /\ ~ In (EOsExit 1) t.
Proof.
  intros handler evs. induction evs as [|ev evs IH]; intros c m c' m' t H.
  - cbn in H. injection H as _ <- <-. split; [reflexivity|intros []].
  - cbn [checkService_loop] in H. unfold bind in H.
    destruct (checkService_iter handler c ev m) as [c1 m1 t1|t1] eqn:E1; [|discriminate].
    destruct (checkService_loop handler c1 evs m1) as [c2 m2 t2|t2] eqn:E2; [|discriminate].
    injection H as _ <- <-.
    apply checkService_iter_done in E1. destruct E1 as [-> Hn1].
    apply IH in E2. destruct E2 as [-> Hn2].
    split; [reflexivity|]. intros Hin. apply in_app_or in Hin. tauto.
Qed.

Lemma checkService_loop_state : forall handler evs c m c' m' t,
  checkService_loop handler c evs m = Done c' m' t -> m' = m.
Proof. intros. eapply checkService_loop_done; eauto. Qed.

Lemma checkService_loop_prefix : forall handler a b c m c' m' t,
  checkService_loop handler c (a ++ b) m = Done c' m' t ->
  exists c1 t1, checkService_loop handler c a m = Done c1 m t1.
Proof.
  intros handler a b. induction a as [|ev a IH]; intros c m c' m' t H.
  - exists c, []. reflexivity.
  - cbn [checkService_loop app] in *. unfold bind in *.
    destruct (checkService_iter handler c ev m) as [c2 m2 t2|t2] eqn:E2; [|discriminate].
    destruct (checkService_loop handler c2 (a ++ b) m2) as [c3 m3 t3|t3] eqn:E3;
      [|discriminate].
    destruct (IH _ _ _ _ _ E3) as [c1 [t1 E1]]. rewrite E1.
    apply checkService_iter_done in E2. destruct E2 as [-> _]. eauto.
Qed.

(** After a history that is empty or ends with a healthy message, the
    counter is zero. *)
Lemma checkService_reset : forall handler pre m c0 m0 t0,
  checkService handler pre m = Done c0 m0 t0 ->
  pre = [] \/ (exists pre' msg, pre = pre' ++ [HealthEvent msg] /\ IsHealthy msg = true) ->
  c0 = 0 /\ m0 = m.
Proof.
  intros handler pre m c0 m0 t0 H Hpre. unfold checkService in H.
  split; [|eapply checkService_loop_state; eauto].
  destruct Hpre as [->|[pre' [msg [-> Hh]]]].
  - unfold checkService_loop, ret in H. congruence.
  - destruct (checkService_loop_prefix _ _ _ _ _ _ _ _ H) as [c1 [t1 E]].
    rewrite (checkService_loop_app _ _ _ _ _ _ _ _ E) in H.
    cbn [checkService_loop] in H.
    rewrite (bind_done _ _ _ _ _ _ _ _ (checkService_iter_healthy handler c1 msg m Hh)) in H.
    unfold ret in H. congruence.
Qed.

(** C2. In [checkService], an unhealthy health message increments the
    consecutive-failure counter of the service and a healthy one resets
    it to zero; starting from a reset counter, up to nine unhealthy
    messages in a row leave the program running, and the tenth one in a
    row makes the program exit through [log.Fatal]. *)
Theorem checkService_failure_counter : forall (handler : serviceEntry) (m : Microkubed),
  (forall c msg, unhealthy msg -> c + 1 <> 10 ->
     exists t, checkService_iter handler c (HealthEvent msg) m = Done (c + 1) m t) /\
  (forall c msg, IsHealthy msg = true ->
     exists t, checkService_iter handler c (HealthEvent msg) m = Done 0 m t) /\
  (forall pre msgs c0 m0 t0,
     checkService handler pre m = Done c0 m0 t0 ->
     pre = [] \/ (exists pre' msg, pre = pre' ++ [HealthEvent msg] /\ IsHealthy msg = true) ->
     Forall unhealthy msgs ->
     ((List.length msgs <= 9)%nat ->
        exists t, checkService handler (pre ++ map HealthEvent msgs) m
                  = Done (Z.of_nat (List.length msgs)) m t /\ ~ In (EOsExit 1) t) /\
     (List.length msgs = 10%nat ->
        exists t, checkService handler (pre ++ map HealthEvent msgs) m = Exited t
                  /\ In (EOsExit 1) t)).
Proof.
  intros handler m. split; [|split].
  - intros c msg Hu Hc. eexists. apply checkService_iter_unhealthy; assumption.
  - intros c msg Hh. eexists. apply checkService_iter_healthy; assumption.
  - intros pre msgs c0 m0 t0 Hpre Hend HF.
    destruct (checkService_reset _ _ _ _ _ _ Hpre Hend) as [-> ->].
    unfold checkService in *.
    rewrite (checkService_loop_app _ _ _ _ _ _ _ _ Hpre).
    apply checkService_loop_done in Hpre. destruct Hpre as [_ Hno].
    split; intros Hlen.
    + destruct (checkService_loop_unhealthy handler msgs 0 m HF ltac:(lia) ltac:(lia))
        as [t [-> [_ Hn]]].
      eexists. split; [reflexivity|].
      intros Hin. apply in_app_or in Hin. tauto.
    + destruct (checkService_loop_abort handler msgs 0 m HF ltac:(lia) ltac:(lia))
        as [t [-> _]].
      eexists. split; [reflexivity|].
      unfold fatalExit. rewrite !in_app_iff. cbn. auto 10.
Qed.

(** ** The startup health gate *)

Lemma healthGate_leaves_healthy : forall w name h fuel retries msg m,
  IsHealthy msg = true ->
  healthGate w name h fuel retries msg m = Done msg m [].
Proof.
  intros w name h fuel retries msg m Hh.
  destruct fuel; cbn [healthGate]; [reflexivity|].
  rewrite Hh, andb_false_r. reflexivity.
Qed.

Lemma healthGate_leaves_budget : forall w name h fuel retries msg m,
  8 <= retries ->
  healthGate w name h fuel retries msg m = Done msg m [].
Proof.
  intros w name h fuel retries msg m Hr.
  destruct fuel; cbn [healthGate]; [reflexivity|].
  apply Z.ltb_ge in Hr. rewrite Hr. reflexivity.
Qed.

Lemma healthGate_round : forall w name h fuel retries msg m,
  IsHealthy msg = false -> retries < 8 ->
  healthGate w name h (S fuel) retries msg m =
  match healthGate w name h fuel (retries + 1) (probe w name retries) m with
  | Done r m' t => Done r m' (gateRound w name h retries ++ t)
  | Exited t => Exited (gateRound w name h retries ++ t)
  end.
Proof.
  intros w name h fuel retries msg m Hu Hr.
  cbn [healthGate]. apply Z.ltb_lt in Hr. rewrite Hr, Hu. cbn [andb negb].
  unfold log; unfold bind, emit, gateRound.
  destruct (healthGate w name h fuel (retries + 1) (probe w name retries) m); reflexivity.
Qed.

(** Eight units of fuel are enough: with more, the loop does the same. *)
Lemma healthGate_fuel : forall w name h fuel fuel' retries msg m,
  0 <= retries ->
  8 - retries <= Z.of_nat fuel -> 8 - retries <= Z.of_nat fuel' ->
  healthGate w name h fuel retries msg m = healthGate w name h fuel' retries msg m.
Proof.
  intros w name h fuel. induction fuel as [|fuel IH]; intros fuel' retries msg m H0 Hf Hf'.
  - rewrite !healthGate_leaves_budget by lia. reflexivity.
  - destruct (Z_lt_le_dec retries 8) as [Hlt|Hge];
      [|rewrite !healthGate_leaves_budget by lia; reflexivity].
    destruct (IsHealthy msg) eqn:Hh;
      [rewrite !healthGate_leaves_healthy by assumption; reflexivity|].
    destruct fuel' as [|fuel']; [lia|].
    rewrite !healthGate_round by assumption.
    rewrite (IH fuel'); [reflexivity|lia|lia|lia].
Qed.

Ltac gate_eval :=
  unfold log; unfold bind, emit, ret; cbn;
  repeat match goal with
         | H : IsHealthy _ = _ |- _ => rewrite H; cbn
         end.

Ltac gate_index :=
  let i := fresh "i" in
  let Hi := fresh "Hi" in
  intros i Hi; unfold unhealthy;
  assert (i = 0 \/ i = 1 \/ i = 2 \/ i = 3 \/ i = 4 \/ i = 5 \/ i = 6 \/ i = 7) as Hcase
    by lia;
  repeat (destruct Hcase as [->|Hcase]; [first [assumption|lia]|]);
  first [subst; assumption|lia].

(** The complete behaviour of [startService] once the service has been
    constructed and launched. *)
Lemma startService_gate : forall w name constructor h m,
  constructor w = (h, None) ->
  start_err w name = None ->
  (forall fuel msg, (8 <= fuel)%nat ->
     healthGate w name h fuel 0 msg m = healthGate w name h gateFuel 0 msg m) /\
  exists n : nat,
    (n <= 8)%nat /\
    probes (trace_of (startService w name constructor m)) = n /\
    (forall i, 0 <= i < Z.of_nat n - 1 -> unhealthy (probe w name i)) /\
    ((startService w name constructor m
        = Done (h, StateChan name, HealthChan name) m
            ([EStart h] ++ gateRounds w name h 0 n)
      /\ (1 <= n)%nat
      /\ IsHealthy (probe w name (Z.of_nat n - 1)) = true)
     \/
     (startService w name constructor m
        = Exited ([EStart h] ++ gateRounds w name h 0 8 ++
                  fatalExit
                    (mkEntry FatalLevel [("error", VErr (Error (probe w name 7)))]
                       (name ++ " didn't become healthy in time!")%string)
                    (if gracefulTerminationMode m then [] else serviceHandlers m))
      /\ n = 8%nat
      /\ unhealthy (probe w name 7))).
Proof.
  intros w name constructor h m Hc Hs. split.
  { intros fuel msg Hf. apply healthGate_fuel; unfold gateFuel; lia. }
  destruct (IsHealthy (probe w name 0)) eqn:E0;
    [exists 1%nat|
  destruct (IsHealthy (probe w name 1)) eqn:E1;
    [exists 2%nat|
  destruct (IsHealthy (probe w name 2)) eqn:E2;
    [exists 3%nat|
  destruct (IsHealthy (probe w name 3)) eqn:E3;
    [exists 4%nat|
  destruct (IsHealthy (probe w name 4)) eqn:E4;
    [exists 5%nat|
  destruct (IsHealthy (probe w name 5)) eqn:E5;
    [exists 6%nat|
  destruct (IsHealthy (probe w name 6)) eqn:E6;
    [exists 7%nat|
  destruct (IsHealthy (probe w name 7)) eqn:E7;
    [exists 8%nat|exists 8%nat]]]]]]]].
  1-8: (match goal with
        | |- _ /\ _ /\ _ /\ (?L = ?R /\ _ \/ _) =>
            assert (Heq : L = R)
              by (unfold startService; rewrite Hc, Hs; unfold gateFuel;
                  gate_eval; reflexivity)
        end;
        split; [lia|];
        split; [rewrite Heq; cbn [trace_of]; autorewrite with trace; reflexivity|];
        split; [gate_index|];
        left; split; [exact Heq|]; split; [lia|assumption]).
  match goal with
  | |- _ /\ _ /\ _ /\ (_ \/ ?L = ?R /\ _) =>
      assert (Heq : L = R)
        by (unfold startService; rewrite Hc, Hs; unfold gateFuel;
            gate_eval; unfold fatalExit, exitHandlerHook;
            destruct (gracefulTerminationMode m); reflexivity)
  end.
  split; [lia|].
  split; [rewrite Heq; cbn [trace_of];
          autorewrite with trace; reflexivity|].
  split; [gate_index|].
  right. split; [exact Heq|]. split; [reflexivity|assumption].
Qed.

(** C3. The startup health gate of [startService] probes at most eight
    times; every probe is a single one and comes right after a sleep of
    one second; the gate stops with the first healthy answer, and when
    all eight answers are unhealthy the program exits through [log.Fatal]
    instead of [startService] returning. Eight units of fuel are all the
    loop can use. *)
Theorem startService_health_gate : forall w name constructor h m,
  constructor w = (h, None) ->
  start_err w name = None ->
  (forall fuel msg, (8 <= fuel)%nat ->
     healthGate w name h fuel 0 msg m = healthGate w name h gateFuel 0 msg m) /\
  exists n : nat,
    (n <= 8)%nat /\
    probes (trace_of (startService w name constructor m)) = n /\
    (forall i, 0 <= i < Z.of_nat n - 1 -> unhealthy (probe w name i)) /\
    ((startService w name constructor m
        = Done (h, StateChan name, HealthChan name) m
            ([EStart h] ++ gateRounds w name h 0 n)
      /\ (1 <= n)%nat
      /\ IsHealthy (probe w name (Z.of_nat n - 1)) = true)
     \/
     (startService w name constructor m
        = Exited ([EStart h] ++ gateRounds w name h 0 8 ++
                  fatalExit
                    (mkEntry FatalLevel [("error", VErr (Error (probe w name 7)))]
                       (name ++ " didn't become healthy in time!")%string)
                    (if gracefulTerminationMode m then [] else serviceHandlers m))
      /\ n = 8%nat
      /\ unhealthy (probe w name 7))).
Proof. exact startService_gate. Qed.

(** ** The startup order *)

Lemma append_empty_r : forall s : string, (s ++ "")%string = s.
Proof. induction s as [|c s IH]; cbn; congruence. Qed.

(** [startService] in all its cases: it exits through [log.Fatal] with an
    entry that names the service, stopping the handlers registered so
    far, or it returns after a healthy probe. *)
Lemma startService_cases : forall w name constructor m,
  (exists t0 e,
     startService w name constructor m
       = Exited (t0 ++ fatalExit e
                         (if gracefulTerminationMode m then [] else serviceHandlers m))
     /\ stopped t0 = []
     /\ (started t0 = [] \/ started t0 = [fst (constructor w)])
     /\ level e = FatalLevel
     /\ names_service e name)
  \/
  (exists t,
     startService w name constructor m
       = Done (fst (constructor w), StateChan name, HealthChan name) m t
     /\ started t = [fst (constructor w)]
     /\ stopped t = []
     /\ exists i, 0 <= i < 8 /\ IsHealthy (probe w name i) = true).
Proof.
  intros w name constructor m.
  destruct (constructor w) as [h err] eqn:Hc. cbn [fst].
  destruct err as [e|].
  - left. exists [], (mkEntry FatalLevel [("error", VErr (Some e))]
                        ("Couldn't create " ++ name ++ " handler")%string).
    unfold startService. rewrite Hc, Fatal_fatalExit.
    repeat split; auto.
    left. exists "Couldn't create ", " handler". reflexivity.
  - destruct (start_err w name) as [e|] eqn:Hs.
    + left. exists [EStart h], (mkEntry FatalLevel [("error", VErr (Some e))]
                                  ("Couldn't start " ++ name)%string).
      unfold startService. rewrite Hc, Hs. unfold bind, emit.
      rewrite Fatal_fatalExit. repeat split; auto.
      left. exists "Couldn't start ", "". cbn [message].
      rewrite append_empty_r. reflexivity.
    + destruct (startService_gate w name constructor h m Hc Hs)
        as [_ [n [Hn [_ [Hun [[Heq [H1 Hh]]|[Heq [-> Hu]]]]]]]].
      * right. eexists. split; [exact Heq|].
        autorewrite with trace.
        repeat split; auto.
        exists (Z.of_nat n - 1). split; [lia|exact Hh].
      * left. eexists ([EStart h] ++ gateRounds w name h 0 8), _.
        rewrite <- app_assoc. split; [exact Heq|].
        autorewrite with trace.
        repeat split; auto.
        left. exists "", " didn't become healthy in time!". reflexivity.
Qed.

Lemma stageSpec_log : forall w service m l fs msg (p : Prog unit),
  stageSpec w service m (p m) ->
  stageSpec w service m ((log l fs msg ;; p) m).
Proof.
  intros w service m l fs msg p H. unfold log. unfold bind, emit.
  destruct (p m) as [[] m' t|t]; cbn in *.
  - exact H.
  - destruct H as [t0 [e [hs [-> [Hs Hh]]]]].
    exists (ELog (mkEntry l fs msg) :: t0), e, hs. repeat split; auto.
Qed.

Ltac stage_start ctor :=
  match goal with
  | |- stageSpec ?w ?service ?m _ =>
      let t0 := fresh "t0" in
      let e := fresh "e" in
      let t := fresh "t" in
      let Heq := fresh "Heq" in
      let Hst := fresh "Hst" in
      let Hh := fresh "Hh" in
      destruct (startService_cases w service ctor m)
        as [[t0 [e [Heq [_ [Hst _]]]]]|[t [Heq [Hst [_ Hh]]]]];
      cbn [fst] in *;
      [ rewrite (bind_exited _ _ _ _ _ _ Heq);
        exists t0, e, (serviceHandlers m); auto
      | rewrite (bind_done _ _ _ _ _ _ _ _ Heq) ]
  end.

Lemma startEtcd_stage : forall w m, stageSpec w "etcd" m (startEtcd w m).
Proof.
  intros w m. unfold startEtcd.
  stage_start (fun _ : World => (Handler "etcd", @None string)).
  cbn. rewrite started_app, Hst. auto.
Qed.

Lemma startKubeAPIServer_stage : forall w m,
  stageSpec w "kube-apiserver" m (startKubeAPIServer w m).
Proof.
  intros w m. unfold startKubeAPIServer. apply stageSpec_log.
  stage_start (fun _ : World => (Handler "kube-apiserver", @None string)).
  unfold appendHandler, appendEntry, modify, log. unfold bind, emit, ret. cbn.
  destruct (kubeconfig_missing w); [destruct (kubeconfig_err w) as [e|]|]; cbn.
  - eexists (t ++ [_; _; _]), _, (serviceHandlers m ++ [Handler "kube-apiserver"]).
    split.
    { unfold fatalExit, exitHandlerHook. cbn.
      destruct (gracefulTerminationMode m); cbn; rewrite <- app_assoc; reflexivity. }
    split; [right; rewrite started_app, Hst; reflexivity|right; reflexivity].
  - rewrite started_app, Hst. auto.
  - rewrite started_app, Hst. auto.
Qed.

Lemma startKubeControllerManager_stage : forall w m,
  stageSpec w "kube-controller-manager" m (startKubeControllerManager w m).
Proof.
  intros w m. unfold startKubeControllerManager. apply stageSpec_log.
  stage_start (fun _ : World => (Handler "kube-controller-manager", @None string)).
  cbn. rewrite started_app, Hst. auto.
Qed.

Lemma startKubeScheduler_stage : forall w m,
  stageSpec w "kube-scheduler" m (startKubeScheduler w m).
Proof.
  intros w m. unfold startKubeScheduler. apply stageSpec_log.
  stage_start (fun w : World => (Handler "kube-scheduler", newHandler_err w "kube-scheduler")).
  cbn. rewrite started_app, Hst. auto.
Qed.

Lemma startKubelet_stage : forall w m, stageSpec w "kubelet" m (startKubelet w m).
Proof.
  intros w m. unfold startKubelet. apply stageSpec_log.
  stage_start (fun w : World => (Handler "kubelet", newHandler_err w "kubelet")).
  cbn. rewrite started_app, Hst. auto.
Qed.

Lemma startKubeProxy_stage : forall w m, stageSpec w "kube-proxy" m (startKubeProxy w m).
Proof.
  intros w m. unfold startKubeProxy. apply stageSpec_log.
  stage_start (fun w : World => (Handler "kube-proxy", newHandler_err w "kube-proxy")).
  cbn. rewrite started_app, Hst. auto.
Qed.

Lemma bind_ret_r : forall (p : Prog unit) m, (p ;; ret tt) m = p m.
Proof.
  intros p m. unfold bind, ret. destruct (p m) as [[] m1 t1|t1]; [|reflexivity].
  rewrite app_nil_r. reflexivity.
Qed.

Lemma runStages_cons : forall p rest m,
  runStages (p :: rest) m = (p ;; runStages rest) m.
Proof.
  intros p rest m. destruct rest as [|q rest]; [|reflexivity].
  symmetry. apply bind_ret_r.
Qed.

Lemma start_stages : forall w m,
  (exists e,
     start w m = Exited (fatalExit e (if gracefulTerminationMode m then []
                                      else serviceHandlers m))) \/
  (exists m1,
     start w m = runStages (stages w) m1 /\
     serviceHandlers m1 = serviceHandlers m /\
     gracefulTerminationMode m1 = gracefulTerminationMode m /\
     serviceList m1 = serviceList m).
Proof.
  intros w m. unfold start, createDirectories, findBinaries.
  destruct (createDirectories_fatal w) as [msg|].
  { left. eexists. rewrite (bind_exited _ _ _ _ _ _ (Fatal_fatalExit _ _ _ _)).
    reflexivity. }
  rewrite (bind_silent _ _ (ret tt) _ m tt m eq_refl).
  destruct (credentials_err w) as [e|].
  { left. eexists. rewrite (bind_exited _ _ _ _ _ _ (Fatal_fatalExit _ _ _ _)).
    reflexivity. }
  rewrite (bind_silent _ _ (ret tt) _ m tt m eq_refl).
  destruct (findBinary_err w "etcd") as [e|].
  { left. eexists. unfold bind at 1 2.
    rewrite Fatal_fatalExit. reflexivity. }
  destruct (findBinary_err w "hyperkube") as [e|].
  { left. eexists. unfold bind at 1 2. unfold modify at 1.
    rewrite Fatal_fatalExit. reflexivity. }
  right. exists (set_hyperkubeBin "hyperkube" (set_etcdBin "etcd" m)). split.
  - rewrite (bind_silent _ _ (modify (set_etcdBin "etcd") ;; modify (set_hyperkubeBin "hyperkube"))
               _ m tt (set_hyperkubeBin "hyperkube" (set_etcdBin "etcd" m)) eq_refl).
    reflexivity.
  - cbn. auto.
Qed.

Lemma stages_spec : forall w,
  Forall2 (fun p service => forall m, stageSpec w service m (p m)) (stages w) serviceOrder.
Proof.
  intros w. unfold stages, serviceOrder.
  repeat constructor;
    auto using startEtcd_stage, startKubeAPIServer_stage, startKubeControllerManager_stage,
      startKubeScheduler_stage, startKubelet_stage, startKubeProxy_stage.
Qed.

(** Stages run in sequence: the services are started in the order of the
    list, each after a healthy probe of the one before, and when one of
    them makes the process exit, only the handlers registered up to then
    are stopped. *)
Lemma runStages_spec : forall w progs names,
  Forall2 (fun p service => forall m, stageSpec w service m (p m)) progs names ->
  forall m,
  match runStages progs m with
  | Done _ m' t =>
      started t = map Handler names /\
      serviceHandlers m' = serviceHandlers m ++ map Handler names /\
      gracefulTerminationMode m' = gracefulTerminationMode m /\
      Forall (fun s => exists i, 0 <= i < 8 /\ IsHealthy (probe w s i) = true) names
  | Exited t =>
      exists k t0 e hs st,
        (k < List.length names)%nat /\
        Forall (fun s => exists i, 0 <= i < 8 /\ IsHealthy (probe w s i) = true)
               (firstn k names) /\
        t = t0 ++ fatalExit e (if gracefulTerminationMode m then []
                               else serviceHandlers m ++ map Handler hs) /\
        started t0 = map Handler st /\
        (hs = firstn k names \/ hs = firstn (S k) names) /\
        (st = firstn k names \/ st = firstn (S k) names)
  end.
Proof.
  intros w progs names HF. induction HF as [|p service progs names Hp HF IH]; intros m.
  - cbn. rewrite app_nil_r. auto.
  - rewrite runStages_cons. unfold bind. specialize (Hp m).
    destruct (p m) as [[] m1 t1|t1]; cbn [stageSpec] in Hp.
    + destruct Hp as [Hst [Hsh [Hg Hh]]]. specialize (IH m1).
      destruct (runStages progs m1) as [[] m2 t2|t2].
      * destruct IH as [Hst2 [Hsh2 [Hg2 Hh2]]].
        rewrite started_app, Hst, Hst2, Hsh2, Hsh, Hg2, Hg, <- app_assoc.
        repeat split; auto.
      * destruct IH as [k [t0 [e [hs [st [Hk [HF' [-> [Hst0 [Hhs Hstk]]]]]]]]]].
        exists (S k), (t1 ++ t0), e, (service :: hs), (service :: st).
        split; [cbn [List.length]; lia|].
        split; [cbn [firstn]; constructor; assumption|].
        split; [rewrite Hg, Hsh, <- !app_assoc; reflexivity|].
        split; [rewrite started_app, Hst, Hst0; reflexivity|].
        split; [destruct Hhs as [->| ->]; auto|destruct Hstk as [->| ->]; auto].
    + destruct Hp as [t0 [e [hs [-> [Hst Hhs]]]]].
      destruct Hhs as [->| ->]; destruct Hst as [Hst|Hst].
      * exists 0%nat, t0, e, [], []. cbn [map List.length firstn].
        rewrite app_nil_r. repeat split; auto. lia.
      * exists 0%nat, t0, e, [], [service]. cbn [map List.length firstn].
        rewrite app_nil_r. repeat split; auto. lia.
      * exists 0%nat, t0, e, [service], []. cbn [map List.length firstn].
        repeat split; auto. lia.
      * exists 0%nat, t0, e, [service], [service]. cbn [map List.length firstn].
        repeat split; auto. lia.
Qed.

Lemma In_started : forall h t, In (EStart h) t -> In h (started t).
Proof.
  intros h t. induction t as [|e t IH]; intros Hin; [destruct Hin|].
  destruct Hin as [->|Hin]; [left; reflexivity|].
  destruct e; cbn; auto.
Qed.

Lemma firstn_before : forall (l : list string) n j x,
  NoDup l -> nth_error l j = Some x -> (n <= j)%nat -> ~ In x (firstn n l).
Proof.
  induction l as [|a l IH]; intros n j x Hnd Hj Hn.
  - rewrite firstn_nil. intros [].
  - destruct n as [|n]; [intros []|].
    destruct j as [|j]; [lia|].
    inversion Hnd as [|? ? Ha Hnd']; subst. cbn in Hj. cbn [firstn].
    intros [->|Hin].
    + apply Ha. eapply nth_error_In; eauto.
    + apply (IH n j x); auto. lia.
Qed.

Lemma serviceOrder_NoDup : NoDup serviceOrder.
Proof.
  unfold serviceOrder.
  repeat (constructor; [cbn; intuition discriminate|]). constructor.
Qed.

(** [start] as a whole. *)
Lemma start_spec : forall w m,
  match start w m with
  | Done _ m' t =>
      started t = map Handler serviceOrder /\
      serviceHandlers m' = serviceHandlers m ++ map Handler serviceOrder /\
      gracefulTerminationMode m' = gracefulTerminationMode m /\
      Forall (fun s => exists i, 0 <= i < 8 /\ IsHealthy (probe w s i) = true) serviceOrder
  | Exited t =>
      exists k t0 e hs st,
        (k < List.length serviceOrder)%nat /\
        Forall (fun s => exists i, 0 <= i < 8 /\ IsHealthy (probe w s i) = true)
               (firstn k serviceOrder) /\
        t = t0 ++ fatalExit e (if gracefulTerminationMode m then []
                               else serviceHandlers m ++ map Handler hs) /\
        started t0 = map Handler st /\
        (hs = firstn k serviceOrder \/ hs = firstn (S k) serviceOrder) /\
        (st = firstn k serviceOrder \/ st = firstn (S k) serviceOrder)
  end.
Proof.
  intros w m. destruct (start_stages w m) as [[e ->]|[m1 [-> [Hsh [Hg _]]]]].
  - exists 0%nat, [], e, [], []. cbn [List.length serviceOrder firstn map].
    rewrite app_nil_r. repeat split; auto. lia.
  - pose proof (runStages_spec w _ _ (stages_spec w) m1) as H.
    rewrite Hsh, Hg in H. exact H.
Qed.

(** ** From startup to shutdown *)

Lemma stopAll_done : forall l m, stopAll l m = Done tt m (map EStop l).
Proof.
  induction l as [|h l IH]; intros m; [reflexivity|].
  cbn [stopAll map]. unfold bind, emit. rewrite IH. reflexivity.
Qed.

Lemma enableHealthChecks_range_done : forall l m,
  exists t, enableHealthChecks_range l m = Done tt m t.
Proof.
  induction l as [|e l IH]; intros m; [exists []; reflexivity|].
  destruct (IH m) as [t Ht]. cbn [enableHealthChecks_range].
  unfold log. unfold bind, emit. rewrite Ht. eexists. reflexivity.
Qed.

(** What [Run] does after [start] and [waitUntilNodeReady] never exits
    and leaves the state as it is. *)
Lemma arming_done : forall (c : Chan) m,
  exists t,
    (enableHealthChecks ;; startServices ;; PrintInfoMessage ;;
     emit (ESdNotify "READY=1") ;; ret c) m = Done c m t.
Proof.
  intros c m. unfold enableHealthChecks, startServices, PrintInfoMessage, log.
  destruct (enableHealthChecks_range_done (serviceList m) m) as [t Ht].
  unfold bind, get, emit, ret. rewrite Ht.
  destruct (enableKubeDash m), (enableDns m); eexists; reflexivity.
Qed.

Lemma waitUntilNodeReady_cases : forall w m,
  (exists e, waitUntilNodeReady w m
             = Exited (fatalExit e (if gracefulTerminationMode m then []
                                    else serviceHandlers m))) \/
  (exists t, waitUntilNodeReady w m
             = Done ExitChan
                 (set_gracefulTerminationMode true (set_sigRelay [Interrupt; Kill] m)) t).
Proof.
  intros w m. unfold waitUntilNodeReady.
  destruct (kubeClient_err w) as [e|].
  - left. eexists. rewrite (bind_exited _ _ _ _ _ _ (Fatal_fatalExit _ _ _ _)). reflexivity.
  - right. eexists. reflexivity.
Qed.

(** [Run] up to the wait for the exit signal: when it gets there, all
    six handlers are registered and graceful termination mode is on; when
    it does not, the process has exited through [log.Fatal] with graceful
    termination mode off, stopping the handlers registered so far. *)
Lemma Run_startup_spec : forall w m0,
  match Run_startup w m0 with
  | Done c m t =>
      c = ExitChan /\
      gracefulTerminationMode m = true /\
      serviceHandlers m = serviceHandlers m0 ++ map Handler serviceOrder
  | Exited t =>
      exists n t0 e,
        t = t0 ++ fatalExit e (serviceHandlers m0 ++ map Handler (firstn n serviceOrder))
  end.
Proof.
  intros w m0. unfold Run_startup.
  rewrite (bind_silent _ _ (modify (set_gracefulTerminationMode false)) _ m0 tt
             (set_gracefulTerminationMode false m0) eq_refl).
  pose proof (start_spec w (set_gracefulTerminationMode false m0)) as Hs.
  unfold bind at 1.
  destruct (start w (set_gracefulTerminationMode false m0)) as [[] m1 t1|t1].
  - destruct Hs as [_ [Hsh [Hg _]]]. cbn in Hsh, Hg.
    unfold bind at 1.
    destruct (waitUntilNodeReady_cases w m1) as [[e ->]|[t2 ->]].
    + rewrite Hg, Hsh. exists 6%nat, t1, e. reflexivity.
    + destruct (arming_done ExitChan
                  (set_gracefulTerminationMode true (set_sigRelay [Interrupt; Kill] m1)))
        as [t3 ->].
      cbn. auto.
  - destruct Hs as [k [t0 [e [hs [st [_ [_ [-> [_ [Hhs _]]]]]]]]]]. cbn.
    destruct Hhs as [->| ->]; eauto.
Qed.

(** ** Fatal conditions *)

Lemma checkService_iter_exit : forall entry count success m,
  checkService_iter entry count (ExitEvent success) m =
  if gracefulTerminationMode m
  then Done count m []
  else Exited (fatalExit
                 (mkEntry FatalLevel [] ("Service " ++ name entry ++ " exitted, aborting!")%string)
                 (serviceHandlers m)).
Proof.
  intros entry count success m. unfold checkService_iter, bind, get, ret.
  destruct (gracefulTerminationMode m) eqn:Hg; cbn [negb]; [reflexivity|].
  unfold Fatal, exitHandlerHook, fatalExit. rewrite Hg. reflexivity.
Qed.


(** C1, where the code departs from it. Whenever [Run] gets to the
    point where it waits for the exit signal (the orchestrator is
    running, no signal has arrived), graceful termination mode is
    already on. An exit of a service's process is then forwarded by
    [exitHandler] to the state channel, and [checkService] receives it
    and goes on with its counter unchanged: neither makes the process
    exit, whatever the service, the counter and the exit status are. *)
Theorem exit_while_running_is_absorbed : forall w m0 c m t,
  Run_startup w m0 = Done c m t ->
  gracefulTerminationMode m = true /\
  (forall service success exitError,
     exitHandler service success exitError m
       = Done tt m
           [ ELog (mkEntry ErrorLevel
                     [("success", VBool success); ("app", VStr service);
                      ("error", VErr exitError)] (service ++ " stopped!")%string);
             ESend (StateChan service) success ]) /\
  (forall entry count success,
     checkService_iter entry count (ExitEvent success) m = Done count m []) /\
  (forall entry successes,
     checkService entry (map ExitEvent successes) m = Done 0 m []).
Proof.
  intros w m0 c m t H. pose proof (Run_startup_spec w m0) as Hs.
  rewrite H in Hs. destruct Hs as [_ [Hg _]].
  assert (Hiter : forall entry count success,
            checkService_iter entry count (ExitEvent success) m = Done count m []).
  { intros entry count success. rewrite checkService_iter_exit, Hg. reflexivity. }
  split; [exact Hg|]. split; [|split; [exact Hiter|]].
  - intros service success exitError.
    unfold exitHandler, log. unfold bind, emit, get, ret. rewrite Hg. reflexivity.
  - intros entry successes. unfold checkService. generalize 0.
    induction successes as [|s l IH]; intros count; [reflexivity|].
    cbn [map checkService_loop].
    rewrite (bind_silent _ _ _ _ _ _ _ (Hiter entry count s)). apply IH.
Qed.


(** ** The process handle *)

Lemma exitCallbacks_app : forall t1 t2,
  Helpers.exitCallbacks (t1 ++ t2) = Helpers.exitCallbacks t1 ++ Helpers.exitCallbacks t2.
Proof.
  induction t1 as [|e t1 IH]; intros t2; [reflexivity|].
  destruct e; cbn; rewrite ?IH; reflexivity.
Qed.

Lemma run_app : forall a b h,
  Helpers.run h (a ++ b) =
  (fst (Helpers.run (fst (Helpers.run h a)) b),
   snd (Helpers.run h a) ++ snd (Helpers.run (fst (Helpers.run h a)) b)).
Proof.
  induction a as [|x a IH]; intros b h.
  - cbn. destruct (Helpers.run h b); reflexivity.
  - cbn [Helpers.run app]. destruct (Helpers.act h x) as [h1 t1].
    rewrite IH. destruct (Helpers.run h1 a) as [h2 t2]. cbn [fst snd].
    destruct (Helpers.run h2 b) as [h3 t3]. cbn [fst snd].
    rewrite app_assoc. reflexivity.
Qed.

(** Calls of [Stop()] on a handle whose process is alive: the process
    stays alive until the operating system reports its end, no exit
    callback fires, and at most one signal is sent. *)
Lemma run_stops : forall acts h,
  forallb Helpers.isStop acts = true ->
  Helpers.process h = true -> Helpers.startedFlag h = true ->
  Helpers.process (fst (Helpers.run h acts)) = true /\
  Helpers.startedFlag (fst (Helpers.run h acts)) = true /\
  Helpers.exitCallbacks (snd (Helpers.run h acts)) = [] /\
  Helpers.kills (snd (Helpers.run h acts)) =
    (if Helpers.stoppedFlag h then O
     else match acts with [] => O | _ :: _ => 1%nat end).
Proof.
  induction acts as [|a acts IH]; intros h Hall Hp Hs.
  - cbn. destruct (Helpers.stoppedFlag h); auto.
  - cbn [forallb] in Hall. apply andb_true_iff in Hall. destruct Hall as [Ha Hall].
    destruct a as [|tm]; [|discriminate].
    cbn [Helpers.run Helpers.act]. unfold Helpers.Stop. rewrite Hp, Hs.
    destruct (Helpers.stoppedFlag h) eqn:Hst; cbn [negb andb].
    + specialize (IH h Hall Hp Hs). rewrite Hst in IH.
      destruct (Helpers.run h acts) as [h2 t2]. cbn [fst snd] in *. tauto.
    + specialize (IH (Helpers.mkCmdHandler (Helpers.binary h) (Helpers.args h)
                        true true true)
                     Hall eq_refl eq_refl).
      cbn [Helpers.stoppedFlag] in IH.
      destruct (Helpers.run _ acts) as [h2 t2]. cbn [fst snd] in *.
      destruct IH as [H1 [H2 [H3 H4]]]. cbn [app Helpers.exitCallbacks Helpers.kills].
      rewrite H4. auto.
Qed.

(** A handle without a process: nothing fires, nothing is signalled. *)
Lemma run_released : forall acts h,
  Helpers.process h = false ->
  Helpers.run h acts = (h, []).
Proof.
  induction acts as [|a acts IH]; intros h Hp; [reflexivity|].
  cbn [Helpers.run]. destruct a as [|tm]; cbn [Helpers.act].
  - unfold Helpers.Stop. rewrite Hp, andb_false_r. rewrite (IH h Hp). reflexivity.
  - unfold Helpers.onTermination. rewrite Hp. rewrite (IH h Hp). reflexivity.
Qed.

(** C6. For a process handle that was started, however the process ends
    (it exits with code 0, exits with another code, or is killed after
    [Stop()]), the exit callback is invoked exactly once: not before the
    end of the process, once at its end, and never again; its success
    flag is true exactly when the exit code is 0. *)
Theorem exit_callback_exactly_once : forall os binary args stops tm after,
  Helpers.executable os binary = true ->
  forallb Helpers.isStop stops = true ->
  let h := Helpers.NewCmdHandler binary args in
  fst (Helpers.lifecycle os h (stops ++ Helpers.ATerminate tm :: after)) = None /\
  Helpers.exitCallbacks (snd (Helpers.lifecycle os h stops)) = [] /\
  Helpers.exitCallbacks (snd (Helpers.lifecycle os h (stops ++ [Helpers.ATerminate tm])))
    = [Helpers.exitCode tm =? 0] /\
  Helpers.exitCallbacks (snd (Helpers.lifecycle os h (stops ++ Helpers.ATerminate tm :: after)))
    = [Helpers.exitCode tm =? 0] /\
  ((Helpers.exitCode tm =? 0) = true <-> Helpers.exitCode tm = 0).
Proof.
  intros os binary args stops tm after Hex Hstops h.
  unfold Helpers.lifecycle, Helpers.Start. subst h.
  cbn [Helpers.binary Helpers.args Helpers.NewCmdHandler Helpers.stoppedFlag].
  rewrite Hex. cbn [fst snd].
  set (h1 := Helpers.mkCmdHandler binary args true true false).
  destruct (run_stops stops h1 Hstops eq_refl eq_refl) as [Hp [Hs [Hcb Hk]]].
  assert (Hterm : forall rest,
            Helpers.exitCallbacks (snd (Helpers.run h1 (stops ++ Helpers.ATerminate tm :: rest)))
            = [Helpers.exitCode tm =? 0]).
  { intros rest. rewrite run_app. cbn [snd]. rewrite exitCallbacks_app, Hcb.
    cbn [Helpers.run Helpers.act app]. unfold Helpers.onTermination. rewrite Hp.
    rewrite run_released by reflexivity. reflexivity. }
  split; [reflexivity|].
  split; [rewrite exitCallbacks_app; exact Hcb|].
  split; [rewrite exitCallbacks_app; apply Hterm|].
  split; [rewrite exitCallbacks_app; apply Hterm|].
  apply Z.eqb_eq.
Qed.

(** C7. [Start()] on a binary that cannot be located or executed returns
    an error at once, starts no background task, and whatever happens to
    the handle afterwards, the exit callback does not fire. *)
Theorem start_failure_is_synchronous : forall os binary args acts,
  Helpers.executable os binary = false ->
  let h := Helpers.NewCmdHandler binary args in
  (exists err, Helpers.Start os h = (h, Some err, [])) /\
  fst (Helpers.lifecycle os h acts) <> None /\
  Helpers.tasks (snd (Helpers.lifecycle os h acts)) = O /\
  Helpers.exitCallbacks (snd (Helpers.lifecycle os h acts)) = [].
Proof.
  intros os binary args acts Hex h. subst h.
  unfold Helpers.lifecycle, Helpers.Start.
  cbn [Helpers.binary Helpers.NewCmdHandler]. rewrite Hex.
  rewrite run_released by reflexivity. cbn.
  repeat split; eauto. discriminate.
Qed.

(** ** Service handlers *)

Lemma Stop_twice : forall c,
  Helpers.Stop (fst (Helpers.Stop c)) = (fst (Helpers.Stop c), []).
Proof.
  intros c. unfold Helpers.Stop.
  destruct (Helpers.startedFlag c) eqn:Hs, (Helpers.stoppedFlag c) eqn:Hst,
           (Helpers.process c) eqn:Hp;
    cbn; rewrite ?Hs, ?Hst, ?Hp; reflexivity.
Qed.

(** C8. [Stop()] of a service handler is idempotent: on a handler that
    was never started it does nothing; a second [Stop()] right after a
    first one does nothing, whatever the handler's state; and two calls
    on a running handler send one signal and lead to one exit callback. *)
Theorem Stop_idempotent :
  (forall binary sudoBin listenAddress workdir kubeconfig,
     let handler := Kube.NewKubeletHandler binary sudoBin listenAddress workdir kubeconfig in
     Kube.Stop handler = (handler, [])) /\
  (forall handler,
     Kube.Stop (fst (Kube.Stop handler)) = (fst (Kube.Stop handler), [])) /\
  (forall os cniPrepared binary sudoBin listenAddress workdir kubeconfig tm,
     Helpers.executable os sudoBin = true ->
     let handler := Kube.NewKubeletHandler binary sudoBin listenAddress workdir kubeconfig in
     let started := Kube.Start os cniPrepared handler in
     let stop1 := Kube.Stop (fst (fst started)) in
     let stop2 := Kube.Stop (fst stop1) in
     let ended := Kube.terminated (fst stop2) tm in
     snd (fst started) = None /\
     snd stop1 = [Helpers.PKill] /\
     snd stop2 = [] /\
     fst stop2 = fst stop1 /\
     Helpers.exitCallbacks (snd started ++ snd stop1 ++ snd stop2 ++ snd ended)
       = [Helpers.exitCode tm =? 0]).
Proof.
  split; [|split].
  - intros. reflexivity.
  - intros handler. unfold Kube.Stop, Kube.stop.
    destruct (Kube.cmd handler) as [c|] eqn:Hc.
    + pose proof (Stop_twice c) as H2.
      destruct (Helpers.Stop c) as [c1 t1]. cbn [fst] in *.
      cbn. rewrite H2. reflexivity.
    + cbn. rewrite Hc. reflexivity.
  - intros os cniPrepared binary sudoBin listenAddress workdir kubeconfig tm Hex.
    cbn zeta. unfold Kube.Start, Helpers.Start, Kube.NewKubeletHandler.
    cbn [Kube.sudoBin Helpers.binary Helpers.NewCmdHandler]. rewrite Hex.
    cbn. repeat split.
Qed.

(** ** The theorems at concrete inputs *)

(** Nine and ten refused probes of etcd, with all services up. *)
Lemma checkService_failure_counter_witness :
  (exists t, checkService etcdEntry (map HealthEvent (repeat refused 9)) readyState
             = Done 9 readyState t /\ ~ In (EOsExit 1) t) /\
  (exists t, checkService etcdEntry (map HealthEvent (repeat refused 10)) readyState
             = Exited t /\ In (EOsExit 1) t).
Proof.
  destruct (checkService_failure_counter etcdEntry readyState) as [_ [_ H]].
  split.
  - apply (H [] (repeat refused 9) 0 readyState []);
      [reflexivity|left; reflexivity|repeat constructor|cbn; lia].
  - apply (H [] (repeat refused 10) 0 readyState []);
      [reflexivity|left; reflexivity|repeat constructor|reflexivity].
Defined.

(** The health gate of a kubelet that never turns healthy. *)
Lemma startService_health_gate_witness :
  exists n : nat,
    (n <= 8)%nat /\
    probes (trace_of (startService (sickWorld "kubelet") "kubelet"
                        (fun w => (Handler "kubelet", newHandler_err w "kubelet")) initial)) = n.
Proof.
  destruct (startService_health_gate (sickWorld "kubelet") "kubelet"
              (fun w => (Handler "kubelet", newHandler_err w "kubelet"))
              (Handler "kubelet") initial eq_refl eq_refl) as [_ [n [Hn [Hp _]]]].
  exists n. split; assumption.
Defined.


(** The process of the kill test: stopped twice, then reported as killed,
    then stopped again. *)
Lemma exit_callback_exactly_once_witness :
  Helpers.exitCallbacks
    (snd (Helpers.lifecycle Helpers.testOS
            (Helpers.NewCmdHandler "/bin/bash" ["-c"; "sleep 120"])
            ([Helpers.AStop; Helpers.AStop] ++
             Helpers.ATerminate (Helpers.Signaled 9) :: [Helpers.AStop])))
  = [false].
Proof.
  apply (exit_callback_exactly_once Helpers.testOS "/bin/bash" ["-c"; "sleep 120"]
           [Helpers.AStop; Helpers.AStop] (Helpers.Signaled 9) [Helpers.AStop]);
    reflexivity.
Defined.

(** The binary of the invalid-invocation test. *)
Lemma start_failure_is_synchronous_witness :
  Helpers.exitCallbacks
    (snd (Helpers.lifecycle Helpers.testOS
            (Helpers.NewCmdHandler "/bin/FooBarBazBash" ["-c"; "echo test"])
            [Helpers.AStop; Helpers.ATerminate (Helpers.Exits 0)]))
  = [].
Proof.
  apply (start_failure_is_synchronous Helpers.testOS "/bin/FooBarBazBash" ["-c"; "echo test"]
           [Helpers.AStop; Helpers.ATerminate (Helpers.Exits 0)]).
  reflexivity.
Defined.

(** A kubelet handler started through pkexec and stopped twice. *)
Lemma Stop_idempotent_witness :
  let handler := Kube.NewKubeletHandler "hyperkube" "/usr/bin/pkexec" "127.0.0.1"
                   "/var/lib/mukube/kube" "/var/lib/mukube/kube/kubeconfig" in
  let started := Kube.Start Helpers.testOS false handler in
  let stop1 := Kube.Stop (fst (fst started)) in
  let stop2 := Kube.Stop (fst stop1) in
  snd stop1 = [Helpers.PKill] /\ snd stop2 = [].
Proof.
  destruct Stop_idempotent as [_ [_ H]].
  destruct (H Helpers.testOS false "hyperkube" "/usr/bin/pkexec" "127.0.0.1"
              "/var/lib/mukube/kube" "/var/lib/mukube/kube/kubeconfig"
              (Helpers.Signaled 9) eq_refl) as [_ [H1 [H2 _]]].
  split; assumption.
Defined.

(** In [healthyWorld] all six services are up and the node is ready;
    then the etcd process is killed. *)
Lemma exit_while_running_is_absorbed_witness :
  exists c t,
    Run_startup healthyWorld initial = Done c readyState t /\
    gracefulTerminationMode readyState = true /\
    exited (exitHandler "etcd" false (Some "signal: killed") readyState) = false /\
    checkService etcdEntry [ExitEvent false] readyState = Done 0 readyState [].
Proof.
  eexists _, _. split; [vm_compute; reflexivity|].
  destruct (exit_while_running_is_absorbed healthyWorld initial ExitChan readyState _
              ltac:(vm_compute; reflexivity)) as [Hg [Hexit [_ Hmon]]].
  split; [exact Hg|]. split.
  - rewrite Hexit. reflexivity.
  - exact (Hmon etcdEntry [false]).
Defined.

(* ===================================================================== *)
(** * Further properties *)
(* ===================================================================== *)

(** ** Strings *)

Section StringFacts.

Import GoStrings.

Lemma take_drop : forall n s, (take n s ++ drop n s)%string = s.
Proof.
  induction n as [|n IH]; intros s; [reflexivity|].
  destruct s as [|c s]; [reflexivity|]. cbn. rewrite IH. reflexivity.
Qed.

Lemma take_app_length : forall a b, take (String.length a) (a ++ b)%string = a.
Proof.
  induction a as [|c a IH]; intros b; cbn.
  - destruct b; reflexivity.
  - rewrite IH. reflexivity.
Qed.

Lemma drop_app_length : forall a b, drop (String.length a) (a ++ b)%string = b.
Proof. induction a as [|c a IH]; intros b; cbn; [reflexivity|apply IH]. Qed.

Lemma length_app : forall a b,
  String.length (a ++ b)%string = (String.length a + String.length b)%nat.
Proof. induction a as [|c a IH]; intros b; cbn; [reflexivity|rewrite IH; reflexivity]. Qed.

Lemma app_assoc_s : forall a b c : string, ((a ++ b) ++ c = a ++ b ++ c)%string.
Proof. induction a as [|x a IH]; intros b c; cbn; [reflexivity|rewrite IH; reflexivity]. Qed.

Lemma prefix_split : forall a s,
  String.prefix a s = true -> s = (a ++ drop (String.length a) s)%string.
Proof.
  induction a as [|c a IH]; intros s H; [reflexivity|].
  destruct s as [|x s]; [discriminate|]. cbn in H.
  destruct (ascii_dec c x) as [->|]; [|discriminate].
  cbn. rewrite <- (IH s H). reflexivity.
Qed.

Lemma prefix_app : forall a b, String.prefix a (a ++ b)%string = true.
Proof.
  induction a as [|c a IH]; intros b; cbn; [destruct b; reflexivity|].
  destruct (ascii_dec c c); [apply IH|congruence].
Qed.

Lemma prefix_take : forall a n s,
  String.prefix a (take n s) = true -> String.prefix a s = true.
Proof.
  induction a as [|c a IH]; intros n s H.
  - destruct s; reflexivity.
  - destruct n as [|n], s as [|x s]; cbn in H |- *; try discriminate.
    destruct (ascii_dec c x); [eapply IH; eauto|discriminate].
Qed.

Lemma prefix_empty : forall a, a <> EmptyString -> String.prefix a EmptyString = false.
Proof. intros [|c a] H; [congruence|reflexivity]. Qed.

(** The result of [Index] is -1 or a position at which the whole of
    [substr] fits. *)
Lemma Index_range : forall s substr,
  Index s substr = -1 \/
  (0 <= Index s substr /\ Index s substr + len substr <= len s).
Proof.
  induction s as [|c s IH]; intros substr; cbn [Index].
  - destruct (String.prefix substr EmptyString) eqn:E; [|left; reflexivity].
    right. destruct substr; [|discriminate]. cbn. lia.
  - destruct (String.prefix substr (String c s)) eqn:E.
    + right. apply prefix_split in E. split; [lia|].
      unfold len. rewrite E, length_app. lia.
    + destruct (IH substr) as [H|[H0 H1]].
      * rewrite H. left. reflexivity.
      * right. destruct (Z.ltb_spec (Index s substr) 0); [lia|].
        unfold len in *. cbn [String.length]. lia.
Qed.

(** At the position [Index] finds, [s] splits into what is before the
    first instance of [substr], the instance, and what is after it; and
    there is no instance before. *)
Lemma Index_found : forall s substr,
  substr <> EmptyString ->
  0 <= Index s substr ->
  let i := Z.to_nat (Index s substr) in
  s = (take i s ++ substr ++ drop (i + String.length substr) s)%string /\
  Index (take i s) substr = -1.
Proof.
  induction s as [|c s IH]; intros substr Hne H; cbn [Index] in *.
  - rewrite (prefix_empty _ Hne) in H. lia.
  - destruct (String.prefix substr (String c s)) eqn:E.
    + split.
      * cbn. apply prefix_split; exact E.
      * destruct substr; [congruence|reflexivity].
    + destruct (Z.ltb_spec (Index s substr) 0) as [Hlt|Hge]; [lia|].
      destruct (IH substr Hne Hge) as [Hs Hn].
      replace (Z.to_nat (Index s substr + 1)) with (S (Z.to_nat (Index s substr))) by lia.
      cbn [take drop Nat.add String.append]. split.
      * rewrite <- Hs. reflexivity.
      * cbn [Index]. rewrite Hn.
        destruct (String.prefix substr (String c (take (Z.to_nat (Index s substr)) s))) eqn:E2;
          [|reflexivity].
        apply (prefix_take substr (S (Z.to_nat (Index s substr))) (String c s)) in E2.
        congruence.
Qed.

(** A one-byte separator is absent exactly when no byte is equal to it. *)
Lemma Index_byte_absent : forall c s,
  Index s (String c EmptyString) = -1 <->
  all (fun x => negb (Ascii.eqb x c)) s = true.
Proof.
  intros c. induction s as [|x s IH]; cbn [Index all String.prefix].
  - split; reflexivity.
  - destruct (ascii_dec c x) as [->|Hne].
    + rewrite Ascii.eqb_refl. cbn. destruct s; split; intros; discriminate.
    + assert (Ascii.eqb x c = false) as -> by (apply Ascii.eqb_neq; congruence).
      cbn [negb andb]. rewrite <- IH.
      destruct (Index_range s (String c EmptyString)) as [H|[H0 _]].
      * rewrite H. cbn. tauto.
      * destruct (Z.ltb_spec (Index s (String c EmptyString)) 0); [lia|].
        split; intros; lia.
Qed.

(** The first instance of a one-byte separator after a stretch without
    it. *)
Lemma Index_byte_app : forall c a b,
  all (fun x => negb (Ascii.eqb x c)) a = true ->
  Index (a ++ String c b)%string (String c EmptyString) = len a.
Proof.
  intros c. induction a as [|x a IH]; intros b H; cbn [String.append Index String.prefix].
  - destruct (ascii_dec c c); [|congruence]. destruct b; reflexivity.
  - cbn [all] in H. apply andb_true_iff in H. destruct H as [Hx Ha].
    destruct (ascii_dec c x) as [->|Hne];
      [rewrite Ascii.eqb_refl in Hx; discriminate|].
    rewrite (IH b Ha). unfold len. cbn [String.length].
    destruct (Z.ltb_spec (Z.of_nat (String.length a)) 0); lia.
Qed.

(** The first instance of a separator of two different bytes after a
    stretch without it. *)
Lemma Index_pair_app : forall c1 c2 a b,
  c1 <> c2 ->
  Index a (String c1 (String c2 EmptyString)) = -1 ->
  Index (a ++ String c1 (String c2 b))%string (String c1 (String c2 EmptyString)) = len a.
Proof.
  intros c1 c2 a b Hne. induction a as [|x a IH]; intros H.
  - cbn. destruct (ascii_dec c1 c1); [|congruence].
    destruct (ascii_dec c2 c2); [|congruence]. destruct b; reflexivity.
  - cbn [Index] in H.
    destruct (String.prefix (String c1 (String c2 EmptyString)) (String x a)) eqn:E;
      [discriminate|].
    assert (Ha : Index a (String c1 (String c2 EmptyString)) = -1).
    { destruct (Index_range a (String c1 (String c2 EmptyString))) as [Hi|[Hi _]]; [exact Hi|].
      destruct (Z.ltb_spec (Index a (String c1 (String c2 EmptyString))) 0); lia. }
    cbn [String.append Index]. rewrite (IH Ha).
    assert (E' : String.prefix (String c1 (String c2 EmptyString))
                   (String x (a ++ String c1 (String c2 b))) = false).
    { cbn in *. destruct (ascii_dec c1 x); [|reflexivity].
      destruct a as [|y a]; cbn in *.
      - destruct (ascii_dec c2 c1); [congruence|reflexivity].
      - destruct (ascii_dec c2 y); [|reflexivity].
        destruct a; discriminate. }
    rewrite E'. unfold len. cbn [String.length].
    destruct (Z.ltb_spec (Z.of_nat (String.length a)) 0); lia.
Qed.

End StringFacts.

(** ** The kubernetes log line parser *)

Section KubeLogFacts.

Import GoStrings KubeLog.

Lemma takeUntil_cases : forall rest sep,
  sep <> EmptyString ->
  (takeUntil rest sep = Some None /\ Index rest sep = -1) \/
  (exists f r, takeUntil rest sep = Some (Some (f, r)) /\
               rest = (f ++ sep ++ r)%string /\ Index f sep = -1).
Proof.
  intros rest sep Hne. unfold takeUntil.
  destruct (Index_range rest sep) as [H|[H0 H1]].
  - rewrite H. left. auto.
  - right. destruct (Index_found rest sep Hne H0) as [Hs Hn].
    assert (Hl : 0 <= len sep) by (unfold len; lia).
    unfold sliceTo, sliceFrom.
    replace (0 <=? Index rest sep) with true by (symmetry; apply Z.leb_le; lia).
    replace (Index rest sep <=? len rest) with true by (symmetry; apply Z.leb_le; lia).
    replace (0 <=? Index rest sep + len sep) with true by (symmetry; apply Z.leb_le; lia).
    replace (Index rest sep + len sep <=? len rest) with true
      by (symmetry; apply Z.leb_le; lia).
    cbn [andb].
    replace (Z.to_nat (Index rest sep + len sep))
      with (Z.to_nat (Index rest sep) + String.length sep)%nat by (unfold len; lia).
    eexists _, _. split; [reflexivity|]. split; [exact Hs|exact Hn].
Qed.

Lemma takeUntil_app : forall f sep r,
  Index (f ++ sep ++ r)%string sep = len f ->
  takeUntil (f ++ sep ++ r)%string sep = Some (Some (f, r)).
Proof.
  intros f sep r H. unfold takeUntil. rewrite H. unfold sliceTo, sliceFrom, len.
  rewrite !length_app.
  replace (0 <=? Z.of_nat (String.length f)) with true by (symmetry; apply Z.leb_le; lia).
  replace (Z.of_nat (String.length f)
           <=? Z.of_nat (String.length f + (String.length sep + String.length r)))
    with true by (symmetry; apply Z.leb_le; lia).
  replace (0 <=? Z.of_nat (String.length f) + Z.of_nat (String.length sep))
    with true by (symmetry; apply Z.leb_le; lia).
  replace (Z.of_nat (String.length f) + Z.of_nat (String.length sep)
           <=? Z.of_nat (String.length f + (String.length sep + String.length r)))
    with true by (symmetry; apply Z.leb_le; lia).
  cbn [andb]. rewrite Nat2Z.id, take_app_length.
  replace (Z.to_nat (Z.of_nat (String.length f) + Z.of_nat (String.length sep)))
    with (String.length (f ++ sep)) by (rewrite length_app; lia).
  rewrite <- app_assoc_s, drop_app_length. reflexivity.
Qed.

Lemma takeUntil_byte : forall c f r,
  all (fun x => negb (Ascii.eqb x c)) f = true ->
  takeUntil (f ++ String c r)%string (String c EmptyString) = Some (Some (f, r)).
Proof.
  intros c f r H.
  apply (takeUntil_app f (String c EmptyString) r). cbn [String.append].
  apply Index_byte_app. exact H.
Qed.

Lemma takeUntil_pair : forall c1 c2 f r,
  c1 <> c2 ->
  Index f (String c1 (String c2 EmptyString)) = -1 ->
  takeUntil (f ++ String c1 (String c2 r))%string (String c1 (String c2 EmptyString))
  = Some (Some (f, r)).
Proof.
  intros c1 c2 f r Hne H.
  apply (takeUntil_app f (String c1 (String c2 EmptyString)) r). cbn [String.append].
  apply Index_pair_app; assumption.
Qed.

Ltac take_field sep f r Heq Hn :=
  match goal with
  | |- context [takeUntil ?s sep] =>
      let Hne := fresh in
      assert (Hne : sep <> EmptyString) by discriminate;
      destruct (takeUntil_cases s sep Hne) as [[-> _]|[f [r [-> [Heq Hn]]]]];
      clear Hne;
      [eexists _, false; split; [reflexivity|discriminate]|]
  end.

Lemma Extract_parts : forall p line,
  exists p' ok,
    Extract p line = Some (p', ok) /\
    (ok = true ->
     line = format (SeverityID p') (Time p') (UnknownAttribute p') (Location p')
              (Message p') (rest p') /\
     all notSpace (SeverityID p') = true /\
     all notSpace (Time p') = true /\
     all notSpace (UnknownAttribute p') = true /\
     Index (Location p') "] " = -1 /\
     all notNewline (Message p') = true).
Proof.
  intros p line. unfold Extract. cbn [rest SeverityID Time UnknownAttribute Location Message].
  take_field space f1 r1 H1 N1.
  take_field space f2 r2 H2 N2.
  take_field space f3 r3 H3 N3.
  take_field rsbrckSpace f4 r4 H4 N4.
  take_field bslashN f5 r5 H5 N5.
  eexists _, true. split; [reflexivity|]. intros _.
  cbn [rest SeverityID Time UnknownAttribute Location Message].
  subst. unfold format. repeat split; try reflexivity; try assumption.
  - apply (Index_byte_absent " "%char). exact N1.
  - apply (Index_byte_absent " "%char). exact N2.
  - apply (Index_byte_absent " "%char). exact N3.
  - apply (Index_byte_absent (Ascii.ascii_of_nat 10)). exact N5.
Qed.

(** [Extract] never panics, and a line it accepts is the five fields it
    has taken, joined by the separators of the format, followed by the
    rest it has left; the fields taken up to a space hold no space, the
    location holds no ["] "] and the message no line feed. *)
Theorem Extract_sound : forall p line,
  exists p' ok,
    Extract p line = Some (p', ok) /\
    (ok = true ->
     line = format (SeverityID p') (Time p') (UnknownAttribute p') (Location p')
              (Message p') (rest p') /\
     all notSpace (SeverityID p') = true /\
     all notSpace (Time p') = true /\
     all notSpace (UnknownAttribute p') = true /\
     Index (Location p') "] " = -1 /\
     all notNewline (Message p') = true).
Proof. exact Extract_parts. Qed.

Lemma Extract_of_format : forall p sev time unk loc msg tail,
  all notSpace sev = true ->
  all notSpace time = true ->
  all notSpace unk = true ->
  Index loc "] " = -1 ->
  all notNewline msg = true ->
  Extract p (format sev time unk loc msg tail)
  = Some (mkKubeLogLine tail sev time unk loc msg, true).
Proof.
  intros p sev time unk loc msg tail Hs Ht Hu Hl Hm.
  unfold Extract, format, bslashN.
  cbn [rest SeverityID Time UnknownAttribute Location Message String.append].
  unfold space. rewrite (takeUntil_byte " "%char sev _ Hs).
  cbn [rest SeverityID Time UnknownAttribute Location Message].
  rewrite (takeUntil_byte " "%char time _ Ht).
  cbn [rest SeverityID Time UnknownAttribute Location Message].
  rewrite (takeUntil_byte " "%char unk _ Hu).
  cbn [rest SeverityID Time UnknownAttribute Location Message].
  unfold rsbrckSpace. rewrite (takeUntil_pair "]"%char " "%char loc _ ltac:(discriminate) Hl).
  cbn [rest SeverityID Time UnknownAttribute Location Message].
  rewrite (takeUntil_byte (Ascii.ascii_of_nat 10) msg _ Hm).
  reflexivity.
Qed.

(** A line in the format is taken apart into the fields it was made of. *)
Theorem Extract_format : forall p sev time unk loc msg tail,
  all notSpace sev = true ->
  all notSpace time = true ->
  all notSpace unk = true ->
  Index loc "] " = -1 ->
  all notNewline msg = true ->
  Extract p (format sev time unk loc msg tail)
  = Some (mkKubeLogLine tail sev time unk loc msg, true).
Proof. exact Extract_of_format. Qed.

End KubeLogFacts.

Section RestfulFacts.

Import GoStrings KubeLog.

Lemma passPrefix_cases : forall rest pre,
  (passPrefix rest pre = Some None /\ HasPrefix rest pre = false) \/
  (exists r, passPrefix rest pre = Some (Some r) /\ rest = (pre ++ r)%string).
Proof.
  intros rest pre. unfold passPrefix, HasPrefix.
  destruct (String.prefix pre rest) eqn:E; [|left; auto].
  right. pose proof (prefix_split _ _ E) as Hs.
  unfold sliceFrom, len.
  assert (Hl : (String.length pre <= String.length rest)%nat).
  { rewrite Hs, length_app. lia. }
  replace (0 <=? Z.of_nat (String.length pre)) with true by (symmetry; apply Z.leb_le; lia).
  replace (Z.of_nat (String.length pre) <=? Z.of_nat (String.length rest)) with true
    by (symmetry; apply Z.leb_le; lia).
  cbn [andb]. rewrite Nat2Z.id. eexists. split; [reflexivity|exact Hs].
Qed.

Lemma passPrefix_app : forall pre r,
  passPrefix (pre ++ r)%string pre = Some (Some r).
Proof.
  intros pre r.
  destruct (passPrefix_cases (pre ++ r)%string pre) as [[_ H]|[r' [-> H]]].
  - unfold HasPrefix in H. rewrite prefix_app in H. discriminate.
  - assert (r = r'); [|congruence].
    apply (f_equal (drop (String.length pre))) in H.
    rewrite !drop_app_length in H. exact H.
Qed.

Ltac take_fieldR sep f r Heq Hn :=
  match goal with
  | |- context [takeUntil ?s sep] =>
      let Hne := fresh in
      assert (Hne : sep <> EmptyString) by discriminate;
      destruct (takeUntil_cases s sep Hne) as [[-> _]|[f [r [-> [Heq Hn]]]]];
      clear Hne;
      [eexists _, false; split; [reflexivity|discriminate]|]
  end.

Ltac pass_prefix pre r Heq :=
  match goal with
  | |- context [passPrefix ?s pre] =>
      destruct (passPrefix_cases s pre) as [[-> _]|[r [-> Heq]]];
      [eexists _, false; split; [reflexivity|discriminate]|]
  end.

Lemma ExtractRestful_parts : forall p line,
  exists p' ok,
    ExtractRestful p line = Some (p', ok) /\
    (ok = true ->
     line = formatRestful (Date p') (TimeR p') (LocationR p') (MessageR p') (restR p') /\
     all notSpace (Date p') = true /\
     all notSpace (TimeR p') = true /\
     Index (LocationR p') ": " = -1 /\
     all notNewline (MessageR p') = true).
Proof.
  intros p line. unfold ExtractRestful. cbn [restR Date TimeR LocationR MessageR].
  pass_prefix lsbrckRestfulRsbrckSpace r0 H0.
  cbn [restR Date TimeR LocationR MessageR].
  take_fieldR space f1 r1 H1 N1.
  take_fieldR space f2 r2 H2 N2.
  take_fieldR colonSpace f3 r3 H3 N3.
  pass_prefix lsbrckRestfulSlashSwaggerRsbrckSpace r4 H4.
  cbn [restR Date TimeR LocationR MessageR].
  take_fieldR bslashN f5 r5 H5 N5.
  eexists _, true. split; [reflexivity|]. intros _.
  cbn [restR Date TimeR LocationR MessageR].
  subst. unfold formatRestful. repeat split; try reflexivity; try assumption.
  - apply (Index_byte_absent " "%char). exact N1.
  - apply (Index_byte_absent " "%char). exact N2.
  - apply (Index_byte_absent (Ascii.ascii_of_nat 10)). exact N5.
Qed.

(** [KubeLogLineRestful.Extract] never panics, and a line it accepts is
    its four fields in the restful format, followed by the rest. *)
Theorem ExtractRestful_sound : forall p line,
  exists p' ok,
    ExtractRestful p line = Some (p', ok) /\
    (ok = true ->
     line = formatRestful (Date p') (TimeR p') (LocationR p') (MessageR p') (restR p') /\
     all notSpace (Date p') = true /\
     all notSpace (TimeR p') = true /\
     Index (LocationR p') ": " = -1 /\
     all notNewline (MessageR p') = true).
Proof. exact ExtractRestful_parts. Qed.

Lemma ExtractRestful_of_format : forall p date time loc msg tail,
  all notSpace date = true ->
  all notSpace time = true ->
  Index loc ": " = -1 ->
  all notNewline msg = true ->
  ExtractRestful p (formatRestful date time loc msg tail)
  = Some (mkKubeLogLineRestful tail date time loc msg, true).
Proof.
  intros p date time loc msg tail Hd Ht Hl Hm.
  unfold ExtractRestful, formatRestful. cbn [restR Date TimeR LocationR MessageR].
  rewrite (passPrefix_app lsbrckRestfulRsbrckSpace).
  cbn [restR Date TimeR LocationR MessageR].
  unfold space, bslashN. cbn [String.append].
  rewrite (takeUntil_byte " "%char date _ Hd).
  cbn [restR Date TimeR LocationR MessageR].
  rewrite (takeUntil_byte " "%char time _ Ht).
  cbn [restR Date TimeR LocationR MessageR].
  unfold colonSpace.
  rewrite (takeUntil_pair ":"%char " "%char loc _ ltac:(discriminate) Hl).
  cbn [restR Date TimeR LocationR MessageR].
  change (String "[" (String "r" (String "e" (String "s" (String "t" (String "f"
            (String "u" (String "l" (String "/" (String "s" (String "w" (String "a"
            (String "g" (String "g" (String "e" (String "r" (String "]" (String " "
            (msg ++ String (Ascii.ascii_of_nat 10) tail)))))))))))))))))))%string
    with (lsbrckRestfulSlashSwaggerRsbrckSpace ++ (msg ++ String (Ascii.ascii_of_nat 10) tail))%string.
  rewrite (passPrefix_app lsbrckRestfulSlashSwaggerRsbrckSpace).
  cbn [restR Date TimeR LocationR MessageR].
  rewrite (takeUntil_byte (Ascii.ascii_of_nat 10) msg _ Hm).
  reflexivity.
Qed.

(** A line in the restful format is taken apart into the fields it was
    made of. *)
Theorem ExtractRestful_format : forall p date time loc msg tail,
  all notSpace date = true ->
  all notSpace time = true ->
  Index loc ": " = -1 ->
  all notNewline msg = true ->
  ExtractRestful p (formatRestful date time loc msg tail)
  = Some (mkKubeLogLineRestful tail date time loc msg, true).
Proof. exact ExtractRestful_of_format. Qed.

End RestfulFacts.

Section HandleLineFacts.

Import GoStrings KubeLog.

Lemma handleLine_restful : forall app line,
  HasPrefix line "[restful]" = true ->
  exists e, handleLine app line = Returned None [e].
Proof.
  intros app line H. unfold handleLine. rewrite H.
  destruct (ExtractRestful_parts emptyRestful line) as [p' [ok [-> _]]].
  destruct ok; cbn [negb]; eexists; reflexivity.
Qed.

Lemma first_none : forall s, first s = None -> s = EmptyString.
Proof. intros [|c s] H; [reflexivity|discriminate]. Qed.

Lemma handleLine_plain : forall app line,
  HasPrefix line "[restful]" = false ->
  exists p ok,
    Extract emptyLine (collapseSpaces line) = Some (p, ok) /\
    (handleLine app line = Panicked <-> ok = true /\ SeverityID p = EmptyString) /\
    (handleLine app line = Panicked \/
     exists es, handleLine app line = Returned None es /\
                (1 <= List.length es <= 2)%nat).
Proof.
  intros app line H. unfold handleLine. rewrite H.
  destruct (Extract_parts emptyLine (collapseSpaces line)) as [p [ok [-> _]]].
  exists p, ok. split; [reflexivity|].
  destruct ok.
  - destruct (SeverityID p) as [|c s] eqn:Es; cbn [first].
    + split; [split; auto|left; reflexivity].
    + split.
      * split; [|intros [_ Hc]; discriminate].
        repeat match goal with
               | |- context [if ?b then _ else _] => destruct b
               end; discriminate.
      * right.
        repeat match goal with
               | |- context [if ?b then _ else _] => destruct b
               end; eexists; (split; [reflexivity|cbn; lia]).
  - split.
    + split; [discriminate|intros [Hc _]; discriminate].
    + right. eexists. split; [reflexivity|cbn; lia].
Qed.

(** [handleLine] panics on exactly one kind of line: one that is not
    marked as restful and, once its runs of spaces are collapsed, has the
    kubernetes format with an empty severity, that is, begins with a
    space. The byte of the severity that decides the level is then
    missing. *)
Theorem handleLine_panics_iff : forall app line,
  handleLine app line = Panicked <->
  HasPrefix line "[restful]" = false /\
  exists time unk loc msg tail,
    collapseSpaces line = format "" time unk loc msg tail /\
    all notSpace time = true /\
    all notSpace unk = true /\
    Index loc "] " = -1 /\
    all notNewline msg = true.
Proof.
  intros app line. destruct (HasPrefix line "[restful]") eqn:Hp.
  - destruct (handleLine_restful app line Hp) as [e ->].
    split; [discriminate|intros [Hc _]; discriminate].
  - destruct (handleLine_plain app line Hp) as [p [ok [He [Hiff _]]]].
    rewrite Hiff. split.
    + intros [-> Hs]. split; [reflexivity|].
      destruct (Extract_parts emptyLine (collapseSpaces line)) as [p' [ok' [He' Hsound]]].
      rewrite He in He'. injection He' as <- <-.
      destruct (Hsound eq_refl) as [Hl [_ [Ht [Hu [Hloc Hm]]]]].
      rewrite Hs in Hl. eauto 10.
    + intros [_ [time [unk [loc [msg [tail [Hl [Ht [Hu [Hloc Hm]]]]]]]]]].
      rewrite Hl in He.
      rewrite (Extract_of_format emptyLine "" time unk loc msg tail eq_refl Ht Hu Hloc Hm) in He.
      injection He as <- <-. auto.
Qed.

(** [handleLine] never returns an error: unless it panics, it returns
    [nil] after writing one log entry, or two for a severity it does not
    know; a line marked as restful never makes it panic. *)
Theorem handleLine_no_error : forall app line,
  (handleLine app line = Panicked \/
   exists es, handleLine app line = Returned None es /\ (1 <= List.length es <= 2)%nat) /\
  (HasPrefix line "[restful]" = true -> handleLine app line <> Panicked).
Proof.
  intros app line. destruct (HasPrefix line "[restful]") eqn:Hp.
  - destruct (handleLine_restful app line Hp) as [e ->]. split.
    + right. eexists. split; [reflexivity|cbn; lia].
    + discriminate.
  - destruct (handleLine_plain app line Hp) as [p [ok [_ [_ H]]]].
    split; [exact H|discriminate].
Qed.

(** A line in the kubernetes format is logged once, with its message and
    its location, at the level its severity begins with: I and N as
    info, E and S as error, W as warning, D as debug. With any other
    first byte, the parser warns about the unknown level and logs the
    whole line as a warning. *)
Theorem handleLine_level : forall app line c sev time unk loc msg tail,
  HasPrefix line "[restful]" = false ->
  collapseSpaces line = format (String c sev) time unk loc msg tail ->
  all notSpace (String c sev) = true ->
  all notSpace time = true ->
  all notSpace unk = true ->
  Index loc "] " = -1 ->
  all notNewline msg = true ->
  handleLine app line =
  match severityLevel c with
  | Some l =>
      Returned None
        [entry l [("app", Orchestrator.VStr app); ("location", Orchestrator.VStr loc)] msg]
  | None =>
      Returned None
        [entry Orchestrator.WarnLevel
           [("component", Orchestrator.VStr "KubeLogParser");
            ("app", Orchestrator.VStr "microkube");
            ("level", byteValue c)]
           "Unknown severity level in kube log parser";
         entry Orchestrator.WarnLevel [("app", Orchestrator.VStr app)]
           (collapseSpaces line)]
  end.
Proof.
  intros app line c sev time unk loc msg tail Hp Hl Hs Ht Hu Hloc Hm.
  unfold handleLine. rewrite Hp, Hl.
  rewrite (Extract_of_format emptyLine (String c sev) time unk loc msg tail Hs Ht Hu Hloc Hm).
  cbn [first SeverityID Location Message]. unfold severityLevel.
  destruct (Ascii.eqb_spec c "I") as [->|_]; [reflexivity|].
  destruct (Ascii.eqb_spec c "E") as [->|_]; [reflexivity|].
  destruct (Ascii.eqb_spec c "W") as [->|_]; [reflexivity|].
  destruct (Ascii.eqb_spec c "D") as [->|_]; [reflexivity|].
  destruct (Ascii.eqb_spec c "N") as [->|_]; [reflexivity|].
  destruct (Ascii.eqb_spec c "S") as [->|_]; reflexivity.
Qed.

End HandleLineFacts.

(** ** The kubelet health probe *)

Section ProbeFacts.

Import GoStrings KubeletProbe.

Lemma TrimLeft_split : forall s cs,
  exists pre, s = (pre ++ TrimLeft s cs)%string /\ all (contains cs) pre = true.
Proof.
  induction s as [|c s IH]; intros cs; cbn [TrimLeft].
  - exists EmptyString. auto.
  - destruct (contains cs c) eqn:E.
    + destruct (IH cs) as [pre [Hs Hp]]. exists (String c pre). cbn.
      rewrite <- Hs, E, Hp. auto.
    + exists EmptyString. auto.
Qed.

Lemma TrimLeft_app : forall pre c t cs,
  all (contains cs) pre = true -> contains cs c = false ->
  TrimLeft (pre ++ String c t) cs = String c t.
Proof.
  induction pre as [|x pre IH]; intros c t cs Hp Hc; cbn [String.append TrimLeft].
  - rewrite Hc. reflexivity.
  - cbn [all] in Hp. apply andb_true_iff in Hp. destruct Hp as [Hx Hp].
    rewrite Hx. apply IH; assumption.
Qed.

Lemma TrimRight_all : forall s cs,
  all (contains cs) s = true -> TrimRight s cs = EmptyString.
Proof.
  induction s as [|c s IH]; intros cs H; [reflexivity|].
  cbn [all] in H. apply andb_true_iff in H. destruct H as [Hc Hs].
  cbn [TrimRight]. rewrite (IH cs Hs), Hc. reflexivity.
Qed.

Lemma TrimRight_split : forall s cs,
  exists post, s = (TrimRight s cs ++ post)%string /\ all (contains cs) post = true.
Proof.
  induction s as [|c s IH]; intros cs; cbn [TrimRight].
  - exists EmptyString. auto.
  - destruct (IH cs) as [post [Hs Hp]].
    destruct (TrimRight s cs) as [|y r] eqn:E.
    + cbn [String.append] in Hs. destruct (contains cs c) eqn:Ec.
      * exists (String c post). split; [cbn; congruence|].
        cbn [all]. rewrite Ec, Hp. reflexivity.
      * exists post. split; [cbn; congruence|exact Hp].
    + exists post. split; [cbn [String.append] in *; congruence|exact Hp].
Qed.

(** The kubelet counts as healthy exactly when its response could be
    read and is the word ok, possibly with spaces, carriage returns and
    line feeds before and after it. *)
Theorem healthCheckFun_ok : forall body readErr,
  healthCheckFun body readErr = None <->
  readErr = None /\
  exists pre post,
    body = (pre ++ "ok" ++ post)%string /\
    all (contains cutset) pre = true /\
    all (contains cutset) post = true.
Proof.
  intros body readErr. unfold healthCheckFun. split.
  - destruct readErr as [e|]; [discriminate|].
    destruct (String.eqb (Trim body cutset) "ok") eqn:E; [|discriminate].
    intros _. split; [reflexivity|]. apply String.eqb_eq in E. unfold Trim in E.
    destruct (TrimLeft_split body cutset) as [pre [Hb Hpre]].
    destruct (TrimRight_split (TrimLeft body cutset) cutset) as [post [Ht Hpost]].
    exists pre, post. rewrite E in Ht. rewrite Ht in Hb. auto.
  - intros [-> [pre [post [-> [Hpre Hpost]]]]].
    unfold Trim. cbn [String.append].
    rewrite (TrimLeft_app pre "o"%char _ cutset Hpre eq_refl).
    cbn [TrimRight]. rewrite (TrimRight_all post cutset Hpost). reflexivity.
Qed.

End ProbeFacts.

(** ** The banner *)

Section BannerFacts.

Import GoStrings Banner.

Lemma concat_hashes : forall n,
  String.length (String.concat EmptyString (List.repeat "#" n)) = n /\
  all isHash (String.concat EmptyString (List.repeat "#" n)) = true.
Proof.
  induction n as [|n [IHl IHa]]; [split; reflexivity|].
  cbn [List.repeat String.concat].
  destruct (List.repeat "#" n) as [|x l] eqn:E.
  - destruct n; [split; reflexivity|discriminate].
  - cbn [String.append String.length all]. rewrite IHl, IHa. split; reflexivity.
Qed.

Lemma Repeat_hash : forall n,
  0 <= n ->
  exists s, Repeat "#" n = Some s /\ len s = n /\ all isHash s = true.
Proof.
  intros n Hn. unfold Repeat.
  destruct (Z.ltb_spec n 0); [lia|].
  destruct (concat_hashes (Z.to_nat n)) as [Hl Ha].
  eexists. split; [reflexivity|]. split; [unfold len; rewrite Hl; lia|exact Ha].
Qed.

Lemma len_app : forall a b, len (a ++ b)%string = len a + len b.
Proof. intros a b. unfold len. rewrite length_app. lia. Qed.

(** [printIndented] centres its message between two equal runs of [#]:
    up to 118 bytes the line is 120 wide, or 119 for a message of odd
    length; a message of 119 bytes gets no [#] at all and a line of 121;
    from 120 bytes on [strings.Repeat] is called with a negative count
    and panics. *)
Theorem printIndented_width : forall message,
  (printIndented message = None <-> 120 <= len message) /\
  (len message < 120 ->
   exists hashes,
     all isHash hashes = true /\
     len hashes = (if String.eqb message "" then 120 else Z.quot (118 - len message) 2) /\
     printIndented message
     = Some (if String.eqb message "" then hashes
             else hashes ++ " " ++ message ++ " " ++ hashes)%string) /\
  (len message <= 118 ->
   exists out, printIndented message = Some out /\
               len out = 120 - len message mod 2) /\
  (len message = 119 -> printIndented message = Some (" " ++ message ++ " ")%string).
Proof.
  intros message.
  assert (Hlen : 0 <= len message) by (unfold len; lia).
  assert (Hshape : len message < 120 ->
            exists hashes,
              all isHash hashes = true /\
              len hashes = (if String.eqb message "" then 120
                            else Z.quot (118 - len message) 2) /\
              printIndented message
              = Some (if String.eqb message "" then hashes
                      else hashes ++ " " ++ message ++ " " ++ hashes)%string).
  { intros Hlt. unfold printIndented.
    destruct (String.eqb message "") eqn:E.
    - destruct (Repeat_hash 120 ltac:(lia)) as [s [Hs [Hl Ha]]]. exists s. auto.
    - replace (120 - len message - 2) with (118 - len message) by lia.
      assert (Hq : 0 <= Z.quot (118 - len message) 2).
      { destruct (Z.eq_dec (len message) 119) as [->|]; [cbn; lia|].
        apply Z.quot_pos; lia. }
      destruct (Repeat_hash _ Hq) as [s [Hs [Hl Ha]]]. exists s.
      cbn zeta. rewrite Hs. cbn [String.append].
      rewrite app_assoc_s. cbn [String.append]. rewrite app_assoc_s. auto. }
  split; [|split; [exact Hshape|split]].
  - split.
    + intros Hnone. destruct (Z_lt_le_dec (len message) 120) as [Hlt|Hge]; [|exact Hge].
      destruct (Hshape Hlt) as [s [_ [_ Hs]]]. congruence.
    + intros Hge. unfold printIndented.
      destruct (String.eqb_spec message "") as [->|_]; [cbn in Hge; lia|].
      replace (120 - len message - 2) with (- (len message - 118)) by lia.
      rewrite Z.quot_opp_l by lia.
      assert (1 <= Z.quot (len message - 118) 2).
      { rewrite Z.quot_div_nonneg by lia. apply Z.div_le_lower_bound; lia. }
      unfold Repeat.
      destruct (Z.ltb_spec (- Z.quot (len message - 118) 2) 0); [reflexivity|lia].
  - intros Hle. destruct (Hshape ltac:(lia)) as [s [_ [Hl Hs]]].
    eexists. split; [exact Hs|].
    destruct (String.eqb_spec message "") as [->|_].
    + rewrite Hl. reflexivity.
    + rewrite !len_app. change (len " ") with 1. rewrite Hl.
      rewrite Z.quot_div_nonneg by lia.
      pose proof (Z.div_mod (118 - len message) 2 ltac:(lia)) as Hd.
      pose proof (Z.mod_pos_bound (118 - len message) 2 ltac:(lia)) as Hb.
      pose proof (Z.mod_pos_bound (len message) 2 ltac:(lia)) as Hb'.
      assert (Hm : (118 - len message) mod 2 = len message mod 2).
      { replace (118 - len message) with (len message + (59 - len message) * 2) by lia.
        apply Z.mod_add. lia. }
      lia.
  - intros H119. destruct (Hshape ltac:(lia)) as [s [_ [Hl Hs]]].
    destruct (String.eqb_spec message "") as [->|_]; [cbn in H119; lia|].
    rewrite H119 in Hl. cbn in Hl.
    assert (s = EmptyString) as ->.
    { destruct s; [reflexivity|]. unfold len in Hl. cbn in Hl. lia. }
    exact Hs.
Qed.

End BannerFacts.

(** ** More on startup *)

Section StartupFacts.

Import Observe.

Lemma armed_app : forall t1 t2, armed (t1 ++ t2) = armed t1 ++ armed t2.
Proof.
  induction t1 as [|e t1 IH]; intros t2; [reflexivity|].
  destruct e; cbn; rewrite ?IH; try reflexivity.
  destruct forever; cbn; rewrite ?IH; reflexivity.
Qed.

Lemma spawned_app : forall t1 t2, spawned (t1 ++ t2) = spawned t1 ++ spawned t2.
Proof.
  induction t1 as [|e t1 IH]; intros t2; [reflexivity|].
  destruct e; cbn; rewrite ?IH; reflexivity.
Qed.

Lemma waits_app : forall t1 t2, waits (t1 ++ t2) = waits t1 || waits t2.
Proof.
  induction t1 as [|e t1 IH]; intros t2; [reflexivity|].
  destruct e; cbn; rewrite ?IH; reflexivity.
Qed.

Lemma gateRounds_quiet : forall w name h n first,
  armed (gateRounds w name h first n) = [] /\
  spawned (gateRounds w name h first n) = [] /\
  waits (gateRounds w name h first n) = false.
Proof.
  intros w name h n. induction n as [|n IH]; intros first; [auto|].
  cbn. apply IH.
Qed.

(** [startService] either makes the process exit or returns the handler
    and the two channels of the service, having stopped nothing, enabled
    no periodic check and started no goroutine. *)
Lemma startService_outcome : forall w name constructor m,
  (exists t, startService w name constructor m = Exited t) \/
  (exists t,
     startService w name constructor m
       = Done (fst (constructor w), StateChan name, HealthChan name) m t
     /\ started t = [fst (constructor w)]
     /\ stopped t = [] /\ armed t = [] /\ spawned t = [] /\ waits t = false).
Proof.
  intros w name constructor m.
  destruct (constructor w) as [h err] eqn:Hc. cbn [fst].
  destruct err as [e|].
  { left. unfold startService. rewrite Hc. eexists. reflexivity. }
  destruct (start_err w name) as [e|] eqn:Hs.
  { left. unfold startService. rewrite Hc, Hs. unfold bind, emit. eexists. reflexivity. }
  destruct (startService_gate w name constructor h m Hc Hs)
    as [_ [n [_ [_ [_ [[Heq _]|[Heq _]]]]]]].
  - right. eexists. split; [exact Heq|].
    destruct (gateRounds_quiet w name h n 0) as [Ha [Hsp Hw]].
    rewrite started_app, stopped_app, armed_app, spawned_app, waits_app.
    rewrite started_gateRounds, stopped_gateRounds, Ha, Hsp, Hw. auto.
  - left. eexists. exact Heq.
Qed.

(** With a launch that works and a healthy probe within the budget,
    [startService] returns. *)
Lemma startService_up : forall w name constructor h m,
  constructor w = (h, None) ->
  start_err w name = None ->
  (exists i, 0 <= i < 8 /\ IsHealthy (probe w name i) = true) ->
  exists t, startService w name constructor m = Done (h, StateChan name, HealthChan name) m t.
Proof.
  intros w name constructor h m Hc Hs [i [Hi Hh]].
  destruct (startService_gate w name constructor h m Hc Hs)
    as [_ [n [_ [_ [Hun [[Heq _]|[_ [-> Hu]]]]]]]].
  - eexists. exact Heq.
  - exfalso. destruct (Z.eq_dec i 7) as [->|Hne].
    + unfold unhealthy in Hu. congruence.
    + specialize (Hun i ltac:(lia)). unfold unhealthy in Hun. congruence.
Qed.

Lemma trace_bind : forall (A B : Type) (p : Prog A) (k : A -> Prog B) m,
  exists t, trace_of (bind p k m) = trace_of (p m) ++ t.
Proof.
  intros A B p k m. unfold bind. destruct (p m) as [a m1 t1|t1].
  - destruct (k a m1); eexists; reflexivity.
  - exists []. cbn. rewrite app_nil_r. reflexivity.
Qed.

(** The first thing [startService] does with a handler is to call its
    [Start()]. *)
Lemma startService_starts : forall w name constructor h m,
  constructor w = (h, None) ->
  exists t, trace_of (startService w name constructor m) = EStart h :: t.
Proof.
  intros w name constructor h m Hc.
  destruct (start_err w name) as [e|] eqn:Hs.
  - unfold startService. rewrite Hc, Hs. unfold bind, emit. eexists. reflexivity.
  - destruct (startService_gate w name constructor h m Hc Hs)
      as [_ [n [_ [_ [_ [[-> _]|[-> _]]]]]]]; eexists; reflexivity.
Qed.

Lemma stageDetail_log : forall service name deferred m l fs msg (p : Prog unit),
  stageDetail service name deferred m (p m) ->
  stageDetail service name deferred m ((log l fs msg ;; p) m).
Proof.
  intros service name deferred m l fs msg p H. unfold log. unfold bind, emit.
  destruct (p m) as [[] m' t|t]; cbn in *; auto.
Qed.

Ltac stage_detail w ctor :=
  match goal with
  | |- stageDetail ?service _ _ ?m _ =>
      let t := fresh "t" in
      let Heq := fresh "Heq" in
      let Hst := fresh "Hst" in
      let Ha := fresh "Ha" in
      let Hsp := fresh "Hsp" in
      let Hw := fresh "Hw" in
      destruct (startService_outcome w service ctor m)
        as [[t Heq]|[t [Heq [_ [Hst [Ha [Hsp Hw]]]]]]];
      cbn [fst] in *;
      [ rewrite (bind_exited _ _ _ _ _ _ Heq); exact I
      | rewrite (bind_done _ _ _ _ _ _ _ _ Heq) ]
  end.

Ltac stage_obs :=
  cbn; rewrite ?stopped_app, ?armed_app, ?spawned_app, ?waits_app;
  repeat match goal with H : _ = _ |- _ => rewrite H end; cbn; auto.

Lemma startEtcd_detail : forall w m,
  stageDetail "etcd" "etcd" [] m (startEtcd w m).
Proof.
  intros w m. unfold startEtcd.
  stage_detail w (fun _ : World => (Handler "etcd", @None string)).
  stage_obs.
Qed.

Lemma startKubeAPIServer_detail : forall w m,
  stageDetail "kube-apiserver" "kube-api" [] m (startKubeAPIServer w m).
Proof.
  intros w m. unfold startKubeAPIServer. apply stageDetail_log.
  stage_detail w (fun _ : World => (Handler "kube-apiserver", @None string)).
  unfold appendHandler, appendEntry, modify, log. unfold bind, emit, ret. cbn.
  destruct (kubeconfig_missing w); [destruct (kubeconfig_err w) as [e|]|]; cbn; auto;
    rewrite ?stopped_app, ?armed_app, ?spawned_app, ?waits_app, Hst, Ha, Hsp, Hw; auto.
Qed.

Lemma startKubeControllerManager_detail : forall w m,
  stageDetail "kube-controller-manager" "kube-controller-manager" [] m
    (startKubeControllerManager w m).
Proof.
  intros w m. unfold startKubeControllerManager. apply stageDetail_log.
  stage_detail w (fun _ : World => (Handler "kube-controller-manager", @None string)).
  stage_obs.
Qed.

Lemma startKubeScheduler_detail : forall w m,
  stageDetail "kube-scheduler" "kube-scheduler" [] m (startKubeScheduler w m).
Proof.
  intros w m. unfold startKubeScheduler. apply stageDetail_log.
  stage_detail w (fun w : World => (Handler "kube-scheduler", newHandler_err w "kube-scheduler")).
  stage_obs.
Qed.

Lemma startKubelet_detail : forall w m,
  stageDetail "kubelet" "kubelet" [] m (startKubelet w m).
Proof.
  intros w m. unfold startKubelet. apply stageDetail_log.
  stage_detail w (fun w : World => (Handler "kubelet", newHandler_err w "kubelet")).
  stage_obs.
Qed.

Lemma startKubeProxy_detail : forall w m,
  stageDetail "kube-proxy" "kube-proxy" [Handler "kube-proxy"] m (startKubeProxy w m).
Proof.
  intros w m. unfold startKubeProxy. apply stageDetail_log.
  stage_detail w (fun w : World => (Handler "kube-proxy", newHandler_err w "kube-proxy")).
  stage_obs.
Qed.

Lemma runStages_detail : forall progs (specs : list (string * string * list ServiceHandler)),
  Forall2 (fun p s => forall m, stageDetail (fst (fst s)) (snd (fst s)) (snd s) m (p m))
          progs specs ->
  forall m,
  match runStages progs m with
  | Done _ m' t =>
      stopped t = List.concat (map snd specs) /\
      serviceList m' = serviceList m
                       ++ map (fun s => entryOf (fst (fst s)) (snd (fst s))) specs /\
      armed t = [] /\ spawned t = [] /\ waits t = false
  | Exited _ => True
  end.
Proof.
  intros progs specs HF. induction HF as [|p s progs specs Hp HF IH]; intros m.
  - cbn. rewrite app_nil_r. auto.
  - rewrite runStages_cons. unfold bind. specialize (Hp m).
    destruct (p m) as [[] m1 t1|t1]; [|exact I]. cbn [stageDetail] in Hp.
    destruct Hp as [Hst [Hsl [Ha [Hsp Hw]]]]. specialize (IH m1).
    destruct (runStages progs m1) as [[] m2 t2|t2]; [|exact I].
    destruct IH as [Hst2 [Hsl2 [Ha2 [Hsp2 Hw2]]]].
    rewrite stopped_app, armed_app, spawned_app, waits_app.
    rewrite Hst, Hst2, Hsl2, Hsl, Ha, Ha2, Hsp, Hsp2, Hw, Hw2.
    cbn [map List.concat]. rewrite <- app_assoc. auto.
Qed.

Lemma stages_detail : forall w,
  Forall2 (fun p s => forall m, stageDetail (fst (fst s)) (snd (fst s)) (snd s) m (p m))
    (stages w)
    [ ("etcd", "etcd", []); ("kube-apiserver", "kube-api", []);
      ("kube-controller-manager", "kube-controller-manager", []);
      ("kube-scheduler", "kube-scheduler", []); ("kubelet", "kubelet", []);
      ("kube-proxy", "kube-proxy", [Handler "kube-proxy"]) ].
Proof.
  intros w. unfold stages.
  repeat constructor; cbn [fst snd];
    auto using startEtcd_detail, startKubeAPIServer_detail,
      startKubeControllerManager_detail, startKubeScheduler_detail, startKubelet_detail,
      startKubeProxy_detail.
Qed.

(** [start] when it returns. *)
Lemma start_detail : forall w m m' t,
  start w m = Done tt m' t ->
  stopped t = [Handler "kube-proxy"] /\
  serviceList m' = serviceList m ++ entries /\
  armed t = [] /\ spawned t = [] /\ waits t = false.
Proof.
  intros w m m' t H.
  destruct (start_stages w m) as [[e He]|[m1 [He [_ [_ Hsl]]]]]; [congruence|].
  pose proof (runStages_detail _ _ (stages_detail w) m1) as Hd.
  rewrite <- He, H in Hd. rewrite Hsl in Hd. exact Hd.
Qed.

(** [start] with its prerequisites in place goes on to the services. *)
Lemma start_prepared : forall w m,
  prepared w ->
  start w m = runStages (stages w) (set_hyperkubeBin "hyperkube" (set_etcdBin "etcd" m)).
Proof.
  intros w m [Hd [Hc [He Hh]]]. unfold start, createDirectories, findBinaries.
  rewrite Hd, Hc, He, Hh.
  rewrite (bind_silent _ _ (ret tt) _ m tt m eq_refl).
  rewrite (bind_silent _ _ (ret tt) _ m tt m eq_refl).
  rewrite (bind_silent _ _ (modify (set_etcdBin "etcd") ;; modify (set_hyperkubeBin "hyperkube"))
             _ m tt (set_hyperkubeBin "hyperkube" (set_etcdBin "etcd" m)) eq_refl).
  reflexivity.
Qed.

(** [start] with a prerequisite missing exits at once. *)
Lemma start_unprepared : forall w m,
  ~ prepared w ->
  exists e,
    start w m = Exited (fatalExit e (if gracefulTerminationMode m then []
                                     else serviceHandlers m)) /\
    level e = FatalLevel.
Proof.
  intros w m Hn. unfold start, createDirectories, findBinaries.
  destruct (createDirectories_fatal w) as [msg|] eqn:Hd.
  { eexists. rewrite (bind_exited _ _ _ _ _ _ (Fatal_fatalExit _ _ _ _)). auto. }
  rewrite (bind_silent _ _ (ret tt) _ m tt m eq_refl).
  destruct (credentials_err w) as [e|] eqn:Hc.
  { eexists. rewrite (bind_exited _ _ _ _ _ _ (Fatal_fatalExit _ _ _ _)). auto. }
  rewrite (bind_silent _ _ (ret tt) _ m tt m eq_refl).
  destruct (findBinary_err w "etcd") as [e|] eqn:He.
  { eexists. unfold bind at 1 2. rewrite Fatal_fatalExit. auto. }
  destruct (findBinary_err w "hyperkube") as [e|] eqn:Hh.
  { eexists. unfold bind at 1 2. unfold modify at 1. rewrite Fatal_fatalExit.
    split; [cbn; reflexivity|reflexivity]. }
  exfalso. apply Hn. unfold prepared. auto.
Qed.

Lemma prepared_dec : forall w, prepared w \/ ~ prepared w.
Proof.
  intros w. unfold prepared.
  destruct (createDirectories_fatal w); [right; intros [H _]; discriminate|].
  destruct (credentials_err w); [right; intros [_ [H _]]; discriminate|].
  destruct (findBinary_err w "etcd"); [right; intros [_ [_ [H _]]]; discriminate|].
  destruct (findBinary_err w "hyperkube"); [right; intros [_ [_ [_ H]]]; discriminate|].
  left. auto.
Qed.

(** Directories, credentials and the two binaries come first: [start]
    calls [Start()] on no service exactly when one of them fails, and
    then the process exits at once; with all of them in place etcd is
    launched. *)
Theorem start_needs_prerequisites : forall w m,
  (started (trace_of (start w m)) = [] <-> ~ prepared w) /\
  (~ prepared w ->
   exists e,
     start w m = Exited (fatalExit e (if gracefulTerminationMode m then []
                                      else serviceHandlers m))
     /\ level e = FatalLevel) /\
  (prepared w -> In (EStart (Handler "etcd")) (trace_of (start w m))).
Proof.
  intros w m.
  assert (Hetcd : prepared w -> In (EStart (Handler "etcd")) (trace_of (start w m))).
  { intros Hp. rewrite (start_prepared w m Hp). unfold stages.
    rewrite runStages_cons.
    destruct (trace_bind _ _ (startEtcd w) (fun _ => runStages
                [startKubeAPIServer w; startKubeControllerManager w;
                 startKubeScheduler w; startKubelet w; startKubeProxy w])
                (set_hyperkubeBin "hyperkube" (set_etcdBin "etcd" m))) as [t1 ->].
    unfold startEtcd.
    match goal with
    | |- In _ (trace_of (bind ?p ?k ?m1) ++ _) =>
        destruct (trace_bind _ _ p k m1) as [t2 ->];
        destruct (startService_starts w "etcd" (fun _ => (Handler "etcd", None))
                    (Handler "etcd") m1 eq_refl) as [t3 ->]
    end.
    left. reflexivity. }
  split; [|split; [apply start_unprepared|exact Hetcd]].
  split.
  - intros Hs Hp. specialize (Hetcd Hp). apply In_started in Hetcd.
    rewrite Hs in Hetcd. destruct Hetcd.
  - intros Hn. destruct (start_unprepared w m Hn) as [e [-> _]].
    cbn [trace_of]. apply started_fatalExit.
Qed.

Ltac stage_run Heq :=
  unfold appendHandler, appendEntry, modify, log; unfold bind, emit, ret;
  rewrite Heq; cbn.

Lemma startEtcd_up : forall w m,
  comesUp w "etcd" -> exists m' t, startEtcd w m = Done tt m' t.
Proof.
  intros w m [Hs [_ Hh]].
  destruct (startService_up w "etcd" (fun _ => (Handler "etcd", None)) (Handler "etcd") m
              eq_refl Hs Hh) as [t Heq].
  unfold startEtcd. stage_run Heq. eexists _, _. reflexivity.
Qed.

Lemma startKubeAPIServer_up : forall w m,
  comesUp w "kube-apiserver" ->
  kubeconfig_missing w = false \/ kubeconfig_err w = None ->
  exists m' t, startKubeAPIServer w m = Done tt m' t.
Proof.
  intros w m [Hs [_ Hh]] Hk.
  destruct (startService_up w "kube-apiserver" (fun _ => (Handler "kube-apiserver", None))
              (Handler "kube-apiserver") m eq_refl Hs Hh) as [t Heq].
  unfold startKubeAPIServer. stage_run Heq.
  destruct (kubeconfig_missing w); [destruct Hk as [Hk|Hk]; [discriminate|rewrite Hk]|];
    cbn; eexists _, _; reflexivity.
Qed.

Lemma startKubeControllerManager_up : forall w m,
  comesUp w "kube-controller-manager" ->
  exists m' t, startKubeControllerManager w m = Done tt m' t.
Proof.
  intros w m [Hs [_ Hh]].
  destruct (startService_up w "kube-controller-manager"
              (fun _ => (Handler "kube-controller-manager", None))
              (Handler "kube-controller-manager") m eq_refl Hs Hh) as [t Heq].
  unfold startKubeControllerManager. stage_run Heq. eexists _, _. reflexivity.
Qed.

Lemma startKubeScheduler_up : forall w m,
  comesUp w "kube-scheduler" -> exists m' t, startKubeScheduler w m = Done tt m' t.
Proof.
  intros w m [Hs [Hn Hh]].
  destruct (startService_up w "kube-scheduler"
              (fun w => (Handler "kube-scheduler", newHandler_err w "kube-scheduler"))
              (Handler "kube-scheduler") m ltac:(cbn; rewrite Hn; reflexivity) Hs Hh)
    as [t Heq].
  unfold startKubeScheduler. stage_run Heq. eexists _, _. reflexivity.
Qed.

Lemma startKubelet_up : forall w m,
  comesUp w "kubelet" -> exists m' t, startKubelet w m = Done tt m' t.
Proof.
  intros w m [Hs [Hn Hh]].
  destruct (startService_up w "kubelet"
              (fun w => (Handler "kubelet", newHandler_err w "kubelet"))
              (Handler "kubelet") m ltac:(cbn; rewrite Hn; reflexivity) Hs Hh)
    as [t Heq].
  unfold startKubelet. stage_run Heq. eexists _, _. reflexivity.
Qed.

Lemma startKubeProxy_up : forall w m,
  comesUp w "kube-proxy" -> exists m' t, startKubeProxy w m = Done tt m' t.
Proof.
  intros w m [Hs [Hn Hh]].
  destruct (startService_up w "kube-proxy"
              (fun w => (Handler "kube-proxy", newHandler_err w "kube-proxy"))
              (Handler "kube-proxy") m ltac:(cbn; rewrite Hn; reflexivity) Hs Hh)
    as [t Heq].
  unfold startKubeProxy. stage_run Heq. eexists _, _. reflexivity.
Qed.

Lemma runStages_up : forall progs,
  Forall (fun p : Prog unit => forall m, exists m' t, p m = Done tt m' t) progs ->
  forall m, exists m' t, runStages progs m = Done tt m' t.
Proof.
  intros progs HF. induction HF as [|p progs Hp HF IH]; intros m.
  - eexists _, _. reflexivity.
  - rewrite runStages_cons. destruct (Hp m) as [m1 [t1 H1]].
    destruct (IH m1) as [m2 [t2 H2]].
    rewrite (bind_done _ _ _ _ _ _ _ _ H1), H2. eexists _, _. reflexivity.
Qed.

Lemma start_up : forall w m,
  prepared w ->
  (forall s, In s serviceOrder -> comesUp w s) ->
  kubeconfig_missing w = false \/ kubeconfig_err w = None ->
  exists m' t, start w m = Done tt m' t.
Proof.
  intros w m Hp Hup Hk. rewrite (start_prepared w m Hp).
  apply runStages_up. unfold stages.
  assert (Hin : forall s, In s serviceOrder -> comesUp w s) by exact Hup.
  unfold serviceOrder in Hin. cbn [In] in Hin.
  repeat constructor; intros m1.
  - apply startEtcd_up. apply Hin. auto.
  - apply startKubeAPIServer_up; [apply Hin; auto|exact Hk].
  - apply startKubeControllerManager_up. apply Hin. auto.
  - apply startKubeScheduler_up. apply Hin. auto.
  - apply startKubelet_up. apply Hin. auto 10.
  - apply startKubeProxy_up. apply Hin. auto 10.
Qed.

Lemma enableHealthChecks_range_trace : forall l m,
  exists t,
    enableHealthChecks_range l m = Done tt m t /\
    armed t = map (fun e => (handler e, healthChan e)) l /\
    spawned t = map (fun e => ("checkService " ++ name e)%string) l /\
    started t = [] /\ stopped t = [] /\ waits t = false.
Proof.
  induction l as [|e l IH]; intros m.
  - exists []. repeat split.
  - destruct (IH m) as [t [Ht [Ha [Hsp [Hst [Hsto Hw]]]]]].
    cbn [enableHealthChecks_range]. unfold log. unfold bind, emit. rewrite Ht.
    eexists. split; [reflexivity|]. cbn. rewrite Ha, Hsp, Hst, Hsto, Hw.
    repeat split.
Qed.

(** [Run] up to the wait for the signal, in full. *)
Lemma Run_startup_detail : forall w m0 c m t,
  Run_startup w m0 = Done c m t ->
  exists m1 t1,
    start w (set_gracefulTerminationMode false m0) = Done tt m1 t1 /\
    m = set_gracefulTerminationMode true (set_sigRelay [Interrupt; Kill] m1) /\
    kubeClient_err w = None /\
    started t = started t1 /\
    stopped t = stopped t1 /\
    armed t = map (fun e => (handler e, healthChan e)) (serviceList m1) /\
    spawned t = "signalGoroutine"
                :: map (fun e => ("checkService " ++ name e)%string) (serviceList m1) /\
    waits t = true.
Proof.
  intros w m0 c m t H. unfold Run_startup in H.
  rewrite (bind_silent _ _ (modify (set_gracefulTerminationMode false)) _ m0 tt
             (set_gracefulTerminationMode false m0) eq_refl) in H.
  unfold bind at 1 in H.
  destruct (start w (set_gracefulTerminationMode false m0)) as [[] m1 t1|t1] eqn:Hs;
    [|discriminate].
  pose proof (start_detail _ _ _ _ Hs) as [_ [_ [Ha1 [Hsp1 _]]]].
  exists m1, t1. split; [reflexivity|].
  unfold waitUntilNodeReady in H.
  destruct (kubeClient_err w) as [e|]; [unfold bind in H; cbn in H; discriminate|].
  unfold enableHealthChecks, startServices, PrintInfoMessage, makeSigChan, signalReset,
    signalNotify, log in H.
  unfold bind, get, emit, ret, modify in H.
  cbn [serviceList set_gracefulTerminationMode set_sigRelay sigRelay filter app] in H.
  destruct (enableHealthChecks_range_trace (serviceList m1)
              (set_gracefulTerminationMode true (set_sigRelay [Interrupt; Kill] m1)))
    as [t2 [Ht2 [Ha2 [Hsp2 [Hst2 [Hsto2 _]]]]]].
  cbn [serviceList set_gracefulTerminationMode set_sigRelay] in Ht2.
  unfold set_gracefulTerminationMode, set_sigRelay in Ht2.
  cbn [serviceList gracefulTerminationMode serviceHandlers baseDir etcdBin hyperkubeBin
       kubeconfig enableKubeDash enableDns sigRelay] in Ht2.
  unfold set_gracefulTerminationMode, set_sigRelay in H.
  cbn [serviceList gracefulTerminationMode serviceHandlers baseDir etcdBin hyperkubeBin
       kubeconfig enableKubeDash enableDns sigRelay] in H.
  rewrite Ht2 in H.
  cbn [enableKubeDash enableDns] in H.
  unfold set_gracefulTerminationMode, set_sigRelay.
  cbn [serviceList gracefulTerminationMode serviceHandlers baseDir etcdBin hyperkubeBin
       kubeconfig enableKubeDash enableDns sigRelay].
  destruct (enableKubeDash m1), (enableDns m1); cbn in H; injection H as _ <- <-;
    (split; [reflexivity|]); (split; [reflexivity|]);
    rewrite !started_app, !stopped_app, !armed_app, !spawned_app, !waits_app;
    cbn; rewrite !started_app, !stopped_app, !armed_app, !spawned_app, ?Ha1, ?Hsp1,
      ?Ha2, ?Hsp2, ?Hst2, ?Hsto2; cbn; rewrite ?app_nil_r, ?orb_true_r; auto 10.
Qed.

(** What [Run] does when an interrupt ends its wait. *)
Lemma Run_after_startup : forall w m0 c m t,
  Run_startup w m0 = Done c m t ->
  Run w Interrupt m0
  = Done tt m
      (t ++ [ ESignalRelay Interrupt SigChan;
              ERecv SigChan;
              ELog (mkEntry InfoLevel [] "Shutting down...");
              EDrainNode;
              ESend ExitChan true;
              ERecv ExitChan;
              ELog (mkEntry InfoLevel [("app", VStr "microkube")]
                      "Exit signal received, stopping now.");
              ESdNotify "STOPPING=1" ]
         ++ map EStop (serviceHandlers m)
         ++ [ESleep (7 * Second)]).
Proof.
  intros w m0 c m t H.
  destruct (Run_startup_detail w m0 c m t H) as [m1 [t1 [_ [Hm _]]]].
  pose proof (Run_startup_spec w m0) as Hs. rewrite H in Hs. destruct Hs as [-> _].
  unfold Run. rewrite (bind_done _ _ _ _ _ _ _ _ H). subst m.
  unfold deliver, signalGoroutine, Run_shutdown, log. unfold bind, emit, get.
  cbn [sigRelay set_gracefulTerminationMode set_sigRelay catchable existsb Signal_eqb
       andb orb].
  rewrite stopAll_done. reflexivity.
Qed.

(** A signal other than an interrupt ends the process where [Run]
    waits. *)
Lemma Run_signalled : forall w m0 c m t sig,
  Run_startup w m0 = Done c m t ->
  sig <> Interrupt ->
  Run w sig m0 = Exited (t ++ [ESignalled sig]).
Proof.
  intros w m0 c m t sig H Hsig.
  destruct (Run_startup_detail w m0 c m t H) as [m1 [t1 [_ [Hm _]]]].
  unfold Run. rewrite (bind_done _ _ _ _ _ _ _ _ H).
  unfold deliver. unfold bind at 1 2. unfold get. rewrite Hm.
  destruct sig; [congruence| |]; reflexivity.
Qed.

(** [start] has called [Stop()] on kube-proxy when it returns, and
    graceful termination mode is still off then: it is switched on at
    the end of [waitUntilNodeReady], once the kube client is made and
    the node has been waited for. If the end of the kube-proxy process
    is reported before that, [exitHandler] logs it and ends the whole
    process through [log.Fatal], which stops all six services; reported
    after that, it is logged and forwarded to the state channel. *)
Theorem kube_proxy_exit_before_ready_is_fatal : forall w m0 m1 t1 success exitError,
  start w (set_gracefulTerminationMode false m0) = Done tt m1 t1 ->
  stopped t1 = [Handler "kube-proxy"] /\
  gracefulTerminationMode m1 = false /\
  exitHandler "kube-proxy" success exitError m1
  = Exited
      ([ELog (mkEntry ErrorLevel
                [("success", VBool success); ("app", VStr "kube-proxy");
                 ("error", VErr exitError)] "kube-proxy stopped!")] ++
       fatalExit
         (mkEntry FatalLevel
            [("success", VBool success); ("app", VStr "kube-proxy");
             ("error", VErr exitError)]
            "App exitted during startup phase, bailing out _now_")
         (serviceHandlers m0 ++ map Handler serviceOrder)) /\
  exitHandler "kube-proxy" success exitError
    (set_gracefulTerminationMode true (set_sigRelay [Interrupt; Kill] m1))
  = Done tt (set_gracefulTerminationMode true (set_sigRelay [Interrupt; Kill] m1))
      [ ELog (mkEntry ErrorLevel
                [("success", VBool success); ("app", VStr "kube-proxy");
                 ("error", VErr exitError)] "kube-proxy stopped!");
        ESend (StateChan "kube-proxy") success ].
Proof.
  intros w m0 m1 t1 success exitError Hs.
  destruct (start_detail _ _ _ _ Hs) as [Hsto _].
  pose proof (start_spec w (set_gracefulTerminationMode false m0)) as Hss.
  rewrite Hs in Hss. destruct Hss as [_ [Hsh [Hg _]]]. cbn in Hsh, Hg.
  split; [exact Hsto|]. split; [exact Hg|]. split.
  - unfold exitHandler, log. unfold bind, emit, get. rewrite Hg. cbn [negb].
    unfold Fatal, exitHandlerHook, fatalExit. rewrite Hg, Hsh. reflexivity.
  - reflexivity.
Qed.

(** The kubeconfig is written when the API server is healthy. If that
    fails, the process exits with etcd and the API server started and
    nothing else, and [Stop()] is called on both. *)
Theorem kubeconfig_failure_stops_both : forall w m0 err,
  prepared w ->
  comesUp w "etcd" ->
  comesUp w "kube-apiserver" ->
  kubeconfig_missing w = true ->
  kubeconfig_err w = Some err ->
  exists t,
    Run_startup w m0 = Exited t /\
    started t = [Handler "etcd"; Handler "kube-apiserver"] /\
    stopped t = serviceHandlers m0 ++ [Handler "etcd"; Handler "kube-apiserver"].
Proof.
  intros w m0 err Hp Hue [Hsa [_ Hha]] Hkm Hke.
  unfold Run_startup.
  rewrite (bind_silent _ _ (modify (set_gracefulTerminationMode false)) _ m0 tt
             (set_gracefulTerminationMode false m0) eq_refl).
  set (ma := set_gracefulTerminationMode false m0).
  assert (Hstart : exists t,
            start w ma = Exited t /\
            started t = [Handler "etcd"; Handler "kube-apiserver"] /\
            stopped t = serviceHandlers m0 ++ [Handler "etcd"; Handler "kube-apiserver"]).
  { rewrite (start_prepared w ma Hp). unfold stages. rewrite runStages_cons.
    set (mb := set_hyperkubeBin "hyperkube" (set_etcdBin "etcd" ma)).
    destruct (startEtcd_up w mb Hue) as [m1 [t1 H1]].
    pose proof (startEtcd_stage w mb) as Hst1. rewrite H1 in Hst1.
    destruct Hst1 as [Hs1 [Hh1 [Hg1 _]]].
    pose proof (startEtcd_detail w mb) as Hd1. rewrite H1 in Hd1.
    destruct Hd1 as [Hsto1 _].
    rewrite (bind_done _ _ _ _ _ _ _ _ H1). rewrite runStages_cons.
    destruct (startService_up w "kube-apiserver" (fun _ => (Handler "kube-apiserver", None))
                (Handler "kube-apiserver") m1 eq_refl Hsa Hha) as [t2 Heq].
    destruct (startService_outcome w "kube-apiserver"
                (fun _ => (Handler "kube-apiserver", None)) m1)
      as [[tx Hx]|[tx [Hx [Hsx [Hstox _]]]]]; [congruence|].
    cbn [fst] in Hx. rewrite Heq in Hx. injection Hx as <-.
    unfold startKubeAPIServer at 1.
    unfold appendHandler, appendEntry, modify, log. unfold bind, emit, ret.
    rewrite Heq, Hkm, Hke. cbn.
    unfold Fatal, exitHandlerHook. cbn. rewrite Hg1, Hh1. cbn.
    eexists. split; [reflexivity|].
    rewrite !started_app, !stopped_app, Hs1, Hsto1. cbn.
    rewrite !started_app, !stopped_app, Hsx, Hstox. cbn.
    rewrite !started_app, !stopped_app, started_map_EStop, stopped_map_EStop. cbn.
    rewrite app_nil_r, <- app_assoc. auto. }
  destruct Hstart as [t [Ht [Hst Hsto]]].
  rewrite (bind_exited _ _ _ _ _ _ Ht). eauto.
Qed.

(** [startKubeProxy] defers [Stop()] of the handler it has just started:
    when [start] returns, kube-proxy, and only kube-proxy, has been
    stopped already; and in a run that ends at an interrupt, [Stop()] is
    called on kube-proxy a second time, with the other handlers. *)
Theorem kube_proxy_stopped_at_startup : forall w,
  (forall m m' t, start w m = Done tt m' t -> stopped t = [Handler "kube-proxy"]) /\
  (forall m0 c m t,
     Run_startup w m0 = Done c m t ->
     stopped (trace_of (Run w Interrupt m0))
     = Handler "kube-proxy" :: serviceHandlers m0 ++ map Handler serviceOrder).
Proof.
  intros w. split.
  - intros m m' t H. apply (start_detail _ _ _ _ H).
  - intros m0 c m t H.
    rewrite (Run_after_startup w m0 c m t H).
    destruct (Run_startup_detail w m0 c m t H) as [m1 [t1 [Hs [_ [_ [_ [Hsto _]]]]]]].
    pose proof (Run_startup_spec w m0) as Hspec. rewrite H in Hspec.
    destruct Hspec as [_ [_ Hsh]].
    cbn [trace_of]. rewrite !stopped_app, Hsto, stopped_map_EStop, Hsh.
    rewrite (proj1 (start_detail _ _ _ _ Hs)). cbn. rewrite app_nil_r. reflexivity.
Qed.

(** [start] lists what it starts: when it returns, [m.serviceList] has
    grown by one entry per service, in start order, each with the handler
    and the two channels of its own service and all channels different;
    the API server, started as kube-apiserver, is listed as kube-api. If
    the service list and the handler list were aligned before, they are
    aligned after. *)
Theorem start_lists_services : forall w m m' t,
  start w m = Done tt m' t ->
  serviceList m' = serviceList m ++ entries /\
  map handler entries = map Handler serviceOrder /\
  map name entries = entryNames /\
  NoDup (map exitChan entries ++ map healthChan entries) /\
  (map handler (serviceList m) = serviceHandlers m ->
   map handler (serviceList m') = serviceHandlers m').
Proof.
  intros w m m' t H.
  destruct (start_detail _ _ _ _ H) as [_ [Hsl _]].
  pose proof (start_spec w m) as Hs. rewrite H in Hs. destruct Hs as [_ [Hsh _]].
  split; [exact Hsl|]. split; [reflexivity|]. split; [reflexivity|]. split.
  - cbn. repeat (constructor; [cbn; intuition discriminate|]). constructor.
  - intros Ha. rewrite Hsl, Hsh, map_app, Ha. reflexivity.
Qed.

Lemma filter_checkService : forall (l : list serviceEntry),
  filter (String.prefix "checkService ")
    (map (fun e => ("checkService " ++ name e)%string) l)
  = map (fun e => ("checkService " ++ name e)%string) l.
Proof.
  induction l as [|e l IH]; [reflexivity|].
  cbn [map filter].
  replace (String.prefix "checkService " ("checkService " ++ name e)) with true.
  - rewrite IH. reflexivity.
  - cbn. destruct (name e); reflexivity.
Qed.

(** Once the node is ready, [Run] enables the periodic health check of
    every listed service, on that service's own health channel and in
    start order, and starts one [checkService] goroutine per entry. Up
    to then only single probes were made. *)
Theorem Run_arms_every_service : forall w m0 c m t,
  Run_startup w m0 = Done c m t ->
  armed t = map (fun e => (handler e, healthChan e)) (serviceList m) /\
  filter (String.prefix "checkService ") (spawned t)
  = map (fun e => ("checkService " ++ name e)%string) (serviceList m) /\
  serviceList m = serviceList m0 ++ entries /\
  (serviceList m0 = [] ->
   armed t = map (fun s => (Handler s, HealthChan s)) serviceOrder /\
   filter (String.prefix "checkService ") (spawned t)
   = map (fun n => ("checkService " ++ n)%string) entryNames).
Proof.
  intros w m0 c m t H.
  destruct (Run_startup_detail w m0 c m t H)
    as [m1 [t1 [Hs [-> [_ [_ [_ [Ha [Hsp _]]]]]]]]].
  destruct (start_detail _ _ _ _ Hs) as [_ [Hsl _]]. cbn in Hsl.
  cbn [serviceList set_gracefulTerminationMode].
  assert (Hf : filter (String.prefix "checkService ") (spawned t)
               = map (fun e => ("checkService " ++ name e)%string) (serviceList m1)).
  { rewrite Hsp. cbn [filter]. 
    replace (String.prefix "checkService " "signalGoroutine") with false by reflexivity.
    apply filter_checkService. }
  split; [exact Ha|]. split; [exact Hf|]. split; [exact Hsl|].
  intros H0. rewrite Ha, Hf, Hsl, H0. split; reflexivity.
Qed.

Lemma waits_map_EStop : forall hs, waits (map EStop hs) = false.
Proof. induction hs; [reflexivity|assumption]. Qed.

Lemma armed_map_EStop : forall hs, armed (map EStop hs) = [].
Proof. induction hs; [reflexivity|assumption]. Qed.

(** If the kube client cannot be made after all six services have come
    up, the process exits without ever waiting for the node or enabling
    a periodic health check, and [Stop()] is called on all six handlers
    (on kube-proxy for the second time). *)
Theorem kube_client_failure_stops_all : forall w m0 m1 t1 err,
  start w (set_gracefulTerminationMode false m0) = Done tt m1 t1 ->
  kubeClient_err w = Some err ->
  exists t,
    Run_startup w m0 = Exited t /\
    started t = map Handler serviceOrder /\
    stopped t = Handler "kube-proxy" :: serviceHandlers m0 ++ map Handler serviceOrder /\
    waits t = false /\
    armed t = [].
Proof.
  intros w m0 m1 t1 err Hs Hc.
  destruct (start_detail _ _ _ _ Hs) as [Hsto [_ [Ha [_ Hw]]]].
  pose proof (start_spec w (set_gracefulTerminationMode false m0)) as Hss.
  rewrite Hs in Hss. destruct Hss as [Hst [Hsh [Hg _]]]. cbn in Hsh, Hg.
  unfold Run_startup.
  rewrite (bind_silent _ _ (modify (set_gracefulTerminationMode false)) _ m0 tt
             (set_gracefulTerminationMode false m0) eq_refl).
  rewrite (bind_done _ _ _ _ _ _ _ _ Hs).
  unfold waitUntilNodeReady. rewrite Hc.
  unfold bind. rewrite Fatal_fatalExit, Hg, Hsh. cbn [app].
  eexists. split; [reflexivity|].
  rewrite started_app, stopped_app, waits_app, armed_app.
  rewrite started_fatalExit, stopped_fatalExit, Hst, Hsto, Hw, Ha.
  unfold fatalExit. cbn [app waits armed].
  rewrite !waits_app, !armed_app, waits_map_EStop, armed_map_EStop.
  repeat split.
Qed.

End StartupFacts.

(** ** The startup order and the shutdown *)

Section OrderAndShutdown.

Import Observe.

(** A stage that comes up leaves its service started and registered. *)
Lemma stage_up_spec : forall w service (p : Prog unit) m,
  stageSpec w service m (p m) ->
  (exists m' t, p m = Done tt m' t) ->
  exists m' t,
    p m = Done tt m' t /\
    started t = [Handler service] /\
    serviceHandlers m' = serviceHandlers m ++ [Handler service] /\
    gracefulTerminationMode m' = gracefulTerminationMode m.
Proof.
  intros w service p m Hspec [m' [t Heq]]. rewrite Heq in Hspec.
  destruct Hspec as [Hst [Hsh [Hg _]]]. exists m', t. auto.
Qed.

(** With a launch that works and eight unhealthy probes, [startService]
    ends the process. *)
Lemma startService_sick : forall w name constructor h m,
  constructor w = (h, None) ->
  start_err w name = None ->
  (forall i, 0 <= i < 8 -> unhealthy (probe w name i)) ->
  startService w name constructor m
  = Exited ([EStart h] ++ gateRounds w name h 0 8 ++
            fatalExit
              (mkEntry FatalLevel [("error", VErr (Error (probe w name 7)))]
                 (name ++ " didn't become healthy in time!")%string)
              (if gracefulTerminationMode m then [] else serviceHandlers m)).
Proof.
  intros w name constructor h m Hc Hs Hun.
  destruct (startService_gate w name constructor h m Hc Hs)
    as [_ [n [Hn [_ [_ [[_ [H1 Hh]]|[Heq _]]]]]]].
  - specialize (Hun (Z.of_nat n - 1) ltac:(lia)). unfold unhealthy in Hun. congruence.
  - exact Heq.
Qed.

Lemma startEtcd_sick : forall w m,
  start_err w "etcd" = None ->
  (forall i, 0 <= i < 8 -> unhealthy (probe w "etcd" i)) ->
  exists t0,
    startEtcd w m
    = Exited (t0 ++
              fatalExit
                (mkEntry FatalLevel [("error", VErr (Error (probe w "etcd" 7)))]
                   "etcd didn't become healthy in time!")
                (if gracefulTerminationMode m then [] else serviceHandlers m)) /\
    started t0 = [Handler "etcd"].
Proof.
  intros w m Hs Hun. unfold startEtcd.
  rewrite (bind_exited _ _ _ _ _ _
             (startService_sick w "etcd" (fun _ => (Handler "etcd", None)) (Handler "etcd") m
                eq_refl Hs Hun)).
  exists ([EStart (Handler "etcd")] ++ gateRounds w "etcd" (Handler "etcd") 0 8). split.
  - rewrite <- !app_assoc. reflexivity.
  - rewrite !started_app, started_gateRounds. reflexivity.
Qed.

(** The five stages that write a log entry first. *)
Lemma logged_stage_sick : forall w name constructor h l fs msg
    (k : ServiceHandler * Chan * Chan -> Prog unit) m,
  constructor w = (h, None) ->
  start_err w name = None ->
  (forall i, 0 <= i < 8 -> unhealthy (probe w name i)) ->
  exists t0,
    (log l fs msg ;; r <- startService w name constructor ;; k r) m
    = Exited (t0 ++
              fatalExit
                (mkEntry FatalLevel [("error", VErr (Error (probe w name 7)))]
                   (name ++ " didn't become healthy in time!")%string)
                (if gracefulTerminationMode m then [] else serviceHandlers m)) /\
    started t0 = [h].
Proof.
  intros w name constructor h l fs msg k m Hc Hs Hun.
  unfold log. unfold bind at 1. unfold emit at 1.
  rewrite (bind_exited _ _ _ _ _ _ (startService_sick w name constructor h m Hc Hs Hun)).
  exists ([ELog (mkEntry l fs msg)] ++ [EStart h] ++ gateRounds w name h 0 8). split.
  - rewrite <- !app_assoc. reflexivity.
  - rewrite !started_app, started_gateRounds. reflexivity.
Qed.

(** The stages before a service that never turns healthy come up, and
    the stage of that service ends the process. *)
Lemma runStages_progress : forall (ups : list (Prog unit * string)) (p : Prog unit)
    (service : string) (e : Entry) (rest : list (Prog unit)),
  Forall (fun qs : Prog unit * string =>
            forall m, exists m' t,
              fst qs m = Done tt m' t /\
              started t = [Handler (snd qs)] /\
              serviceHandlers m' = serviceHandlers m ++ [Handler (snd qs)] /\
              gracefulTerminationMode m' = gracefulTerminationMode m) ups ->
  (forall m, exists t0,
     p m = Exited (t0 ++ fatalExit e (if gracefulTerminationMode m then []
                                      else serviceHandlers m)) /\
     started t0 = [Handler service]) ->
  forall m, exists t0,
    runStages (map fst ups ++ p :: rest) m
    = Exited (t0 ++ fatalExit e (if gracefulTerminationMode m then []
                                 else serviceHandlers m ++ map Handler (map snd ups))) /\
    started t0 = map Handler (map snd ups ++ [service]).
Proof.
  intros ups p service e rest HF Hp. induction HF as [|qs ups Hq HF IH]; intros m.
  - cbn [map app]. rewrite runStages_cons. destruct (Hp m) as [t0 [Heq Hst]].
    rewrite (bind_exited _ _ _ _ _ _ Heq). exists t0. rewrite app_nil_r. auto.
  - cbn [map app]. rewrite runStages_cons.
    destruct (Hq m) as [m1 [t1 [H1 [Hst1 [Hsh1 Hg1]]]]].
    destruct (IH m1) as [t0 [Heq Hst]].
    rewrite (bind_done _ _ _ _ _ _ _ _ H1), Heq.
    exists (t1 ++ t0). split.
    + rewrite Hg1, Hsh1, <- !app_assoc. reflexivity.
    + rewrite started_app, Hst1, Hst. reflexivity.
Qed.

Lemma spawned_In : forall task t, In task (spawned t) -> In (EGo task) t.
Proof.
  intros task t. induction t as [|ev t IH]; [intros []|].
  destruct ev; cbn; try (intros H; right; apply IH; exact H).
  intros [->|H]; [left; reflexivity|right; apply IH; exact H].
Qed.


Ltac up_stage w Hup Hkc :=
  intros ?; cbn [fst snd];
  first
  [ apply (stage_up_spec w "etcd");
    [apply startEtcd_stage|apply startEtcd_up; apply Hup; cbn; auto 10]
  | apply (stage_up_spec w "kube-apiserver");
    [apply startKubeAPIServer_stage
    |apply startKubeAPIServer_up; [apply Hup; cbn; auto 10|exact Hkc]]
  | apply (stage_up_spec w "kube-controller-manager");
    [apply startKubeControllerManager_stage
    |apply startKubeControllerManager_up; apply Hup; cbn; auto 10]
  | apply (stage_up_spec w "kube-scheduler");
    [apply startKubeScheduler_stage|apply startKubeScheduler_up; apply Hup; cbn; auto 10]
  | apply (stage_up_spec w "kubelet");
    [apply startKubelet_stage|apply startKubelet_up; apply Hup; cbn; auto 10]
  | apply (stage_up_spec w "kube-proxy");
    [apply startKubeProxy_stage|apply startKubeProxy_up; apply Hup; cbn; auto 10] ].

(** C5. [start] starts the services in the fixed order etcd, API server,
    controller manager, scheduler, kubelet, kube-proxy, each one only
    after the health gate of the one before has seen a healthy probe.
    With the prerequisites in place and services that come up, all six
    are started, in this order. A service whose probes are unhealthy
    throughout the retry budget makes the process exit, and none of the
    services after it is started: when the services before it come up,
    the services started are exactly those up to and including it, and
    the handlers stopped are those of the services before it. *)
Theorem start_fixed_order : forall w m,
  (exists n, started (trace_of (start w m)) = map Handler (firstn n serviceOrder)) /\
  (forall m' t, start w m = Done tt m' t ->
     started t = map Handler serviceOrder /\
     Forall (fun s => exists i, 0 <= i < 8 /\ IsHealthy (probe w s i) = true) serviceOrder) /\
  (forall k service,
     nth_error serviceOrder k = Some service ->
     (forall i, 0 <= i < 8 -> unhealthy (probe w service i)) ->
     exists t, start w m = Exited t /\
       (exists n, (n <= S k)%nat /\ started t = map Handler (firstn n serviceOrder)) /\
       (forall j later, (k < j)%nat -> nth_error serviceOrder j = Some later ->
          ~ In (EStart (Handler later)) t)) /\
  (forall i j earlier later,
     (i < j)%nat ->
     nth_error serviceOrder i = Some earlier ->
     nth_error serviceOrder j = Some later ->
     In (EStart (Handler later)) (trace_of (start w m)) ->
     exists r, 0 <= r < 8 /\ IsHealthy (probe w earlier r) = true) /\
  (prepared w ->
   (forall s, In s serviceOrder -> comesUp w s) ->
   kubeconfig_missing w = false \/ kubeconfig_err w = None ->
   started (trace_of (start w m)) = map Handler serviceOrder) /\
  (forall k service,
     nth_error serviceOrder k = Some service ->
     prepared w ->
     (forall s, In s (firstn k serviceOrder) -> comesUp w s) ->
     kubeconfig_missing w = false \/ kubeconfig_err w = None ->
     start_err w service = None ->
     newHandler_err w service = None ->
     (forall i, 0 <= i < 8 -> unhealthy (probe w service i)) ->
     exists t0,
       start w m
       = Exited (t0 ++
                 fatalExit
                   (mkEntry FatalLevel [("error", VErr (Error (probe w service 7)))]
                      (service ++ " didn't become healthy in time!")%string)
                   (if gracefulTerminationMode m then []
                    else serviceHandlers m ++ map Handler (firstn k serviceOrder))) /\
       started t0 = map Handler (firstn (S k) serviceOrder)).
Proof.
  intros w m. pose proof (start_spec w m) as H.
  split; [|split; [|split; [|split; [|split]]]].
  - destruct (start w m) as [[] m' t|t]; cbn [trace_of].
    + exists 6%nat. apply H.
    + destruct H as [k [t0 [e [hs [st [_ [_ [-> [Hst [_ Hk]]]]]]]]]].
      autorewrite with trace. rewrite Hst.
      destruct Hk as [->| ->]; eauto.
  - intros m' t Heq. rewrite Heq in H. tauto.
  - intros k service Hk Hun.
    assert (Hbad : ~ exists i, 0 <= i < 8 /\ IsHealthy (probe w service i) = true).
    { intros [i [Hi Hh]]. specialize (Hun i Hi). unfold unhealthy in Hun. congruence. }
    destruct (start w m) as [[] m' t|t].
    + exfalso. apply Hbad. destruct H as [_ [_ [_ HF]]].
      rewrite Forall_forall in HF. apply HF. eapply nth_error_In; eauto.
    + destruct H as [k' [t0 [e [hs [st [Hlt [HF [-> [Hst [_ Hk']]]]]]]]]].
      assert (Hle : (k' <= k)%nat).
      { destruct (Nat.le_gt_cases k' k) as [Hle|Hgt]; [exact Hle|].
        exfalso. apply Hbad. rewrite Forall_forall in HF. apply HF.
        apply (nth_error_In _ k). rewrite nth_error_firstn.
        apply Nat.ltb_lt in Hgt. rewrite Hgt. exact Hk. }
      eexists. split; [reflexivity|].
      assert (Hn : exists n, (n <= S k)%nat /\ st = firstn n serviceOrder).
      { destruct Hk' as [->| ->]; [exists k'|exists (S k')]; split; auto; lia. }
      destruct Hn as [n [Hn ->]].
      split.
      * exists n. autorewrite with trace. auto.
      * intros j later Hj Hlater Hin. apply In_started in Hin.
        autorewrite with trace in Hin. rewrite Hst in Hin.
        apply in_map_iff in Hin. destruct Hin as [x [Hx Hin]].
        injection Hx as ->.
        apply (firstn_before serviceOrder n j later serviceOrder_NoDup Hlater); [lia|exact Hin].
  - intros i j earlier later Hij Hi Hj Hin. apply In_started in Hin.
    destruct (start w m) as [[] m' t|t]; cbn [trace_of] in Hin.
    + destruct H as [_ [_ [_ HF]]]. rewrite Forall_forall in HF. apply HF.
      eapply nth_error_In; eauto.
    + destruct H as [k [t0 [e [hs [st [Hlt [HF [-> [Hst [_ Hk]]]]]]]]]].
      autorewrite with trace in Hin. rewrite Hst in Hin.
      apply in_map_iff in Hin. destruct Hin as [x [Hx Hin]]. injection Hx as ->.
      assert (Hjk : (j <= k)%nat).
      { destruct (Nat.le_gt_cases j k) as [Hle|Hgt]; [exact Hle|]. exfalso.
        destruct Hk as [->| ->].
        - apply (firstn_before serviceOrder k j later serviceOrder_NoDup Hj); [lia|exact Hin].
        - apply (firstn_before serviceOrder (S k) j later serviceOrder_NoDup Hj);
            [lia|exact Hin]. }
      rewrite Forall_forall in HF. apply HF.
      apply (nth_error_In _ i). rewrite nth_error_firstn.
      assert (Hik : (i <? k)%nat = true) by (apply Nat.ltb_lt; lia).
      rewrite Hik. exact Hi.
  - intros Hp Hup Hkc.
    destruct (start_up w m Hp Hup Hkc) as [m' [t Heq]].
    rewrite Heq in H. rewrite Heq. cbn [trace_of]. apply H.
  - intros k service Hk Hp Hup Hkc Hs Hn Hun.
    rewrite (start_prepared w m Hp). unfold stages.
    destruct k as [|[|[|[|[|[|k]]]]]]; cbn in Hk; try discriminate Hk;
      try (destruct k; discriminate Hk);
      injection Hk as <-; cbn [firstn serviceOrder] in Hup.
    + destruct (runStages_progress [] (startEtcd w) "etcd" _
                  [startKubeAPIServer w; startKubeControllerManager w;
                   startKubeScheduler w; startKubelet w; startKubeProxy w]
                  (Forall_nil _) (fun m1 => startEtcd_sick w m1 Hs Hun)
                  (set_hyperkubeBin "hyperkube" (set_etcdBin "etcd" m)))
        as [t0 [Heq Hst]].
      exists t0. split; [exact Heq|exact Hst].
    + assert (HF : Forall (fun qs : Prog unit * string =>
                forall m, exists m' t,
                  fst qs m = Done tt m' t /\
                  started t = [Handler (snd qs)] /\
                  serviceHandlers m' = serviceHandlers m ++ [Handler (snd qs)] /\
                  gracefulTerminationMode m' = gracefulTerminationMode m)
                [(startEtcd w, "etcd")]).
      { repeat (apply Forall_cons; [up_stage w Hup Hkc|]). apply Forall_nil. }
      destruct (runStages_progress _ (startKubeAPIServer w) "kube-apiserver" _
                  [startKubeControllerManager w; startKubeScheduler w; startKubelet w;
                   startKubeProxy w]
                  HF
                  (fun m1 => logged_stage_sick w "kube-apiserver" _ (Handler "kube-apiserver")
                               _ _ _ _ m1 eq_refl Hs Hun)
                  (set_hyperkubeBin "hyperkube" (set_etcdBin "etcd" m)))
        as [t0 [Heq Hst]].
      exists t0. split; [exact Heq|exact Hst].
    + assert (HF : Forall (fun qs : Prog unit * string =>
                forall m, exists m' t,
                  fst qs m = Done tt m' t /\
                  started t = [Handler (snd qs)] /\
                  serviceHandlers m' = serviceHandlers m ++ [Handler (snd qs)] /\
                  gracefulTerminationMode m' = gracefulTerminationMode m)
                [(startEtcd w, "etcd"); (startKubeAPIServer w, "kube-apiserver")]).
      { repeat (apply Forall_cons; [up_stage w Hup Hkc|]). apply Forall_nil. }
      destruct (runStages_progress _ (startKubeControllerManager w)
                  "kube-controller-manager" _
                  [startKubeScheduler w; startKubelet w; startKubeProxy w]
                  HF
                  (fun m1 => logged_stage_sick w "kube-controller-manager" _
                               (Handler "kube-controller-manager")
                               _ _ _ _ m1 eq_refl Hs Hun)
                  (set_hyperkubeBin "hyperkube" (set_etcdBin "etcd" m)))
        as [t0 [Heq Hst]].
      exists t0. split; [exact Heq|exact Hst].
    + assert (HF : Forall (fun qs : Prog unit * string =>
                forall m, exists m' t,
                  fst qs m = Done tt m' t /\
                  started t = [Handler (snd qs)] /\
                  serviceHandlers m' = serviceHandlers m ++ [Handler (snd qs)] /\
                  gracefulTerminationMode m' = gracefulTerminationMode m)
                [(startEtcd w, "etcd"); (startKubeAPIServer w, "kube-apiserver");
                 (startKubeControllerManager w, "kube-controller-manager")]).
      { repeat (apply Forall_cons; [up_stage w Hup Hkc|]). apply Forall_nil. }
      destruct (runStages_progress _ (startKubeScheduler w) "kube-scheduler" _
                  [startKubelet w; startKubeProxy w]
                  HF
                  (fun m1 => logged_stage_sick w "kube-scheduler"
                               (fun w => (Handler "kube-scheduler", newHandler_err w "kube-scheduler"))
                               (Handler "kube-scheduler")
                               _ _ _ _ m1 ltac:(cbn; rewrite Hn; reflexivity) Hs Hun)
                  (set_hyperkubeBin "hyperkube" (set_etcdBin "etcd" m)))
        as [t0 [Heq Hst]].
      exists t0. split; [exact Heq|exact Hst].
    + assert (HF : Forall (fun qs : Prog unit * string =>
                forall m, exists m' t,
                  fst qs m = Done tt m' t /\
                  started t = [Handler (snd qs)] /\
                  serviceHandlers m' = serviceHandlers m ++ [Handler (snd qs)] /\
                  gracefulTerminationMode m' = gracefulTerminationMode m)
                [(startEtcd w, "etcd"); (startKubeAPIServer w, "kube-apiserver");
                 (startKubeControllerManager w, "kube-controller-manager");
                 (startKubeScheduler w, "kube-scheduler")]).
      { repeat (apply Forall_cons; [up_stage w Hup Hkc|]). apply Forall_nil. }
      destruct (runStages_progress _ (startKubelet w) "kubelet" _
                  [startKubeProxy w]
                  HF
                  (fun m1 => logged_stage_sick w "kubelet"
                               (fun w => (Handler "kubelet", newHandler_err w "kubelet"))
                               (Handler "kubelet")
                               _ _ _ _ m1 ltac:(cbn; rewrite Hn; reflexivity) Hs Hun)
                  (set_hyperkubeBin "hyperkube" (set_etcdBin "etcd" m)))
        as [t0 [Heq Hst]].
      exists t0. split; [exact Heq|exact Hst].
    + assert (HF : Forall (fun qs : Prog unit * string =>
                forall m, exists m' t,
                  fst qs m = Done tt m' t /\
                  started t = [Handler (snd qs)] /\
                  serviceHandlers m' = serviceHandlers m ++ [Handler (snd qs)] /\
                  gracefulTerminationMode m' = gracefulTerminationMode m)
                [(startEtcd w, "etcd"); (startKubeAPIServer w, "kube-apiserver");
                 (startKubeControllerManager w, "kube-controller-manager");
                 (startKubeScheduler w, "kube-scheduler"); (startKubelet w, "kubelet")]).
      { repeat (apply Forall_cons; [up_stage w Hup Hkc|]). apply Forall_nil. }
      destruct (runStages_progress _ (startKubeProxy w) "kube-proxy" _
                  []
                  HF
                  (fun m1 => logged_stage_sick w "kube-proxy"
                               (fun w => (Handler "kube-proxy", newHandler_err w "kube-proxy"))
                               (Handler "kube-proxy")
                               _ _ _ _ m1 ltac:(cbn; rewrite Hn; reflexivity) Hs Hun)
                  (set_hyperkubeBin "hyperkube" (set_etcdBin "etcd" m)))
        as [t0 [Heq Hst]].
      exists t0. split; [exact Heq|exact Hst].
Qed.

(** C9, where the code departs from it. When [Run] waits for the exit
    signal, [waitUntilNodeReady] has started the goroutine that drains
    the node and has asked the runtime to relay [os.Interrupt] and
    [os.Kill] to it, and nothing else. An interrupt then takes [Run]
    through the whole sequence, in this order: the node is drained,
    [Stop()] is called on every service handler, [Run] sleeps seven
    seconds and returns; the ends of the processes that [Stop()] brings
    about are logged and forwarded by [exitHandler], they do not end the
    process. [os.Kill] cannot be caught, and the termination signal is
    not asked for: either ends the process where it waits, and no step
    of the sequence is run. *)
Theorem Run_shutdown_on_signal : forall w m0 c m t,
  Run_startup w m0 = Done c m t ->
  sigRelay m = [Interrupt; Kill] /\
  In (EGo "signalGoroutine") t /\
  (forall service success exitError,
     exitHandler service success exitError m
     = Done tt m
         [ ELog (mkEntry ErrorLevel
                   [("success", VBool success); ("app", VStr service);
                    ("error", VErr exitError)] (service ++ " stopped!")%string);
           ESend (StateChan service) success ]) /\
  Run w Interrupt m0
  = Done tt m
      (t ++ [ ESignalRelay Interrupt SigChan;
              ERecv SigChan;
              ELog (mkEntry InfoLevel [] "Shutting down...");
              EDrainNode;
              ESend ExitChan true;
              ERecv ExitChan;
              ELog (mkEntry InfoLevel [("app", VStr "microkube")]
                      "Exit signal received, stopping now.");
              ESdNotify "STOPPING=1" ]
         ++ map EStop (serviceHandlers m)
         ++ [ESleep (7 * Second)]) /\
  serviceHandlers m = serviceHandlers m0 ++ map Handler serviceOrder /\
  (forall sig, sig <> Interrupt -> Run w sig m0 = Exited (t ++ [ESignalled sig])).
Proof.
  intros w m0 c m t H.
  destruct (Run_startup_detail w m0 c m t H) as [m1 [t1 [_ [Hm [_ [_ [_ [_ [Hsp _]]]]]]]]].
  pose proof (Run_startup_spec w m0) as Hs. rewrite H in Hs. destruct Hs as [_ [Hg Hsh]].
  split; [rewrite Hm; reflexivity|].
  split; [apply spawned_In; rewrite Hsp; left; reflexivity|].
  split.
  { intros service success exitError.
    unfold exitHandler, log. unfold bind, emit, get, ret. rewrite Hg. reflexivity. }
  split; [exact (Run_after_startup w m0 c m t H)|].
  split; [exact Hsh|].
  intros sig Hsig. exact (Run_signalled w m0 c m t sig H Hsig).
Qed.

(** With a kubelet that never turns healthy, the five services up to
    the kubelet are started and kube-proxy is not. *)
Lemma start_fixed_order_witness :
  exists t, start (sickWorld "kubelet") initial = Exited t /\
            started t = map Handler ["etcd"; "kube-apiserver"; "kube-controller-manager";
                                     "kube-scheduler"; "kubelet"] /\
            ~ In (EStart (Handler "kube-proxy")) t.
Proof.
  destruct (start_fixed_order (sickWorld "kubelet") initial) as [_ [_ [_ [_ [_ H]]]]].
  destruct (H 4%nat "kubelet" eq_refl) as [t0 [Heq Hst]].
  - repeat split.
  - intros s Hin. cbn in Hin.
    assert (Hne : String.eqb s "kubelet" = false).
    { destruct Hin as [<-|[<-|[<-|[<-|[]]]]]; reflexivity. }
    split; [reflexivity|]. split; [reflexivity|].
    exists 0. split; [lia|]. cbn. rewrite Hne. reflexivity.
  - left. reflexivity.
  - reflexivity.
  - reflexivity.
  - intros i Hi. reflexivity.
  - eexists. split; [exact Heq|]. split.
    + rewrite started_app, started_fatalExit, app_nil_r. exact Hst.
    + intros Hin. apply In_started in Hin.
      rewrite started_app, started_fatalExit, app_nil_r, Hst in Hin.
      cbn in Hin. intuition discriminate.
Defined.

(** A run in which everything is healthy receives the termination
    signal: it ends without draining the node, without the grace period,
    and the only handler [Stop()] was ever called on is kube-proxy, by
    the deferred call of startup. On an interrupt the same run stops all
    six. *)
Lemma Run_shutdown_on_signal_witness :
  (exists t,
     Run healthyWorld Terminate initial = Exited t /\
     waits t = true /\
     ~ In EDrainNode t /\
     ~ In (ESleep (7 * Second)) t /\
     stopped t = [Handler "kube-proxy"]) /\
  stopped (trace_of (Run healthyWorld Interrupt initial))
  = Handler "kube-proxy" :: map Handler serviceOrder.
Proof.
  destruct (Run_startup healthyWorld initial) as [c m t|t] eqn:E;
    [|vm_compute in E; discriminate E].
  destruct (Run_shutdown_on_signal healthyWorld initial c m t E)
    as [_ [_ [_ [Hint [_ Hsig]]]]].
  split.
  - rewrite (Hsig Terminate ltac:(discriminate)).
    vm_compute in E. injection E as <- <- <-.
    eexists. split; [reflexivity|]. split; [reflexivity|].
    split; [|split; [|reflexivity]];
      intros Hin; cbn in Hin;
      repeat (destruct Hin as [Hin|Hin]; [discriminate Hin|]); exact Hin.
  - rewrite Hint. vm_compute in E. injection E as <- <- <-. reflexivity.
Defined.

End OrderAndShutdown.

(** ** The monitor loop as a whole *)

Section MonitorFacts.

Import Observe.

Lemma checkService_loop_exited_app : forall handler a b c m t,
  checkService_loop handler c a m = Exited t ->
  checkService_loop handler c (a ++ b) m = Exited t.
Proof.
  intros handler a b. induction a as [|ev a IH]; intros c m t H.
  - discriminate H.
  - cbn [checkService_loop app] in *. unfold bind in *.
    destruct (checkService_iter handler c ev m) as [c1 m1 t1|t1]; [|exact H].
    destruct (checkService_loop handler c1 a m1) as [c2 m2 t2|t2] eqn:E; [discriminate|].
    rewrite (IH _ _ _ E). exact H.
Qed.

Lemma checkService_loop_graceful : forall handler events c m,
  gracefulTerminationMode m = true ->
  checkService_loop handler c events m
  = checkService_loop handler c (filter isHealthEvent events) m.
Proof.
  intros handler events. induction events as [|ev events IH]; intros c m Hg.
  - reflexivity.
  - destruct ev as [success|msg]; cbn [filter isHealthEvent checkService_loop].
    + assert (E : checkService_iter handler c (ExitEvent success) m = Done c m []).
      { rewrite checkService_iter_exit, Hg. reflexivity. }
      rewrite (bind_silent _ _ _ _ _ _ _ E). apply IH, Hg.
    + unfold bind.
      destruct (checkService_iter handler c (HealthEvent msg) m) as [c1 m1 t1|t1] eqn:E;
        [|reflexivity].
      apply checkService_iter_done in E. destruct E as [-> _].
      rewrite (IH c1 m Hg). reflexivity.
Qed.

(** After startup, when [gracefulTerminationMode] is set, what arrives
    on the exit channel of a service changes nothing in its monitor: the
    log, the failure counter and the decision to abort are those of the
    health messages alone. An exit between two unhealthy probes does not
    reset the counter. *)
Theorem exit_events_invisible_when_graceful : forall handler events m,
  gracefulTerminationMode m = true ->
  checkService handler events m
  = checkService handler (filter isHealthEvent events) m.
Proof.
  intros handler events m Hg. unfold checkService.
  apply checkService_loop_graceful, Hg.
Qed.

Lemma streak_snoc : forall msgs x,
  streak (msgs ++ [x]) = if IsHealthy x then O else S (streak msgs).
Proof. intros msgs x. unfold streak. rewrite rev_app_distr. reflexivity. Qed.

Lemma app_snoc_split : forall (A : Type) (msgs p rest : list A) (x : A),
  msgs ++ [x] = p ++ rest ->
  (rest = [] /\ p = msgs ++ [x]) \/ (exists r, rest = r ++ [x] /\ msgs = p ++ r).
Proof.
  intros A msgs p rest x H. destruct rest as [|y rest _] using rev_ind.
  - left. rewrite app_nil_r in H. auto.
  - right. rewrite app_assoc in H. apply app_inj_tail in H. destruct H as [H1 H2].
    exists rest. subst. auto.
Qed.

Lemma checkService_streak : forall handler m msgs,
  match checkService_loop handler 0 (map HealthEvent msgs) m with
  | Done c _ _ =>
      c = Z.of_nat (streak msgs) /\ (streak msgs < 10)%nat /\
      forall p rest, msgs = p ++ rest -> streak p <> 10%nat
  | Exited _ => exists p rest, msgs = p ++ rest /\ streak p = 10%nat
  end.
Proof.
  intros handler m msgs. induction msgs as [|x msgs IH] using rev_ind.
  - cbn. split; [reflexivity|]. split; [unfold streak; cbn; lia|].
    intros p rest H. symmetry in H. apply app_eq_nil in H. destruct H as [-> _].
    discriminate.
  - rewrite map_app. cbn [map].
    destruct (checkService_loop handler 0 (map HealthEvent msgs) m) as [c m1 t1|t1] eqn:E.
    + destruct IH as [Hc [Hlt Hp]].
      pose proof (checkService_loop_state _ _ _ _ _ _ _ E) as ->.
      rewrite (checkService_loop_app _ _ _ _ _ _ _ _ E). cbn [checkService_loop].
      destruct (IsHealthy x) eqn:Hx.
      * rewrite (bind_done _ _ _ _ _ _ _ _ (checkService_iter_healthy handler c x m Hx)).
        unfold ret. rewrite streak_snoc, Hx.
        split; [reflexivity|]. split; [lia|].
        intros p rest H.
        destruct (app_snoc_split _ _ _ _ _ H) as [[-> ->]|[r [-> ->]]].
        -- rewrite streak_snoc, Hx. discriminate.
        -- eapply Hp. reflexivity.
      * destruct (Z.eq_dec c 9) as [E9|N9].
        -- rewrite E9.
           rewrite (bind_exited _ _ _ _ _ _ (checkService_iter_tenth handler x m Hx)).
           exists (msgs ++ [x]), []. split; [rewrite app_nil_r; reflexivity|].
           rewrite streak_snoc, Hx. lia.
        -- rewrite (bind_done _ _ _ _ _ _ _ _
                      (checkService_iter_unhealthy handler c x m Hx ltac:(lia))).
           unfold ret. rewrite streak_snoc, Hx.
           split; [lia|]. split; [lia|].
           intros p rest H.
           destruct (app_snoc_split _ _ _ _ _ H) as [[-> ->]|[r [-> ->]]].
           ++ rewrite streak_snoc, Hx. lia.
           ++ eapply Hp. reflexivity.
    + rewrite (checkService_loop_exited_app _ _ _ _ _ _ E).
      destruct IH as [p [rest [-> Hs]]]. exists p, (rest ++ [x]).
      rewrite app_assoc. auto.
Qed.

(** Over any sequence of health messages, the counter of [checkService]
    is the number of unhealthy messages received since the last healthy
    one, and the monitor makes the process exit exactly when that number
    reaches ten at some point of the sequence; as long as it runs, the
    number stays below ten. *)
Theorem checkService_aborts_at_ten_in_a_row : forall handler m msgs,
  (exited (checkService handler (map HealthEvent msgs) m) = true <->
   exists p rest, msgs = p ++ rest /\ streak p = 10%nat) /\
  (forall c m' t,
     checkService handler (map HealthEvent msgs) m = Done c m' t ->
     c = Z.of_nat (streak msgs) /\ (streak msgs < 10)%nat /\ m' = m).
Proof.
  intros handler m msgs. unfold checkService.
  pose proof (checkService_streak handler m msgs) as H.
  destruct (checkService_loop handler 0 (map HealthEvent msgs) m) as [c m1 t1|t1] eqn:E.
  - destruct H as [Hc [Hlt Hp]]. split.
    + cbn. split; [discriminate|]. intros [p [rest [Hm Hs]]].
      exfalso. exact (Hp p rest Hm Hs).
    + intros c' m' t' H'. injection H' as <- <- <-.
      split; [exact Hc|]. split; [exact Hlt|].
      eapply checkService_loop_state. exact E.
  - split.
    + cbn. split; [intros _; exact H|reflexivity].
    + intros c m' t H'. discriminate H'.
Qed.

End MonitorFacts.

(** ** The cluster range of [calculateIPRanges] *)

Section IPRangeFacts.

Import IPRanges.

Lemma findBit_offset : forall fuel mask b p o,
  findBit fuel mask b p o =
  match findBit fuel mask 0 p o with
  | Some (x, f) => Some (b + x, f)
  | None => None
  end.
Proof.
  induction fuel as [|fuel IH]; intros mask b p o; [reflexivity|].
  cbn [findBit]. destruct (0 <? mask); [|f_equal; f_equal; lia].
  destruct (negb (Z.land p mask =? Z.land o mask)); [reflexivity|].
  rewrite (IH (mask / 2) (b + 1)), (IH (mask / 2) (0 + 1)).
  destruct (findBit fuel (mask / 2) 0 p o) as [[x f]|]; [|reflexivity].
  f_equal. f_equal. lia.
Qed.

(** The fuel is enough, whatever the two octets are. *)
Lemma findBit_ends : forall b p o, exists x f, findBit maskFuel 128 b p o = Some (x, f).
Proof.
  intros b p o. unfold maskFuel. cbn [findBit].
  repeat match goal with
  | |- context [negb (Z.land p ?k =? Z.land o ?k)] =>
      destruct (negb (Z.land p k =? Z.land o k)); [eexists _, _; reflexivity|]
  | |- context [0 <? ?k] => let v := eval vm_compute in (0 <? k) in
                            change (0 <? k) with v; cbv iota
  | |- context [?k / 2] => let v := eval vm_compute in (k / 2) in
                           change (k / 2) with v
  end.
  eexists _, _; reflexivity.
Qed.

Lemma findBit_all_bytes :
  forallb (fun p => forallb (fun o => findBitOk p o) bytes) bytes = true.
Proof. vm_compute. reflexivity. Qed.

Lemma In_bytes : forall z, isByte z = true -> In z bytes.
Proof.
  intros z H. unfold isByte in H. apply andb_true_iff in H. destruct H as [H1 H2].
  apply Z.leb_le in H1. apply Z.ltb_lt in H2.
  unfold bytes. replace z with (Z.of_nat (Z.to_nat z)) by lia.
  apply in_map, in_seq. lia.
Qed.

Lemma findBit_byte : forall b p o,
  isByte p = true -> isByte o = true -> p <> o ->
  findBit maskFuel 128 b p o
  = Some (b + 8 - Z.log2 (Z.lxor p o), Some (o <? p)).
Proof.
  intros b p o Hp Ho Hne.
  pose proof findBit_all_bytes as H.
  rewrite forallb_forall in H. specialize (H p (In_bytes p Hp)).
  rewrite forallb_forall in H. specialize (H o (In_bytes o Ho)).
  unfold findBitOk in H. apply Z.eqb_neq in Hne. rewrite Hne in H. cbn [orb] in H.
  rewrite findBit_offset.
  destruct (findBit maskFuel 128 0 p o) as [[x [v|]]|]; try discriminate.
  apply andb_true_iff in H. destruct H as [H1 H2].
  apply Z.eqb_eq in H1. apply Bool.eqb_prop in H2. subst. f_equal. f_equal. lia.
Qed.

Lemma rangeLoop_in_range : forall service pod idx b v,
  (idx + List.length service <= List.length pod)%nat ->
  exists b' v', rangeLoop pod idx service b v = Finished b' v'.
Proof.
  induction service as [|o rest IH]; intros pod idx b v Hlen.
  - cbn. eauto.
  - cbn [List.length] in Hlen. cbn [rangeLoop].
    destruct (nth_error pod idx) as [p|] eqn:E.
    + destruct (negb (p =? o)).
      * destruct (findBit_ends (Z.of_nat idx * 8) p o) as [x [f ->]].
        apply IH. lia.
      * apply IH. lia.
    + apply nth_error_None in E. lia.
Qed.

Lemma rangeLoop_out_of_range : forall service pod idx b v,
  (idx <= List.length pod)%nat ->
  (List.length pod < idx + List.length service)%nat ->
  rangeLoop pod idx service b v = IndexOutOfRange.
Proof.
  induction service as [|o rest IH]; intros pod idx b v Hidx Hlen.
  - cbn in Hlen. lia.
  - cbn [List.length] in Hlen. cbn [rangeLoop].
    destruct (nth_error pod idx) as [p|] eqn:E; [|reflexivity].
    assert (idx < List.length pod)%nat by (apply nth_error_Some; congruence).
    destruct (negb (p =? o)).
    + destruct (findBit_ends (Z.of_nat idx * 8) p o) as [x [f ->]].
      apply IH; lia.
    + apply IH; lia.
Qed.

Lemma rangeLoop_app : forall a pod idx rest b v b' v',
  rangeLoop pod idx a b v = Finished b' v' ->
  rangeLoop pod idx (a ++ rest) b v
  = rangeLoop pod (idx + List.length a) rest b' v'.
Proof.
  induction a as [|o a IH]; intros pod idx rest b v b' v' H.
  - cbn in H. injection H as <- <-. cbn. rewrite Nat.add_0_r. reflexivity.
  - cbn [rangeLoop app List.length] in *.
    replace (idx + S (List.length a))%nat with (S idx + List.length a)%nat by lia.
    destruct (nth_error pod idx) as [p|]; [|discriminate].
    destruct (negb (p =? o)).
    + destruct (findBit maskFuel 128 (Z.of_nat idx * 8) p o) as [[x f]|]; [|discriminate].
      apply IH. exact H.
    + apply IH. exact H.
Qed.

Lemma rangeLoop_same : forall c pre d b v,
  rangeLoop (pre ++ c ++ d) (List.length pre) c b v = Finished b v.
Proof.
  induction c as [|o c IH]; intros pre d b v; [reflexivity|].
  cbn [rangeLoop].
  rewrite nth_error_app2 by lia. rewrite Nat.sub_diag. cbn [app nth_error].
  rewrite Z.eqb_refl. cbn [negb].
  specialize (IH (pre ++ [o]) d b v).
  rewrite <- app_assoc, List.length_app in IH. cbn in IH.
  rewrite Nat.add_1_r in IH. exact IH.
Qed.

Lemma divergence_at_last : forall a a' p o c d,
  List.length a = List.length a' ->
  isByte p = true -> isByte o = true -> p <> o ->
  divergence (a ++ p :: c ++ d) (a' ++ o :: c)
  = Finished (8 * Z.of_nat (List.length a) + 7 - Z.log2 (Z.lxor p o)) (o <? p).
Proof.
  intros a a' p o c d Hlen Hp Ho Hne. unfold divergence.
  destruct (rangeLoop_in_range a' (a ++ p :: c ++ d) 0 0 false) as [b [v E]].
  { rewrite List.length_app. lia. }
  rewrite (rangeLoop_app _ _ _ _ _ _ _ _ E). cbn [Nat.add rangeLoop].
  rewrite <- Hlen. rewrite nth_error_app2 by lia. rewrite Nat.sub_diag. cbn [nth_error].
  assert (Hb : (p =? o) = false) by (apply Z.eqb_neq; exact Hne).
  rewrite Hb. cbn [negb].
  rewrite (findBit_byte _ p o Hp Ho Hne).
  pose proof (rangeLoop_same c (a ++ [p]) d) as Hs.
  rewrite <- app_assoc, List.length_app in Hs. cbn in Hs.
  rewrite Nat.add_1_r in Hs. rewrite Hs. f_equal. lia.
Qed.

(** The highest bit of a byte is bit seven at most. *)
Lemma log2_byte : forall p o,
  isByte p = true -> isByte o = true -> 0 <= Z.log2 (Z.lxor p o) <= 7.
Proof.
  intros p o Hp Ho.
  assert (H : forallb (fun x => forallb (fun y => (0 <=? Z.log2 (Z.lxor x y)) &&
                                                  (Z.log2 (Z.lxor x y) <=? 7)) bytes) bytes
              = true) by (vm_compute; reflexivity).
  rewrite forallb_forall in H. specialize (H p (In_bytes p Hp)).
  rewrite forallb_forall in H. specialize (H o (In_bytes o Ho)).
  apply andb_true_iff in H. destruct H as [H1 H2].
  apply Z.leb_le in H1. apply Z.leb_le in H2. lia.
Qed.

(** The number of ones [calculateIPRanges] hands to [net.CIDRMask] is
    the position of the first diverging bit in the LAST octet in which
    the two networks differ: the loop over the octets goes on after a
    diverging octet, so that a later one overwrites the offset. That
    octet alone decides the address of the cluster range: the pod
    address, or, when the service octet is the smaller one, [nil],
    because the variable assigned there was never set. The mask is the
    32-bit mask with that many ones as long as they are 32 at most,
    which they are when the last diverging octet is one of the first
    four, and [nil] beyond, as for every octet after the fifth. *)
Theorem divergence_last_octet : forall a a' p o c d podRangeIP,
  List.length a = List.length a' ->
  IPRanges.isByte p = true -> IPRanges.isByte o = true -> p <> o ->
  let ones := 8 * Z.of_nat (List.length a) + 7 - Z.log2 (Z.lxor p o) in
  IPRanges.divergence (a ++ p :: c ++ d) (a' ++ o :: c)
  = IPRanges.Finished ones (o <? p) /\
  IPRanges.calculateIPRanges podRangeIP (a ++ p :: c ++ d) (a' ++ o :: c)
  = Some (if o <? p then None else Some podRangeIP, IPRanges.CIDRMask ones 32) /\
  8 * Z.of_nat (List.length a) <= ones < 8 * Z.of_nat (List.length a) + 8 /\
  (ones <= 32 -> IPRanges.CIDRMask ones 32 = Some (IPRanges.maskBytes 4 ones)) /\
  (32 < ones -> IPRanges.CIDRMask ones 32 = None) /\
  ((List.length a < 4)%nat -> ones < 32) /\
  ((4 < List.length a)%nat -> 32 < ones).
Proof.
  intros a a' p o c d podRangeIP Hlen Hp Ho Hne ones.
  pose proof (divergence_at_last a a' p o c d Hlen Hp Ho Hne) as Hd. fold ones in Hd.
  pose proof (log2_byte p o Hp Ho) as Hl.
  assert (H0 : (ones <? 0) = false) by (apply Z.ltb_ge; unfold ones; lia).
  split; [exact Hd|]. split; [|split; [|split; [|split; [|split]]]].
  - unfold calculateIPRanges. rewrite Hd. reflexivity.
  - unfold ones. lia.
  - intros Ha. unfold CIDRMask. cbn [Z.eqb negb andb].
    assert (H1 : (32 <? ones) = false) by (apply Z.ltb_ge; lia).
    rewrite H0, H1. reflexivity.
  - intros Ha. unfold CIDRMask. cbn [Z.eqb negb andb].
    assert (H1 : (32 <? ones) = true) by (apply Z.ltb_lt; lia).
    rewrite H0, H1. reflexivity.
  - intros Ha. unfold ones. lia.
  - intros Ha. unfold ones. lia.
Qed.

(** The loop indexes the pod network with the indices of the service
    network: it panics exactly when the pod address is the shorter one,
    and otherwise ends (the inner loop never runs out of masks). For two
    networks with the same address, nothing diverges, and the cluster
    range gets the pod address with a prefix of length zero. *)
Theorem divergence_edge_cases : forall pod service,
  (IPRanges.divergence pod service = IPRanges.IndexOutOfRange
   <-> (List.length pod < List.length service)%nat) /\
  IPRanges.divergence pod service <> IPRanges.OutOfFuel /\
  (forall extra podRangeIP,
     pod = service ++ extra ->
     IPRanges.calculateIPRanges podRangeIP pod service
     = Some (Some podRangeIP, Some [0; 0; 0; 0])).
Proof.
  intros pod service. unfold calculateIPRanges, divergence.
  destruct (Nat.lt_ge_cases (List.length pod) (List.length service)) as [Hlt|Hge].
  - rewrite (rangeLoop_out_of_range service pod 0 0 false ltac:(lia) ltac:(lia)).
    split; [tauto|]. split; [discriminate|].
    intros extra ? ->. rewrite List.length_app in Hlt. lia.
  - destruct (rangeLoop_in_range service pod 0 0 false ltac:(lia)) as [b [v E]].
    rewrite E. split; [split; [discriminate|lia]|]. split; [discriminate|].
    intros extra ? ->.
    pose proof (rangeLoop_same service [] extra 0 false) as Hs. cbn in Hs.
    rewrite Hs in E. injection E as <- <-. reflexivity.
Qed.

End IPRangeFacts.

(** ** The health check of the DNS manifest *)

Section DnsFacts.

Import DnsMain.

Lemma rounds_S : forall k, rounds (S k) = [SIsHealthy; SSleep (1 * Second)] ++ rounds k.
Proof. reflexivity. Qed.

Lemma rounds_snoc : forall k, rounds (S k) = rounds k ++ [SIsHealthy; SSleep (1 * Second)].
Proof.
  induction k as [|k IH]; [reflexivity|].
  rewrite rounds_S, IH at 1. rewrite rounds_S. reflexivity.
Qed.

Lemma calls_app : forall a b, calls (a ++ b) = (calls a + calls b)%nat.
Proof.
  induction a as [|s a IH]; intros b; [reflexivity|].
  destruct s; cbn; rewrite ?IH; reflexivity.
Qed.

Lemma calls_rounds : forall k, calls (rounds k) = k.
Proof.
  induction k as [|k IH]; [reflexivity|]. rewrite rounds_S. cbn. rewrite IH. reflexivity.
Qed.

(** The loop from round [i] on, when the decisive answer comes in round
    [i + n]. *)
Lemma healthLoop_from : forall c kubeconfig n fuel i,
  0 <= i -> i + Z.of_nat n <= 10 -> (n < fuel)%nat ->
  (forall j, i <= j < i + Z.of_nat n -> isHealthy c j = (false, None)) ->
  healthLoop fuel c kubeconfig i false =
  after (rounds n)
    (if i + Z.of_nat n <? 10 then
       match isHealthy c (i + Z.of_nat n) with
       | (_, Some e) =>
           LoopFatal (SIsHealthy :: fatal e kubeconfig "Couldn't enable health checks")
       | (true, None) => LoopDone true [SIsHealthy]
       | (false, None) =>
           after [SIsHealthy; SSleep (1 * Second)]
             (healthLoop (fuel - n - 1) c kubeconfig (i + Z.of_nat n + 1) false)
       end
     else LoopDone false []).
Proof.
  intros c kubeconfig. induction n as [|n IH]; intros fuel i Hi Hn Hf Hq.
  - destruct fuel as [|fuel]; [lia|]. cbn [healthLoop Z.of_nat rounds repeat List.concat].
    rewrite Z.add_0_r. replace (S fuel - 0 - 1)%nat with fuel by lia.
    destruct (i <? 10); cbn [andb negb]; [|reflexivity].
    destruct (isHealthy c i) as [[|] [e|]]; try reflexivity.
    destruct (healthLoop fuel c kubeconfig (i + 1) false); reflexivity.
  - destruct fuel as [|fuel]; [lia|]. cbn [healthLoop].
    assert (Hlt : (i <? 10) = true) by (apply Z.ltb_lt; lia).
    rewrite Hlt. cbn [andb negb].
    rewrite (Hq i ltac:(lia)).
    rewrite (IH fuel (i + 1) ltac:(lia) ltac:(lia) ltac:(lia)).
    2:{ intros j Hj. apply Hq. lia. }
    replace (i + 1 + Z.of_nat n) with (i + Z.of_nat (S n)) by lia.
    replace (S fuel - S n - 1)%nat with (fuel - n - 1)%nat by lia.
    rewrite rounds_S.
    destruct (i + Z.of_nat (S n) <? 10).
    + destruct (isHealthy c (i + Z.of_nat (S n))) as [[|] [e|]]; try reflexivity.
      destruct (healthLoop (fuel - n - 1) c kubeconfig (i + Z.of_nat (S n) + 1) false);
        reflexivity.
    + reflexivity.
Qed.

(** Once the manifest is applied, [main] asks [IsHealthy] at most ten
    times, one second apart. An error of a call ends the process at once
    through [log.Fatal], whatever the call says about health; the first
    healthy answer ends the loop without a further sleep; and ten
    unhealthy answers are not fatal: [main] logs the status [false] and
    returns. *)
Theorem main_gives_up_quietly : forall c flag kubeconfig,
  expand c flag = (kubeconfig, None) ->
  applyToCluster_err c = None ->
  initHealthCheck_err c = None ->
  (forall k ok e,
     (k < 10)%nat ->
     (forall j, 0 <= j < Z.of_nat k -> isHealthy c j = (false, None)) ->
     isHealthy c (Z.of_nat k) = (ok, Some e) ->
     main c flag =
     Exited ([SApplyToCluster kubeconfig; SInitHealthCheck kubeconfig] ++ rounds k
             ++ SIsHealthy :: fatal e kubeconfig "Couldn't enable health checks")) /\
  (forall k,
     (k < 10)%nat ->
     (forall j, 0 <= j < Z.of_nat k -> isHealthy c j = (false, None)) ->
     isHealthy c (Z.of_nat k) = (true, None) ->
     main c flag =
     Returned ([SApplyToCluster kubeconfig; SInitHealthCheck kubeconfig] ++ rounds k
               ++ [SIsHealthy;
                   SLog (mkEntry InfoLevel [("status", VBool true)] "Health check done")])) /\
  ((forall j, 0 <= j < 10 -> isHealthy c j = (false, None)) ->
   main c flag =
   Returned ([SApplyToCluster kubeconfig; SInitHealthCheck kubeconfig] ++ rounds 10
             ++ [SLog (mkEntry InfoLevel [("status", VBool false)] "Health check done")])) /\
  (calls match main c flag with
         | Returned t => t
         | Exited t => t
         | Diverged => []
         end <= 10)%nat /\
  main c flag <> Diverged.
Proof.
  intros c flag kubeconfig He Ha Hi.
  assert (H1 : forall k ok e,
     (k < 10)%nat ->
     (forall j, 0 <= j < Z.of_nat k -> isHealthy c j = (false, None)) ->
     isHealthy c (Z.of_nat k) = (ok, Some e) ->
     main c flag =
     Exited ([SApplyToCluster kubeconfig; SInitHealthCheck kubeconfig] ++ rounds k
             ++ SIsHealthy :: fatal e kubeconfig "Couldn't enable health checks")).
  { intros k ok e Hk Hq Hd. unfold main. rewrite He, Ha, Hi.
    rewrite (healthLoop_from c kubeconfig k loopFuel 0 ltac:(lia) ltac:(lia)
               ltac:(unfold loopFuel; lia) Hq).
    cbn [Z.add]. assert (Hlt : (Z.of_nat k <? 10) = true) by (apply Z.ltb_lt; lia).
    rewrite Hlt, Hd. destruct ok; reflexivity. }
  assert (H2 : forall k,
     (k < 10)%nat ->
     (forall j, 0 <= j < Z.of_nat k -> isHealthy c j = (false, None)) ->
     isHealthy c (Z.of_nat k) = (true, None) ->
     main c flag =
     Returned ([SApplyToCluster kubeconfig; SInitHealthCheck kubeconfig] ++ rounds k
               ++ [SIsHealthy;
                   SLog (mkEntry InfoLevel [("status", VBool true)] "Health check done")])).
  { intros k Hk Hq Hd. unfold main. rewrite He, Ha, Hi.
    rewrite (healthLoop_from c kubeconfig k loopFuel 0 ltac:(lia) ltac:(lia)
               ltac:(unfold loopFuel; lia) Hq).
    cbn [Z.add]. assert (Hlt : (Z.of_nat k <? 10) = true) by (apply Z.ltb_lt; lia).
    rewrite Hlt, Hd. cbn [after]. rewrite <- app_assoc. reflexivity. }
  assert (H3 : (forall j, 0 <= j < 10 -> isHealthy c j = (false, None)) ->
   main c flag =
   Returned ([SApplyToCluster kubeconfig; SInitHealthCheck kubeconfig] ++ rounds 10
             ++ [SLog (mkEntry InfoLevel [("status", VBool false)] "Health check done")])).
  { intros Hq. unfold main. rewrite He, Ha, Hi.
    rewrite (healthLoop_from c kubeconfig 10 loopFuel 0 ltac:(lia) ltac:(lia)
               ltac:(unfold loopFuel; lia) Hq).
    reflexivity. }
  split; [exact H1|]. split; [exact H2|]. split; [exact H3|].
  (* the first decisive answer, if there is one among the first ten *)
  assert (Hcase : (exists k, (k < 10)%nat /\
                     (forall j, 0 <= j < Z.of_nat k -> isHealthy c j = (false, None)) /\
                     isHealthy c (Z.of_nat k) <> (false, None)) \/
                  (forall j, 0 <= j < 10 -> isHealthy c j = (false, None))).
  { assert (G : forall n, (n <= 10)%nat ->
              (exists k, (k < n)%nat /\
                 (forall j, 0 <= j < Z.of_nat k -> isHealthy c j = (false, None)) /\
                 isHealthy c (Z.of_nat k) <> (false, None)) \/
              (forall j, 0 <= j < Z.of_nat n -> isHealthy c j = (false, None))).
    { induction n as [|n IHn]; intros Hn.
      - right. intros j Hj. lia.
      - destruct (IHn ltac:(lia)) as [[k [Hk Hr]]|Hall].
        + left. exists k. split; [lia|exact Hr].
        + destruct (isHealthy c (Z.of_nat n)) as [[|] [e|]] eqn:E.
          * left. exists n. split; [lia|]. split; [exact Hall|]. rewrite E. discriminate.
          * left. exists n. split; [lia|]. split; [exact Hall|]. rewrite E. discriminate.
          * left. exists n. split; [lia|]. split; [exact Hall|]. rewrite E. discriminate.
          * right. intros j Hj. destruct (Z.eq_dec j (Z.of_nat n)) as [->|Hne];
              [exact E|apply Hall; lia]. }
    destruct (G 10%nat ltac:(lia)) as [[k Hk]|Hall]; [left; exists k; exact Hk|].
    right. exact Hall. }
  destruct Hcase as [[k [Hk [Hq Hd]]]|Hall].
  - destruct (isHealthy c (Z.of_nat k)) as [[|] [e|]] eqn:E.
    + rewrite (H1 k true e Hk Hq E). split; [|discriminate].
      rewrite !calls_app, calls_rounds. cbn. lia.
    + rewrite (H2 k Hk Hq E). split; [|discriminate].
      rewrite !calls_app, calls_rounds. cbn. lia.
    + rewrite (H1 k false e Hk Hq E). split; [|discriminate].
      rewrite !calls_app, calls_rounds. cbn. lia.
    + congruence.
  - rewrite (H3 Hall). split; [|discriminate].
    rewrite !calls_app, calls_rounds. cbn. lia.
Qed.

End DnsFacts.

(** ** The ports of an execution environment *)

Section PortFacts.

Variables OutputFn ExitFn : Type.

Lemma wrap_cases : forall z,
  - 2 ^ 63 <= z < 2 ^ 63 + 2 ^ 64 ->
  (z < 2 ^ 63 /\ wrap z = z) \/ (2 ^ 63 <= z /\ wrap z = z - 2 ^ 64).
Proof.
  intros z Hz. unfold wrap.
  change (2 ^ 63) with 9223372036854775808 in *.
  change (2 ^ 64) with 18446744073709551616 in *.
  destruct (Z_lt_le_dec z 9223372036854775808) as [Hlt|Hge].
  - left. split; [exact Hlt|]. rewrite Z.mod_small by lia. lia.
  - right. split; [exact Hge|].
    replace (z + 9223372036854775808)
      with ((z - 9223372036854775808) + 1 * 18446744073709551616) by lia.
    rewrite Z.mod_add by lia. rewrite Z.mod_small by lia. lia.
Qed.

(** [InitPorts] gives the ten services ten different ports, each one an
    [int] again: [base] and the nine that follow it, or, where [base + i]
    overflows, what it wraps to: also then no two services share a
    port. *)
Theorem InitPorts_distinct_ports : forall (e : ExecutionEnvironment OutputFn ExitFn) base,
  - 2 ^ 63 <= base < 2 ^ 63 ->
  NoDup (ports (InitPorts e base)) /\
  Forall (fun p => - 2 ^ 63 <= p < 2 ^ 63) (ports (InitPorts e base)) /\
  (base + 9 < 2 ^ 63 ->
   ports (InitPorts e base) = map (fun i => base + Z.of_nat i) (seq 0 10)).
Proof.
  intros e base Hb. unfold ports, InitPorts. cbn.
  change (2 ^ 63) with 9223372036854775808 in *.
  pose proof (wrap_cases (base + 1)) as W1. pose proof (wrap_cases (base + 2)) as W2.
  pose proof (wrap_cases (base + 3)) as W3. pose proof (wrap_cases (base + 4)) as W4.
  pose proof (wrap_cases (base + 5)) as W5. pose proof (wrap_cases (base + 6)) as W6.
  pose proof (wrap_cases (base + 7)) as W7. pose proof (wrap_cases (base + 8)) as W8.
  pose proof (wrap_cases (base + 9)) as W9.
  change (2 ^ 63) with 9223372036854775808 in *.
  change (2 ^ 64) with 18446744073709551616 in *.
  split; [|split].
  - repeat (constructor; [cbn [In]; lia|]). constructor.
  - repeat (constructor; [lia|]). constructor.
  - intros Hn. repeat f_equal; lia.
Qed.

End PortFacts.

(** ** The further theorems at concrete inputs *)

Section FurtherWitnesses.

Import GoStrings Observe.

(** An info line of the API server. *)
Lemma Extract_sound_witness :
  exists p',
    KubeLog.Extract KubeLog.emptyLine
      (KubeLog.format "I0912" "12:00:00" "1" "main.go:5" "started" "")
    = Some (p', true) /\
    all KubeLog.notNewline (KubeLog.Message p') = true.
Proof.
  destruct (Extract_sound KubeLog.emptyLine
              (KubeLog.format "I0912" "12:00:00" "1" "main.go:5" "started" ""))
    as [p' [ok [H Hok]]].
  assert (Htrue : ok = true) by (vm_compute in H; congruence).
  subst ok. exists p'. split; [exact H|]. apply (Hok eq_refl).
Defined.

Lemma Extract_format_witness :
  KubeLog.Extract KubeLog.emptyLine
    (KubeLog.format "I0912" "12:00:00" "1" "main.go:5" "started" "")
  = Some (KubeLog.mkKubeLogLine "" "I0912" "12:00:00" "1" "main.go:5" "started", true).
Proof. apply Extract_format; reflexivity. Defined.

(** A line of the restful web service. *)
Lemma ExtractRestful_sound_witness :
  exists p',
    KubeLog.ExtractRestful KubeLog.emptyRestful
      (KubeLog.formatRestful "2018/09/12" "12:00:00" "log.go:33" "GET /healthz" "")
    = Some (p', true) /\
    Index (KubeLog.LocationR p') ": " = -1.
Proof.
  destruct (ExtractRestful_sound KubeLog.emptyRestful
              (KubeLog.formatRestful "2018/09/12" "12:00:00" "log.go:33" "GET /healthz" ""))
    as [p' [ok [H Hok]]].
  assert (Htrue : ok = true) by (vm_compute in H; congruence).
  subst ok. exists p'. split; [exact H|]. apply (Hok eq_refl).
Defined.

Lemma ExtractRestful_format_witness :
  KubeLog.ExtractRestful KubeLog.emptyRestful
    (KubeLog.formatRestful "2018/09/12" "12:00:00" "log.go:33" "GET /healthz" "")
  = Some (KubeLog.mkKubeLogLineRestful "" "2018/09/12" "12:00:00" "log.go:33" "GET /healthz",
          true).
Proof. apply ExtractRestful_format; reflexivity. Defined.

(** A line that begins with a space. *)
Lemma handleLine_panics_iff_witness :
  KubeLog.handleLine "etcd" (KubeLog.format "" "12:00:00" "1" "main.go:5" "started" "")
  = KubeLog.Panicked.
Proof.
  apply (proj2 (handleLine_panics_iff "etcd"
                  (KubeLog.format "" "12:00:00" "1" "main.go:5" "started" ""))).
  split; [reflexivity|].
  exists "12:00:00", "1", "main.go:5", "started", "". repeat split.
Defined.

Lemma handleLine_no_error_witness :
  KubeLog.handleLine "kube-apiserver"
    (KubeLog.formatRestful "2018/09/12" "12:00:00" "log.go:33" "GET /healthz" "")
  <> KubeLog.Panicked.
Proof.
  apply (proj2 (handleLine_no_error "kube-apiserver"
                  (KubeLog.formatRestful "2018/09/12" "12:00:00" "log.go:33"
                     "GET /healthz" ""))).
  reflexivity.
Defined.

(** An error line, and a line of a severity the parser does not know. *)
Lemma handleLine_level_witness :
  KubeLog.handleLine "etcd" (KubeLog.format "E0912" "12:00:00" "1" "main.go:5" "failed" "")
  = KubeLog.Returned None
      [KubeLog.entry ErrorLevel [("app", VStr "etcd"); ("location", VStr "main.go:5")]
         "failed"] /\
  exists es,
    KubeLog.handleLine "etcd" (KubeLog.format "X0912" "12:00:00" "1" "main.go:5" "failed" "")
    = KubeLog.Returned None es /\ List.length es = 2%nat.
Proof.
  split.
  - exact (handleLine_level "etcd"
             (KubeLog.format "E0912" "12:00:00" "1" "main.go:5" "failed" "")
             "E"%char "0912" "12:00:00" "1" "main.go:5" "failed" ""
             eq_refl eq_refl eq_refl eq_refl eq_refl eq_refl eq_refl).
  - eexists. split.
    + exact (handleLine_level "etcd"
               (KubeLog.format "X0912" "12:00:00" "1" "main.go:5" "failed" "")
               "X"%char "0912" "12:00:00" "1" "main.go:5" "failed" ""
               eq_refl eq_refl eq_refl eq_refl eq_refl eq_refl eq_refl).
    + reflexivity.
Defined.

(** The answer of a healthy kubelet, between spaces. *)
Lemma healthCheckFun_ok_witness :
  KubeletProbe.healthCheckFun " ok " None = None.
Proof.
  apply (proj2 (healthCheckFun_ok " ok " None)).
  split; [reflexivity|]. exists " ", " ". repeat split.
Defined.

(** A banner line for a message of even length. *)
Lemma printIndented_width_witness :
  exists out, Banner.printIndented "Microkube is ready" = Some out /\ len out = 120.
Proof.
  destruct (printIndented_width "Microkube is ready") as [_ [_ [H _]]].
  destruct (H ltac:(vm_compute; congruence)) as [out [Hout Hlen]].
  exists out. split; [exact Hout|exact Hlen].
Defined.

(** Without the hyperkube binary nothing is started. *)
Lemma start_needs_prerequisites_witness :
  started (trace_of (start noHyperkubeWorld initial)) = [].
Proof.
  apply (proj2 (proj1 (start_needs_prerequisites noHyperkubeWorld initial))).
  intros [_ [_ [_ H]]]. discriminate H.
Defined.

(** The healthy start, and the report that kube-proxy was killed,
    arriving right after it. *)
Lemma kube_proxy_exit_before_ready_is_fatal_witness :
  exists m1 t1 t,
    start healthyWorld (set_gracefulTerminationMode false initial) = Done tt m1 t1 /\
    exitHandler "kube-proxy" false (Some "signal: killed") m1 = Exited t /\
    stopped t = map Handler serviceOrder.
Proof.
  destruct (start healthyWorld (set_gracefulTerminationMode false initial))
    as [[] m1 t1|t1] eqn:E; [|vm_compute in E; discriminate E].
  destruct (kube_proxy_exit_before_ready_is_fatal healthyWorld initial m1 t1 false
              (Some "signal: killed") E) as [_ [_ [H _]]].
  exists m1, t1. eexists. split; [reflexivity|]. split; [exact H|].
  rewrite stopped_app, stopped_fatalExit. reflexivity.
Defined.

(** A run in which the kubeconfig cannot be written. *)
Lemma kubeconfig_failure_stops_both_witness :
  exists t,
    Run_startup noKubeconfigWorld initial = Exited t /\
    started t = [Handler "etcd"; Handler "kube-apiserver"] /\
    stopped t = [Handler "etcd"; Handler "kube-apiserver"].
Proof.
  apply (kubeconfig_failure_stops_both noKubeconfigWorld initial "permission denied").
  - repeat split.
  - split; [reflexivity|]. split; [reflexivity|]. exists 0. split; [lia|reflexivity].
  - split; [reflexivity|]. split; [reflexivity|]. exists 0. split; [lia|reflexivity].
  - reflexivity.
  - reflexivity.
Defined.

(** The healthy run stops kube-proxy twice. *)
Lemma kube_proxy_stopped_at_startup_witness :
  stopped (trace_of (Run healthyWorld Interrupt initial))
  = Handler "kube-proxy" :: map Handler serviceOrder.
Proof.
  destruct (Run_startup healthyWorld initial) as [c m t|t] eqn:E;
    [|vm_compute in E; discriminate E].
  exact (proj2 (kube_proxy_stopped_at_startup healthyWorld) initial c m t E).
Defined.

(** The service list of the healthy run. *)
Lemma start_lists_services_witness :
  exists m' t,
    start healthyWorld initial = Done tt m' t /\
    map name (serviceList m') = entryNames.
Proof.
  destruct (start healthyWorld initial) as [[] m' t|t] eqn:E;
    [|vm_compute in E; discriminate E].
  exists m', t. split; [reflexivity|].
  destruct (start_lists_services _ _ _ _ E) as [Hsl [_ [Hn _]]].
  rewrite Hsl. exact Hn.
Defined.

(** The health checks of the healthy run. *)
Lemma Run_arms_every_service_witness :
  armed (trace_of (Run_startup healthyWorld initial))
  = map (fun s => (Handler s, HealthChan s)) serviceOrder.
Proof.
  destruct (Run_startup healthyWorld initial) as [c m t|t] eqn:E;
    [|vm_compute in E; discriminate E].
  apply (Run_arms_every_service _ _ _ _ _ E). reflexivity.
Defined.

(** A run in which the kube client cannot be made. *)
Lemma kube_client_failure_stops_all_witness :
  exists t,
    Run_startup noClientWorld initial = Exited t /\
    waits t = false /\
    stopped t = Handler "kube-proxy" :: map Handler serviceOrder.
Proof.
  destruct (start noClientWorld (set_gracefulTerminationMode false initial))
    as [[] m1 t1|t1] eqn:E; [|vm_compute in E; discriminate E].
  destruct (kube_client_failure_stops_all noClientWorld initial m1 t1 "no such file"
              E eq_refl) as [t [H [_ [Hs [Hw _]]]]].
  exists t. split; [exact H|]. split; [exact Hw|exact Hs].
Defined.

(** An exit between two refused probes, after startup. *)
Lemma exit_events_invisible_when_graceful_witness :
  checkService etcdEntry [HealthEvent refused; ExitEvent false; HealthEvent refused]
    readyState
  = checkService etcdEntry [HealthEvent refused; HealthEvent refused] readyState.
Proof.
  apply (exit_events_invisible_when_graceful etcdEntry
           [HealthEvent refused; ExitEvent false; HealthEvent refused] readyState).
  reflexivity.
Defined.

(** Ten refused probes. *)
Lemma checkService_aborts_at_ten_in_a_row_witness :
  exited (checkService etcdEntry (map HealthEvent (repeat refused 10)) readyState) = true.
Proof.
  apply (proj2 (proj1 (checkService_aborts_at_ten_in_a_row etcdEntry readyState
                         (repeat refused 10)))).
  exists (repeat refused 10), []. split; reflexivity.
Defined.

(** Two networks that differ in the second and in the third octet; and
    the default ranges the other way round, the service network below
    the pod network. *)
Lemma divergence_last_octet_witness :
  IPRanges.calculateIPRanges [10; 1; 0; 1] [10; 1; 0; 0] [10; 2; 1; 0]
  = Some (Some [10; 1; 0; 1], Some [255; 255; 254; 0]) /\
  IPRanges.calculateIPRanges [10; 233; 43; 1] [10; 233; 43; 0] [10; 233; 42; 0]
  = Some (None, Some [255; 255; 254; 0]).
Proof.
  split.
  - exact (proj1 (proj2 (divergence_last_octet [10; 1] [10; 2] 0 1 [0] [] [10; 1; 0; 1]
                           eq_refl eq_refl eq_refl ltac:(discriminate)))).
  - exact (proj1 (proj2 (divergence_last_octet [10; 233] [10; 233] 43 42 [0] []
                           [10; 233; 43; 1]
                           eq_refl eq_refl eq_refl ltac:(discriminate)))).
Defined.

(** Pod and service range in the same network. *)
Lemma divergence_edge_cases_witness :
  IPRanges.calculateIPRanges [10; 233; 42; 1] [10; 233; 42; 0] [10; 233; 42; 0]
  = Some (Some [10; 233; 42; 1], Some [0; 0; 0; 0]).
Proof.
  apply (proj2 (proj2 (divergence_edge_cases [10; 233; 42; 0] [10; 233; 42; 0])) []).
  reflexivity.
Defined.

(** A cluster that is not healthy in time. *)
Lemma main_gives_up_quietly_witness :
  DnsMain.main (DnsMain.lateCluster 10 (true, None)) "kubeconfig"
  = DnsMain.Returned
      ([DnsMain.SApplyToCluster "kubeconfig"; DnsMain.SInitHealthCheck "kubeconfig"]
       ++ DnsMain.rounds 10
       ++ [DnsMain.SLog (mkEntry InfoLevel [("status", VBool false)] "Health check done")]).
Proof.
  apply (proj1 (proj2 (proj2 (main_gives_up_quietly (DnsMain.lateCluster 10 (true, None))
                                "kubeconfig" "kubeconfig" eq_refl eq_refl eq_refl)))).
  intros j Hj. unfold DnsMain.lateCluster. cbn.
  destruct (j <? 10) eqn:E; [reflexivity|]. apply Z.ltb_ge in E. lia.
Defined.

(** Ports from a base five below the largest [int]. *)
Lemma InitPorts_distinct_ports_witness :
  NoDup (ports (InitPorts
                  (mkExecutionEnvironment unit unit "hyperkube" "pkexec" "/tmp" [] [] []
                     tt tt 0 0 0 0 0 0 0 0 0 0)
                  9223372036854775803)).
Proof.
  apply (InitPorts_distinct_ports unit unit). vm_compute. split; congruence.
Defined.

End FurtherWitnesses.
